(** * SaveDB database-backup pipeline: a shallow embedding and its properties

    The development follows the TypeScript/JavaScript sources of the
    backup pipeline:

    - [JS]: the string primitives of the host language the sources rely on;
    - [Budget]: the timeout budget computed in [backupAndUploadDatabase];
    - [Client]: the browser-side [DatabaseBackupClient] read loop;
    - [Dump]: [executePgDump] and [backupPostgresDatabase];
    - [Pipeline]: [testDatabaseConnection], [checkDatabaseSize],
      [backupAndUploadDatabase] and the HTTP route on top of it;
    - [Upload]: [uploadFileBuffer] of the object-store back end. *)

From Stdlib Require Import ZArith QArith Qround Lia Bool List String Ascii.
From Stdlib Require Import DecimalString.
Import ListNotations.

Open Scope string_scope.
Open Scope Z_scope.

(* ================================================================== *)
(** ** Host-language strings *)
(* ================================================================== *)

Module JS.

(** A string is the UTF-8 encoding of the string of the script.  The
    separators, prefixes and character classes the sources search for
    are ASCII, so that cutting, searching and replacing byte by byte
    gives the encoding of what the script computes code unit by code
    unit; only [trim] looks at characters beyond ASCII. *)

Definition chr (n : nat) : ascii := ascii_of_nat n.

Definition LF : ascii := chr 10.
Definition backslash : ascii := chr 92.
Definition dquote : ascii := chr 34.

Definition nl : string := String LF "".
Definition dq : string := String dquote "".

(** [s.startsWith(p)] *)
Fixpoint startsWith (p s : string) : bool :=
  match p, s with
  | EmptyString, _ => true
  | String a p', String b s' => Ascii.eqb a b && startsWith p' s'
  | String _ _, EmptyString => false
  end.

(** [s.includes(needle)] *)
Fixpoint includes (needle s : string) : bool :=
  startsWith needle s
  || match s with
     | EmptyString => false
     | String _ s' => includes needle s'
     end.

Fixpoint rev (s : string) : string :=
  match s with
  | EmptyString => EmptyString
  | String c s' => rev s' ++ String c EmptyString
  end.

(** [s.endsWith(suffix)] *)
Definition endsWith (suffix s : string) : bool :=
  startsWith (rev suffix) (rev s).

(** [s.split(sep)] for a non-empty separator: the pieces between the
    successive, non-overlapping occurrences of [sep], scanning from the
    left.  [cur] is the piece being accumulated, [skip] the number of
    separator characters still to be dropped. *)
Fixpoint split_from (sep : string) (skip : nat) (cur s : string)
  : list string :=
  match s with
  | EmptyString => [cur]
  | String c s' =>
      match skip with
      | S k => split_from sep k cur s'
      | O =>
          if startsWith sep s
          then cur :: split_from sep (Nat.pred (String.length sep)) "" s'
          else split_from sep O (cur ++ String c "") s'
      end
  end.

Definition split (sep s : string) : list string := split_from sep 0 "" s.

(** White space removed by [trim]: the WhiteSpace and LineTerminator
    characters of the language.  In ASCII these are TAB, LF, VT, FF, CR
    and SPACE. *)
Definition isSpace (c : ascii) : bool :=
  let n := nat_of_ascii c in
  ((9 <=? n)%nat && (n <=? 13)%nat) || (n =? 32)%nat.

(** U+00A0, encoded on two bytes. *)
Definition isSpace2 (a b : ascii) : bool :=
  (nat_of_ascii a =? 194)%nat && (nat_of_ascii b =? 160)%nat.

(** U+1680, U+2000 to U+200A, U+2028, U+2029, U+202F, U+205F, U+3000
    and U+FEFF, encoded on three bytes. *)
Definition isSpace3 (a b c : ascii) : bool :=
  let x := nat_of_ascii a in
  let y := nat_of_ascii b in
  let z := nat_of_ascii c in
  ((x =? 225) && (y =? 154) && (z =? 128))%nat
  || ((x =? 226) && (y =? 128)
      && (((128 <=? z) && (z <=? 138)) || (z =? 168) || (z =? 169)
          || (z =? 175)))%nat
  || ((x =? 226) && (y =? 129) && (z =? 159))%nat
  || ((x =? 227) && (y =? 128) && (z =? 128))%nat
  || ((x =? 239) && (y =? 187) && (z =? 191))%nat.

(** [s.trimStart()] *)
Fixpoint trimStart (s : string) : string :=
  match s with
  | EmptyString => EmptyString
  | String a s1 =>
      if isSpace a then trimStart s1
      else
        match s1 with
        | EmptyString => s
        | String b s2 =>
            if isSpace2 a b then trimStart s2
            else
              match s2 with
              | EmptyString => s
              | String c s3 => if isSpace3 a b c then trimStart s3 else s
              end
        end
  end.

(** Whether [s] is made of white space only. *)
Fixpoint allSpace (s : string) : bool :=
  match s with
  | EmptyString => true
  | String a s1 =>
      if isSpace a then allSpace s1
      else
        match s1 with
        | EmptyString => false
        | String b s2 =>
            if isSpace2 a b then allSpace s2
            else
              match s2 with
              | EmptyString => false
              | String c s3 => isSpace3 a b c && allSpace s3
              end
        end
  end.

(** [s.trimEnd()]: the text up to the white space that ends it. *)
Fixpoint trimEnd (s : string) : string :=
  match s with
  | EmptyString => EmptyString
  | String c s' => if allSpace s then EmptyString else String c (trimEnd s')
  end.

Definition trim (s : string) : string := trimEnd (trimStart s).

(** [s.indexOf(c)] for a one-character needle; [None] stands for -1. *)
Fixpoint indexOf (c : ascii) (s : string) : option nat :=
  match s with
  | EmptyString => None
  | String b s' =>
      if Ascii.eqb b c then Some O else option_map S (indexOf c s')
  end.

(** [s.substring(0, n)] and [s.substring(n)] *)
Fixpoint take (n : nat) (s : string) : string :=
  match n, s with
  | S k, String c s' => String c (take k s')
  | _, _ => EmptyString
  end.

Fixpoint drop (n : nat) (s : string) : string :=
  match n, s with
  | S k, String _ s' => drop k s'
  | _, _ => s
  end.

(** [s.replace(/[...]/g, r)] for a character class given as a test and
    a replacement of at most one character. *)
Fixpoint replaceAll (cls : ascii -> bool) (r : string) (s : string)
  : string :=
  match s with
  | EmptyString => EmptyString
  | String c s' =>
      (if cls c then r else String c "") ++ replaceAll cls r s'
  end.

(** Whether the character [c] occurs in [s]. *)
Fixpoint mentions (c : ascii) (s : string) : bool :=
  match s with
  | EmptyString => false
  | String b s' => Ascii.eqb b c || mentions c s'
  end.

(** Truthiness of a string: the empty string is falsy. *)
Definition truthy (s : string) : bool :=
  match s with EmptyString => false | _ => true end.

(** Template-literal rendering of an integer. *)
Definition showZ (z : Z) : string := NilZero.string_of_int (Z.to_int z).

End JS.

(* ================================================================== *)
(** ** The timeout budget  (backupAndUploadDatabase, "Adjust timeout") *)
(* ================================================================== *)

Module Budget.

(** [const sizeInMB = sizeBytes / (1024 * 1024);]

    [sizeBytes] is the integer produced by [parseInt]; the quotient is
    kept as an exact rational.  In binary64 the division by [2^20] is
    exact and the correctly rounded quotient by [100] reaches an integer
    from below only beyond [2^26], far above the clamp at 45, so the
    clamped result below coincides with the one computed in doubles. *)
Definition sizeInMB (sizeBytes : Z) : Q :=
  (inject_Z sizeBytes / inject_Z (1024 * 1024))%Q.

(** [Math.min(45, Math.max(20, 20 + Math.floor(sizeInMB / 100)))] *)
Definition estimatedMinutes (sizeBytes : Z) : Z :=
  Z.min 45 (Z.max 20 (20 + Qfloor (sizeInMB sizeBytes / inject_Z 100)%Q)).

(** [const timeoutMs = estimatedMinutes * 60 * 1000;] *)
Definition timeoutMs (sizeBytes : Z) : Z :=
  estimatedMinutes sizeBytes * 60 * 1000.

(** The specification's wording: [clamp(x, lo, hi)]. *)
Definition clamp (x lo hi : Z) : Z :=
  if x <? lo then lo else if hi <? x then hi else x.

Definition budget_spec (sizeBytes : Z) : Z :=
  clamp (20 + Qfloor (sizeInMB sizeBytes / inject_Z 100)%Q) 20 45.

Definition MB : Z := 1024 * 1024.

End Budget.

(* ================================================================== *)
(** ** The streaming client  (DatabaseBackupClient) *)
(* ================================================================== *)

Module Client.

Import JS.

(** The separators as the client source spells them.  The literals
    ['\\n\\n'] and ['\\n'] of the script denote the characters
    backslash, [n] (twice for the first): an escaped backslash followed
    by the letter, not a line feed. *)
Definition lineSeparator : string := String backslash (String "n" "").
Definition frameSeparator : string := lineSeparator ++ lineSeparator.

(** The frame of the wire protocol as the server writes it:
    [event: progress], line feed, [data: {"percent":10}], two line
    feeds. *)
Definition progress10_data : string := "{" ++ dq ++ "percent" ++ dq ++ ":10}".
Definition progress10_frame : string :=
  "event: progress" ++ nl ++ "data: " ++ progress10_data ++ nl ++ nl.

Record ParsedEvent : Type := { event : string; data : string }.

(** One iteration of the [for (const line of lines)] loop of
    [_parseEvent]; the pair holds [event.event] and [event.data],
    [None] while the property is unset. *)
Definition parseLine (ev : option string * option string) (line : string)
  : option string * option string :=
  if negb (truthy (trim line)) then ev
  else
    match indexOf ":" line with
    | None => ev
    | Some colonIndex =>
        let field := trim (take colonIndex line) in
        let value := trim (drop (S colonIndex) line) in
        if String.eqb field "event" then (Some value, snd ev)
        else if String.eqb field "data" then (fst ev, Some value)
        else ev
    end.

Definition _parseEvent (eventText : string) : option ParsedEvent :=
  let lines := split lineSeparator eventText in
  match fold_left parseLine lines (None, None) with
  | (Some e, Some d) =>
      if truthy e && truthy d then Some {| event := e; data := d |}
      else None
  | _ => None
  end.

(** [events.pop() || ''] leaves the list without its last element. *)
Definition pop (events : list string) : list string * string :=
  (removelast events, last events "").

Section ReadLoop.

(** Parsed payloads are opaque.  [JSON_parse] is [None] when
    [JSON.parse] throws; [message_of j] is [j.message || 'Backup
    failed'], and [None] when reading the property throws. *)
Variable json : Type.
Variable JSON_parse : string -> option json.
Variable message_of : json -> option string.

Inductive Callback : Type :=
| OnProgress (progress : json)
| OnComplete (result : json)
| OnError (error : json).

Inductive Promise : Type :=
| Pending
| Resolved (result : json)
| Rejected (message : string).

Record State : Type :=
  { buffer : string; calls : list Callback; promise : Promise }.

Definition initial : State :=
  {| buffer := ""; calls := []; promise := Pending |}.

(** The [for (const eventText of events)] loop.  The second component
    is [Some p] when the loop body executed [return] after settling
    the promise with [p]. *)
Fixpoint dispatch (events : list string) (cs : list Callback)
  : list Callback * option Promise :=
  match events with
  | [] => (cs, None)
  | eventText :: rest =>
      if negb (truthy (trim eventText)) then dispatch rest cs
      else
        match _parseEvent eventText with
        | None => dispatch rest cs
        | Some parsedEvent =>
            if String.eqb (event parsedEvent) "progress" then
              match JSON_parse (data parsedEvent) with
              | Some progress =>
                  dispatch rest (cs ++ [OnProgress progress])%list
              | None => dispatch rest cs
              end
            else if String.eqb (event parsedEvent) "complete" then
              match JSON_parse (data parsedEvent) with
              | Some result =>
                  ((cs ++ [OnComplete result])%list,
                   Some (Resolved result))
              | None => dispatch rest cs
              end
            else if String.eqb (event parsedEvent) "error" then
              match JSON_parse (data parsedEvent) with
              | Some error =>
                  match message_of error with
                  | Some m =>
                      ((cs ++ [OnError error])%list, Some (Rejected m))
                  | None => dispatch rest (cs ++ [OnError error])%list
                  end
              | None => dispatch rest cs
              end
            else dispatch rest cs
        end
  end.

(** The [done] branch of [readChunk]. *)
Definition streamEnd (st : State) : State :=
  match _parseEvent (buffer st) with
  | Some lastEvent =>
      if String.eqb (event lastEvent) "complete" then
        match JSON_parse (data lastEvent) with
        | Some result =>
            {| buffer := buffer st;
               calls := (calls st ++ [OnComplete result])%list;
               promise := Resolved result |}
        | None =>
            {| buffer := buffer st;
               calls := calls st;
               promise := Rejected "Failed to parse completion data" |}
        end
      else st
  | None => st
  end.

(** [readChunk], run over the chunks the reader delivers before it
    reports [done].  Chunks are the decoded texts of the byte chunks. *)
Fixpoint readChunk (chunks : list string) (st : State) : State :=
  match chunks with
  | [] => streamEnd st
  | value :: rest =>
      let buffer1 := buffer st ++ value in
      let (events, buffer2) := pop (split frameSeparator buffer1) in
      match dispatch events (calls st) with
      | (cs, Some settled) =>
          {| buffer := buffer2; calls := cs; promise := settled |}
      | (cs, None) =>
          readChunk rest
            {| buffer := buffer2; calls := cs; promise := promise st |}
      end
  end.

Definition client_run (chunks : list string) : State :=
  readChunk chunks initial.

(** The callbacks the claim expects for [progress10_frame]: one
    progress callback carrying the parsed payload. *)
Definition one_progress_dispatched (st : State) : Prop :=
  exists p, JSON_parse progress10_data = Some p
            /\ calls st = [OnProgress p].

End ReadLoop.

Arguments Pending {json}.
Arguments Resolved {json} _.
Arguments Rejected {json} _.

(** Splitting a text into single-character chunks. *)
Fixpoint bytewise (s : string) : list string :=
  match s with
  | EmptyString => []
  | String c s' => String c "" :: bytewise s'
  end.

End Client.

(* ================================================================== *)
(** ** Effects: errors, observable actions and elapsed time *)
(* ================================================================== *)

Module Eff.

Import JS.

(** The [code] property of an error object: a string such as ["ENOENT"]
    or a number. *)
Inductive ErrCode : Type :=
| CodeStr (s : string)
| CodeNum (n : Z).

(** The properties of a thrown value the sources read.  [None] stands
    for an absent ([undefined]) property. *)
Record JsError : Type :=
  { name : string;
    message : string;
    stderr : option string;
    code : option ErrCode }.

(** [new Error(msg)] *)
Definition newError (msg : string) : JsError :=
  {| name := "Error"; message := msg; stderr := None; code := None |}.

(** What the pipeline does to the outside world, in program order. *)
Inductive Action : Type :=
| Progress (percent : Z) (msg : string)
| ImportPg
| NewPool (connectionTimeoutMillis : option Z)
| PoolConnect
| ClientQuery (sql : string)
| ClientRelease
| PoolQuery (sql : string)
| PoolEnd
| Mkdir (dir : string)
| Which
| SetTimeout (ms : Z)
| Spawn (timeout : Z) (argv : list string)
| Stat (path : string)
| ReadFile (path : string)
| PutObject (bucket key contentType cacheControl : string).

(** A computation: the actions it performs, the time it takes in
    milliseconds, and either the value it returns or the error it
    throws. *)
Definition M (A : Type) : Type := (list Action * Z * (JsError + A))%type.

Definition trace {A} (m : M A) : list Action := fst (fst m).
Definition elapsed {A} (m : M A) : Z := snd (fst m).
Definition result {A} (m : M A) : JsError + A := snd m.

Definition ret {A} (a : A) : M A := ([], 0, inr a).
Definition throw {A} (e : JsError) : M A := ([], 0, inl e).

Definition bind {A B} (m : M A) (k : A -> M B) : M B :=
  match result m with
  | inl e => (trace m, elapsed m, inl e)
  | inr a =>
      ((trace m ++ trace (k a))%list, elapsed m + elapsed (k a), result (k a))
  end.

(** [try { m } catch (e) { h e }] *)
Definition catch {A} (m : M A) (h : JsError -> M A) : M A :=
  match result m with
  | inl e =>
      ((trace m ++ trace (h e))%list, elapsed m + elapsed (h e), result (h e))
  | inr a => m
  end.

(** [try { m } finally { f }]: [f] runs in either case, and an error
    thrown by [f] replaces the outcome of [m]. *)
Definition finally {A} (m : M A) (f : M unit) : M A :=
  ((trace m ++ trace f)%list, elapsed m + elapsed f,
   match result f with
   | inl e => inl e
   | inr _ => result m
   end).

(** An action of the outside world together with its behaviour: how long
    it takes and how it ends. *)
Record Call (A : Type) : Type := { took : Z; outcome : JsError + A }.
Arguments took {A} _.
Arguments outcome {A} _.

Definition perform {A} (a : Action) (c : Call A) : M A :=
  ([a], took c, outcome c).

Definition emit (a : Action) : M unit := ([a], 0, inr tt).

(** [await new Promise((resolve) => setTimeout(resolve, ms))] *)
Definition delay (ms : Z) : M unit := ([SetTimeout ms], ms, inr tt).

(** [Promise.race([op, new Promise((_, reject) => setTimeout(() =>
    reject(new Error(msg)), ms))])].  The operation has been started, so
    its actions are part of the trace even when the timer wins: the
    operation is abandoned, not undone.  Equal instants go to the timer. *)
Definition race {A} (op : M A) (ms : Z) (msg : string) : M A :=
  if elapsed op <? ms then op
  else (trace op, ms, inl (newError msg)).

Definition isProgress (a : Action) : bool :=
  match a with Progress _ _ => true | _ => false end.

Definition isSpawn (a : Action) : bool :=
  match a with Spawn _ _ => true | _ => false end.

(** An action that is not a progress event. *)
Definition quiet (a : Action) : Prop := isProgress a = false.

(** An action that, if it starts a process, gives it the time limit
    [limit]. *)
Definition timedAt (limit : Z) (a : Action) : Prop :=
  forall timeout argv, a = Spawn timeout argv -> timeout = limit.

End Eff.

Declare Scope eff_scope.
Delimit Scope eff_scope with eff.
Notation "x <- m ;; k" := (Eff.bind m (fun x => k))
  (at level 61, m at next level, right associativity) : eff_scope.
Notation "m ;;; k" := (Eff.bind m (fun _ => k))
  (at level 61, right associativity) : eff_scope.

(* ================================================================== *)
(** ** The dump executor  (executePgDump, backupPostgresDatabase) *)
(* ================================================================== *)

Module Dump.

Import JS Eff.
Local Open Scope eff_scope.

(** The fields of the value the process runner resolves with. *)
Record ExecaResult : Type :=
  { exitCode : option Z;
    stdout : string;
    res_stderr : string;
    timedOut : bool }.

(** One run of the dump utility if it is left alone: how long it takes,
    how the runner's promise settles ([inr]: resolves, which with
    [reject: false] includes non-zero exit codes; [inl]: rejects), and
    what it has written to stderr should it be killed before. *)
Record Attempt : Type :=
  { run : Call ExecaResult;
    stderr_when_killed : string }.

(** The runner's [timeout] option: a process still running after
    [timeout] milliseconds is killed, and the promise resolves with a
    result flagged [timedOut] whose exit code is [undefined]. *)
Definition spawn (timeout : Z) (argv : list string) (a : Attempt)
  : M ExecaResult :=
  if timeout <=? took (run a)
  then ([Spawn timeout argv], timeout,
        inr {| exitCode := None; stdout := "";
               res_stderr := stderr_when_killed a; timedOut := true |})
  else perform (Spawn timeout argv) (run a).

(** [`${result.exitCode}`] *)
Definition showExit (c : option Z) : string :=
  match c with
  | Some z => showZ z
  | None => "undefined"
  end.

(** *** The classification of the [catch] clause *)

(** [error.name === "AbortError" || error.message.includes("timeout")] *)
Definition isTimeout (error : JsError) : bool :=
  String.eqb (name error) "AbortError" || includes "timeout" (message error).

(** [error.stderr && (error.stderr.includes("connection to server was
    lost") || error.stderr.includes("could not connect to server"))] *)
Definition isConnectionError (error : JsError) : bool :=
  match stderr error with
  | Some s =>
      truthy s
      && (includes "connection to server was lost" s
          || includes "could not connect to server" s)
  | None => false
  end.

(** [error.code === "ENOENT"] *)
Definition isENOENT (error : JsError) : bool :=
  match code error with
  | Some (CodeStr s) => String.eqb s "ENOENT"
  | _ => false
  end.

(** [error.code && error.code !== 1] *)
Definition isNonStandardExit (error : JsError) : bool :=
  match code error with
  | Some (CodeStr s) => truthy s
  | Some (CodeNum n) => negb (n =? 0) && negb (n =? 1)
  | None => false
  end.

Inductive Caught : Type :=
| Rethrow (e : JsError)
| NextAttempt.

Section ExecutePgDump.

Variable pgDumpPath connectionUrl outputPath : string.
Variable timeout : Z.
Variable maxRetries : nat.
Variable retryDelayMs : Z.
Variable pg_dump : nat -> Attempt.

Definition argv : list string :=
  [pgDumpPath; connectionUrl; "-v"; "-Fc"; "-f"; outputPath].

(** The body of [try]. *)
Definition tryAttempt (attempt : nat) : M ExecaResult :=
  (if (0 <? attempt)%nat then delay retryDelayMs else ret tt) ;;;
  result <- spawn timeout argv (pg_dump attempt) ;;
  match exitCode result with
  | Some 0 => ret result
  | _ =>
      throw (newError ("pg_dump failed with exit code "
                       ++ showExit (exitCode result) ++ ": "
                       ++ res_stderr result))
  end.

(** The body of [catch (error)]: the chain of [if]/[else if], then the
    test for the last retry. *)
Definition catchAttempt (attempt : nat) (error : JsError) : Caught :=
  let fatal :=
    if isTimeout error then None
    else if isConnectionError error then None
    else if isENOENT error then
      Some (newError ("pg_dump executable not found at " ++ pgDumpPath))
    else if isNonStandardExit error then Some error
    else None in
  match fatal with
  | Some e => Rethrow e
  | None => if (attempt =? maxRetries)%nat then Rethrow error else NextAttempt
  end.

(** [for (let attempt = 0; attempt <= maxRetries; attempt++)], with
    [remaining = maxRetries + 1 - attempt] iterations left; after the
    loop, [throw lastError || new Error(...)]. *)
Fixpoint attempts (remaining attempt : nat) (lastError : option JsError)
  : M ExecaResult :=
  match remaining with
  | O =>
      throw (match lastError with
             | Some e => e
             | None => newError "Unknown error during pg_dump execution"
             end)
  | S remaining' =>
      catch (tryAttempt attempt)
        (fun error =>
           match catchAttempt attempt error with
           | Rethrow e => throw e
           | NextAttempt => attempts remaining' (S attempt) (Some error)
           end)
  end.

Definition executePgDump : M ExecaResult := attempts (S maxRetries) 0%nat None.

(** The errors the [catch] clause lets through to the test for the last
    retry. *)
Definition retried (error : JsError) : Prop :=
  forall attempt,
    catchAttempt attempt error
    = if (attempt =? maxRetries)%nat then Rethrow error else NextAttempt.

End ExecutePgDump.

(** A failed attempt that shows the loss of the connection: the process
    ends within the time limit with a non-zero exit code and the text on
    stderr, or the runner's promise rejects with an error carrying that
    stderr. *)
Definition connectionLost (timeout : Z) (a : Attempt) : bool :=
  (took (run a) <? timeout)
  && match outcome (run a) with
     | inr r =>
         match exitCode r with
         | Some 0 => false
         | _ => includes "connection to server was lost" (res_stderr r)
         end
     | inl e =>
         match stderr e with
         | Some s => includes "connection to server was lost" s
         | None => false
         end
     end.

(** A failed attempt at which the executable is missing.  No process is
    started; called with [reject: false], the runner does not reject:
    it resolves with the error object itself, whose [exitCode] is
    [undefined] and which is not flagged [timedOut]. *)
Definition executableMissing (timeout : Z) (a : Attempt) : bool :=
  (took (run a) <? timeout)
  && match outcome (run a) with
     | inr r =>
         match exitCode r with
         | None => negb (timedOut r)
         | Some _ => false
         end
     | inl _ => false
     end.

(** An attempt whose process ends within the time limit with the exit
    code [c]. *)
Definition exitsWith (timeout : Z) (c : Z) (a : Attempt) : bool :=
  (took (run a) <? timeout)
  && match outcome (run a) with
     | inr r =>
         match exitCode r with
         | Some c' => c' =? c
         | None => false
         end
     | inl _ => false
     end.

(** The defaults of the destructured [options]. *)
Definition default_timeout : Z := 15 * 60 * 1000.
Definition default_maxRetries : nat := 2.
Definition default_retryDelayMs : Z := 5000.

(** The number of dump processes started. *)
Definition spawns (t : list Action) : nat := List.length (filter isSpawn t).

(** [n] retries: each is a pause followed by the start of a process. *)
Fixpoint retries (retryDelayMs timeout : Z) (argv : list string) (n : nat)
  : list Action :=
  match n with
  | O => []
  | S k =>
      SetTimeout retryDelayMs :: Spawn timeout argv
      :: retries retryDelayMs timeout argv k
  end.

End Dump.

(* ================================================================== *)
(** ** The artifact name  (backupPostgresDatabase, "Initializing") *)
(* ================================================================== *)

Module Artifact.

Import JS.

(** The UTC fields of [new Date()], the instant read from the system
    clock: a calendar date (month 1 to 12, day 1 to 31, hours below 24,
    minutes and seconds below 60, milliseconds below 1000) whose year is
    not negative. *)
Record DateTime : Type :=
  { year : nat; month : nat; day : nat;
    hours : nat; minutes : nat; seconds : nat; milliseconds : nat }.

Definition digit (n : nat) : ascii := ascii_of_nat (48 + n mod 10).

(** The [width] low-order decimal digits of [n], zero-padded. *)
Fixpoint digits (width n : nat) : string :=
  match width with
  | O => EmptyString
  | S w => digits w (n / 10) ++ String (digit n) ""
  end.

(** The year of [Date.prototype.toISOString]: four digits for the years
    0 to 9999, and the expanded form beyond, a sign followed by six
    digits. *)
Definition isoYear (y : nat) : string :=
  if (y <? 10 ^ 4)%nat then digits 4 y else "+" ++ digits 6 y.

(** [Date.prototype.toISOString]: [YYYY-MM-DDTHH:mm:ss.sssZ], or
    [+YYYYYY-MM-DDTHH:mm:ss.sssZ] from the year 10000 on. *)
Definition toISOString (d : DateTime) : string :=
  isoYear (year d) ++ "-" ++ digits 2 (month d) ++ "-" ++ digits 2 (day d)
  ++ "T" ++ digits 2 (hours d) ++ ":" ++ digits 2 (minutes d) ++ ":"
  ++ digits 2 (seconds d) ++ "." ++ digits 3 (milliseconds d) ++ "Z".

(** The character classes [/[-:]/] and [/[/\\]/]. *)
Definition isDashOrColon (c : ascii) : bool :=
  Ascii.eqb c "-" || Ascii.eqb c ":".

Definition isPathSeparator (c : ascii) : bool :=
  Ascii.eqb c "/" || Ascii.eqb c backslash.

(** [new Date().toISOString().replace(/[-:]/g, "").split(".")[0]] *)
Definition timestamp (now : DateTime) : string :=
  hd "" (split "." (replaceAll isDashOrColon "" (toISOString now))).

(** [outputName.replace(/[/\\]/g, "-")] *)
Definition cleanFileName (outputName : string) : string :=
  replaceAll isPathSeparator "-" outputName.

(** [cleanFileName.endsWith(".sql") ? cleanFileName :
    `${cleanFileName}.sql`] *)
Definition sqlFileName (outputName : string) : string :=
  let clean := cleanFileName outputName in
  if endsWith ".sql" clean then clean else clean ++ ".sql".

(** [`backup-${timestamp}-${sqlFileName}`] *)
Definition backupFileName (now : DateTime) (outputName : string) : string :=
  "backup-" ++ timestamp now ++ "-" ++ sqlFileName outputName.

(** [path.join(process.cwd(), "public/uploads", backupFileName)]; the
    file name holds no separator, so joining is concatenation. *)
Definition uploadsDir (cwd : string) : string := cwd ++ "/public/uploads".

Definition outputPath (cwd fileName : string) : string :=
  uploadsDir cwd ++ "/" ++ fileName.

(** The fields of the date written out one after the other:
    [YYYYMMDDTHHMMSS] when the year has four digits. *)
Definition stampOf (now : DateTime) : string :=
  isoYear (year now) ++ digits 2 (month now) ++ digits 2 (day now) ++ "T"
  ++ digits 2 (hours now) ++ digits 2 (minutes now) ++ digits 2 (seconds now).

(** The shape [YYYYMMDDTHHMMSS]. *)
Definition isDigit (c : ascii) : bool :=
  let n := nat_of_ascii c in ((48 <=? n)%nat && (n <=? 57)%nat).

Fixpoint allDigits (s : string) : bool :=
  match s with
  | EmptyString => true
  | String c s' => isDigit c && allDigits s'
  end.

Definition compactStamp (s : string) : bool :=
  (String.length s =? 15)%nat
  && allDigits (take 8 s)
  && String.eqb (take 1 (drop 8 s)) "T"
  && allDigits (drop 9 s).

(** The name as the specification words it: the requested name with the
    path separators removed, between [backup-<timestamp>-] and [.dump]. *)
Definition removeSeparators (requested : string) : string :=
  replaceAll isPathSeparator "" requested.

Definition artifact_name_spec (now : DateTime) (requested : string) : string :=
  "backup-" ++ timestamp now ++ "-" ++ removeSeparators requested ++ ".dump".

End Artifact.

(* ================================================================== *)
(** ** The object-store upload  (uploadFileBuffer) *)
(* ================================================================== *)

Module Upload.

Import JS Eff.
Local Open Scope eff_scope.

(** The variables of [env] the upload reads. *)
Record Env : Type :=
  { CLOUDFLARE_CDN_PROJECT_NAME : string;
    CLOUDFLARE_CDN_BUCKET_NAME : string;
    CLOUDFLARE_CDN_ACCESS_KEY : string;
    CLOUDFLARE_CDN_SECRET_KEY : string;
    CLOUDFLARE_CDN_ENDPOINT_URL : string;
    CLOUDFLARE_CDN_BASE_URL : string;
    NODE_ENV : string }.

Record ICloudStorage : Type :=
  { provider : string;
    region : string;
    bucket : string;
    accessKey : string;
    secretKey : string;
    endpoint : string;
    baseUrl : option string;
    basePath : option string }.

Definition getCurrentStorage (env : Env) : ICloudStorage :=
  {| provider := "cloudflare";
     region := "auto";
     bucket := CLOUDFLARE_CDN_BUCKET_NAME env;
     accessKey := CLOUDFLARE_CDN_ACCESS_KEY env;
     secretKey := CLOUDFLARE_CDN_SECRET_KEY env;
     endpoint := CLOUDFLARE_CDN_ENDPOINT_URL env;
     baseUrl := Some (CLOUDFLARE_CDN_BASE_URL env);
     basePath := Some ("/" ++ CLOUDFLARE_CDN_PROJECT_NAME env ++ "/"
                       ++ NODE_ENV env) |}.

(** The functions imported from [./helper], which the sources at hand do
    not include; they are parameters of the upload. *)
Record Helper : Type :=
  { getUploadFileOriginEndpointUrl : ICloudStorage -> string -> string;
    getUploadFilePublicUrl : ICloudStorage -> string -> string;
    guessMimeTypeByBuffer : string -> option string }.

Record UploadResponse : Type :=
  { resp_provider : string;
    resp_path : string;
    storageUrl : string;
    publicUrl : string }.

(** The complement of the class in [/[^a-zA-Z0-9-_.]/g]. *)
Definition isKeyChar (c : ascii) : bool :=
  let n := nat_of_ascii c in
  ((97 <=? n)%nat && (n <=? 122)%nat)
  || ((65 <=? n)%nat && (n <=? 90)%nat)
  || ((48 <=? n)%nat && (n <=? 57)%nat)
  || Ascii.eqb c "-" || Ascii.eqb c "_" || Ascii.eqb c ".".

(** [if (destFileName.startsWith("/")) destFileName =
    destFileName.slice(1);] *)
Definition dropLeadingSlash (destFileName : string) : string :=
  if startsWith "/" destFileName then drop 1 destFileName else destFileName.

(** [destFileName.replace(/[^a-zA-Z0-9-_.]/g, "")] *)
Definition sanitize (destFileName : string) : string :=
  replaceAll (fun c => negb (isKeyChar c)) "" destFileName.

(** [`${env.CLOUDFLARE_CDN_PROJECT_NAME}/${path}`] *)
Definition objectKey (env : Env) (destFileName : string) : string :=
  CLOUDFLARE_CDN_PROJECT_NAME env ++ "/"
  ++ sanitize (dropLeadingSlash destFileName).

Definition cacheControl : string := "max-age=31536000, s-maxage=31536000".

Section UploadFileBuffer.

Variable env : Env.
Variable helper : Helper.
(** How [s3.send(new PutObjectCommand(uploadParams))] behaves. *)
Variable send : Call unit.

(** [options] carries the optional [storage]; [None] selects the default
    [getCurrentStorage()]. *)
Definition uploadFileBuffer (buffer destFileName : string)
  (options : option ICloudStorage) : M UploadResponse :=
  let storage :=
    match options with
    | Some st => st
    | None => getCurrentStorage env
    end in
  let destFileName := dropLeadingSlash destFileName in
  let path := sanitize destFileName in
  let mimeType :=
    match guessMimeTypeByBuffer helper buffer with
    | Some m => if truthy m then m else "application/octet-stream"
    | None => "application/octet-stream"
    end in
  perform
    (PutObject (bucket storage)
       (CLOUDFLARE_CDN_PROJECT_NAME env ++ "/" ++ path) mimeType cacheControl)
    send ;;;
  ret {| resp_provider := provider storage;
         resp_path := path;
         storageUrl := getUploadFileOriginEndpointUrl helper storage destFileName;
         publicUrl := getUploadFilePublicUrl helper storage destFileName |}.

End UploadFileBuffer.

(** The keys of the objects a run has put. *)
Fixpoint keysWritten (t : list Action) : list string :=
  match t with
  | [] => []
  | PutObject _ key _ _ :: t' => key :: keysWritten t'
  | _ :: t' => keysWritten t'
  end.

End Upload.

(* ================================================================== *)
(** ** The orchestrator  (backupAndUploadDatabase and its stages) *)
(* ================================================================== *)

Module Pipeline.

Import JS Eff.
Local Open Scope eff_scope.

(** Everything outside the program that a request meets. *)
Record World : Type :=
  { now : Artifact.DateTime;
    cwd : string;
    (** [new URL(connectionUrl.replace("postgres://", "http://"))
        .pathname.substring(1)]; [None] when the constructor throws. *)
    dbNameOf : string -> option string;
    (** the connection probe *)
    probe_import : Call unit;
    probe_connect : Call unit;
    probe_select : Call unit;
    probe_release : Call unit;
    probe_end : Call unit;
    (** the size estimator; the queries answer with the parsed integers *)
    size_import : Call unit;
    size_query : Call Z;
    tables_query : Call Z;
    size_end : Call unit;
    (** the dump *)
    mkdir : Call unit;
    which : Call string;
    pg_dump : nat -> Dump.Attempt;
    stat_after_dump : Call Z;
    (** the upload *)
    stat_before_upload : Call Z;
    readFile : Call string;
    env : Upload.Env;
    helper : Upload.Helper;
    send : Call unit;
    (** [sizeInMB.toFixed(2)] *)
    toFixed2 : Q -> string }.

Definition invalidURL : JsError :=
  {| name := "TypeError"; message := "Invalid URL"; stderr := None;
     code := Some (CodeStr "ERR_INVALID_URL") |}.

Definition parseDbName (w : World) (connectionUrl : string) : M string :=
  match dbNameOf w connectionUrl with
  | Some dbName => ret dbName
  | None => throw invalidURL
  end.

(** *** findPgDump *)

Definition findPgDump (w : World) : M string :=
  catch (stdout <- perform Which (which w) ;; ret (trim stdout))
    (fun _ =>
       throw (newError "pg_dump not found in system PATH. Please ensure PostgreSQL client tools are installed.")).

(** *** backupPostgresDatabase *)

Definition fifteenMinutes : Z := 15 * 60 * 1000.

Definition timedOutMessage : string :=
  "Database backup operation timed out. The database might be too large or the server might be under heavy load.".

(** The call of [executePgDump] with the options of the call site. *)
Definition executor (w : World) (pgDumpPath connectionUrl outputPath : string)
  : M Dump.ExecaResult :=
  Dump.executePgDump pgDumpPath connectionUrl outputPath
    fifteenMinutes 2 Dump.default_retryDelayMs (pg_dump w).

(** From [setTimeout(() => controller.abort(), 15 * 60 * 1000)] to the
    end of the inner [try]/[catch].  The timer is cleared as soon as
    [executePgDump] settles, so [signal.aborted] holds exactly when the
    executor has run for fifteen minutes. *)
Definition guardedDump (w : World)
  (pgDumpPath connectionUrl outputPath backupFileName : string) : M string :=
  let exec := executor w pgDumpPath connectionUrl outputPath in
  let aborted := fifteenMinutes <=? elapsed exec in
  catch
    (exec ;;;
     size <- perform (Stat outputPath) (stat_after_dump w) ;;
     if size =? 0 then
       throw (newError "Backup file is empty. The pg_dump command may have failed silently.")
     else ret backupFileName)
    (fun execError =>
       if String.eqb (name execError) "AbortError" || aborted then
         throw (newError timedOutMessage)
       else
         throw (newError ("Database backup failed: " ++ message execError))).

Definition backupPostgresDatabase (w : World) (connectionUrl outputName : string)
  : M string :=
  let backupFileName := Artifact.backupFileName (now w) outputName in
  let outputPath := Artifact.outputPath (cwd w) backupFileName in
  perform (Mkdir (Artifact.uploadsDir (cwd w))) (mkdir w) ;;;
  pgDumpPath <- findPgDump w ;;
  parseDbName w connectionUrl ;;;
  guardedDump w pgDumpPath connectionUrl outputPath backupFileName.

(** *** testDatabaseConnection *)

Record ConnectionTest : Type :=
  { success : bool; test_message : string; test_error : option JsError }.

Definition probeTimeoutMillis : Z := 5000.
Definition probeQuery : string := "SELECT 1 as test".

Definition testDatabaseConnection (w : World) (connectionUrl : string)
  : M ConnectionTest :=
  catch
    (perform ImportPg (probe_import w) ;;;
     emit (NewPool (Some probeTimeoutMillis)) ;;;
     finally
       (perform PoolConnect (probe_connect w) ;;;
        finally
          (perform (ClientQuery probeQuery) (probe_select w) ;;;
           ret {| success := true; test_message := "Connection successful";
                  test_error := None |})
          (perform ClientRelease (probe_release w)))
       (perform PoolEnd (probe_end w)))
    (fun error =>
       ret {| success := false;
              test_message := "Connection failed: " ++ message error;
              test_error := Some error |}).

(** *** checkDatabaseSize *)

Record SizeEstimate : Type := { sizeBytes : Z; tablesCount : Z }.

Definition sizeSql : string := "SELECT pg_database_size($1) as size".
Definition tablesSql : string :=
  "SELECT count(*) as tables_count FROM information_schema.tables WHERE table_schema NOT IN ('pg_catalog', 'information_schema')".

Definition checkDatabaseSize (w : World) (connectionUrl : string)
  : M SizeEstimate :=
  catch
    (parseDbName w connectionUrl ;;;
     perform ImportPg (size_import w) ;;;
     emit (NewPool None) ;;;
     finally
       (size <- perform (PoolQuery sizeSql) (size_query w) ;;
        tables <- perform (PoolQuery tablesSql) (tables_query w) ;;
        ret {| sizeBytes := size; tablesCount := tables |})
       (perform PoolEnd (size_end w)))
    (fun _ => ret {| sizeBytes := 0; tablesCount := 0 |}).

(** *** backupAndUploadDatabase *)

Record BackupResult : Type := { provider : string; url : string }.

Definition startMessage (w : World) (size : SizeEstimate) : string :=
  "Starting database backup (" ++ toFixed2 w (Budget.sizeInMB (sizeBytes size))
  ++ " MB, " ++ showZ (tablesCount size) ++ " tables)...".

Definition dumpTimeoutMessage (size : SizeEstimate) : string :=
  "Database backup operation timed out after "
  ++ showZ (Budget.estimatedMinutes (sizeBytes size)) ++ " minutes".

Definition uploadTimeoutMessage : string :=
  "Cloud storage upload operation timed out".

(** The dump step: [Promise.race([backupPromise, ...])]. *)
Definition dumpStep (w : World) (connectionUrl outputName : string)
  (size : SizeEstimate) : M string :=
  race (backupPostgresDatabase w connectionUrl outputName)
    (Budget.timeoutMs (sizeBytes size)) (dumpTimeoutMessage size).

(** The upload step: [Promise.race([uploadPromise, ...])]. *)
Definition uploadStep (w : World) (fileBuffer backupFileName : string)
  (storage : option Upload.ICloudStorage) (size : SizeEstimate)
  : M Upload.UploadResponse :=
  race (Upload.uploadFileBuffer (env w) (helper w) (send w)
          fileBuffer backupFileName storage)
    (Budget.timeoutMs (sizeBytes size)) uploadTimeoutMessage.

(** From "Adjust timeout based on database size" to the end. *)
Definition dumpAndUpload (w : World) (connectionUrl outputName : string)
  (storage : option Upload.ICloudStorage) (size : SizeEstimate)
  : M BackupResult :=
  emit (Progress 10 (startMessage w size)) ;;;
  backupFileName <- dumpStep w connectionUrl outputName size ;;
  emit (Progress 50 "Database backup completed, preparing for upload...") ;;;
  let outputPath := Artifact.outputPath (cwd w) backupFileName in
  stats <- perform (Stat outputPath) (stat_before_upload w) ;;
  if stats =? 0 then
    throw (newError "Backup file is empty, possibly a failed backup operation")
  else
    emit (Progress 60 "Reading backup file...") ;;;
    fileBuffer <- perform (ReadFile outputPath) (readFile w) ;;
    emit (Progress 70 "Uploading to cloud storage...") ;;;
    uploaded <- uploadStep w fileBuffer backupFileName storage size ;;
    emit (Progress 100 "Upload completed successfully") ;;;
    ret {| provider := Upload.resp_provider uploaded;
           url := Upload.publicUrl uploaded |}.

Definition backupAndUploadDatabase (w : World)
  (connectionUrl outputName : string) (storage : option Upload.ICloudStorage)
  : M BackupResult :=
  emit (Progress 2 "Testing database connection...") ;;;
  connectionTest <- testDatabaseConnection w connectionUrl ;;
  if negb (success connectionTest) then
    throw (newError ("Database connection test failed: "
                     ++ test_message connectionTest))
  else
    emit (Progress 5 "Database connection successful, analyzing size...") ;;;
    size <- checkDatabaseSize w connectionUrl ;;
    dumpAndUpload w connectionUrl outputName storage size.

(** What a trace shows of the probe: the queries sent over the client
    and the connection time limits of the pools created. *)
Fixpoint clientQueries (t : list Action) : list string :=
  match t with
  | [] => []
  | ClientQuery sql :: t' => sql :: clientQueries t'
  | _ :: t' => clientQueries t'
  end.

Fixpoint poolTimeouts (t : list Action) : list (option Z) :=
  match t with
  | [] => []
  | NewPool ms :: t' => ms :: poolTimeouts t'
  | _ :: t' => poolTimeouts t'
  end.

Definition failed {A} (c : Call A) : bool :=
  match outcome c with
  | inl _ => true
  | inr _ => false
  end.

(** Some step of the size estimation fails. *)
Definition sizeFails (w : World) (connectionUrl : string) : bool :=
  match dbNameOf w connectionUrl with
  | None => true
  | Some _ =>
      failed (size_import w) || failed (size_query w)
      || failed (tables_query w) || failed (size_end w)
  end.

(** The reading of "the dump step may run up to the full budget before
    it is timed out": a dump step that ends with a timed-out error has
    lasted for the whole budget. *)
Definition dump_may_use_full_budget : Prop :=
  forall (w : World) (connectionUrl outputName : string) (size : SizeEstimate)
         (e : JsError),
    0 <= sizeBytes size ->
    result (dumpStep w connectionUrl outputName size) = inl e ->
    includes "timed out" (message e) = true ->
    Budget.timeoutMs (sizeBytes size)
    <= elapsed (dumpStep w connectionUrl outputName size).

End Pipeline.

(* ================================================================== *)
(** ** The HTTP route  (apiDatabaseBackupRouter.post "/") *)
(* ================================================================== *)

Module Route.

Import JS Eff.

(** The storage destination of a validated request. *)
Inductive Destination : Type :=
| ObjectStore (storage : Upload.ICloudStorage)
| ManagedDrive.

Record BackupData : Type :=
  { name : option string;
    connectionUrl : string;
    destination : Destination }.

(** The objects handed to [JSON.stringify] and [res.json]. *)
Inductive Payload : Type :=
| Starting                      (* {progress: 0, message: "Starting backup process"} *)
| ProgressData (msg : string) (percent : Z)
| CompleteData (name provider url : string)
| ErrorData (msg details originalError : string)
| SuccessBody (name provider url : string)
| TimeoutBody (msg details originalError : string).

(** What the handler does to the response, in order. *)
Inductive Response : Type :=
| WriteHead (status : Z)
| Write (chunk : string)
| End
| Json (status : Z) (body : Payload)
| Next (error : JsError).

(** The events of the progress channel. *)
Inductive Event : Type :=
| EvProgress (p : Payload)
| EvComplete (p : Payload)
| EvError (p : Payload).

Definition kind (e : Event) : string :=
  match e with
  | EvProgress _ => "progress"
  | EvComplete _ => "complete"
  | EvError _ => "error"
  end.

Definition payload (e : Event) : Payload :=
  match e with
  | EvProgress p | EvComplete p | EvError p => p
  end.

Definition timeoutUserMessage : string :=
  "The database backup operation timed out. This may be due to the database size or server load.".
Definition timeoutUserDetails : string :=
  "Consider breaking up your backup into smaller chunks or running during off-peak hours.".

Section Handler.

Variable JSON_stringify : Payload -> string.
(** [generateBackupName] of the database module, not among the sources
    at hand. *)
Variable generateBackupName : string -> string.
Variable w : Pipeline.World.

(** The two [res.write] calls that put one event on the wire. *)
Definition frame (e : Event) : list Response :=
  [ Write ("event: " ++ kind e ++ nl);
    Write ("data: " ++ JSON_stringify (payload e) ++ nl ++ nl) ].

(** [backupData.name || generateBackupName(backupData.connectionUrl)] *)
Definition backupName (backupData : BackupData) : string :=
  match name backupData with
  | Some n => if truthy n then n else generateBackupName (connectionUrl backupData)
  | None => generateBackupName (connectionUrl backupData)
  end.

Definition outputName (backupData : BackupData) : string :=
  backupName backupData ++ ".dump".

(** The call of [backupAndUploadDatabase]; the orchestrator takes the
    object-store descriptor only, a managed-drive request reaches it
    without one. *)
Definition runBackup (backupData : BackupData) : M Pipeline.BackupResult :=
  Pipeline.backupAndUploadDatabase w (connectionUrl backupData)
    (outputName backupData)
    (match destination backupData with
     | ObjectStore st => Some st
     | ManagedDrive => None
     end).

(** The [onProgress] callback of the streaming branch. *)
Definition onProgress (a : Action) : list Response :=
  match a with
  | Progress percent msg => frame (EvProgress (ProgressData msg percent))
  | _ => []
  end.

Definition errorEvent (error : JsError) : Event :=
  if includes "timed out" (message error)
  then EvError (ErrorData timeoutUserMessage timeoutUserDetails (message error))
  else EvError (ErrorData (message error) "" (message error)).

Definition streaming (backupData : BackupData) : list Response :=
  let run := runBackup backupData in
  (WriteHead 200 :: frame (EvProgress Starting)
   ++ flat_map onProgress (trace run)
   ++ match result run with
      | inr r =>
          frame (EvComplete (CompleteData (backupName backupData)
                               (Pipeline.provider r) (Pipeline.url r)))
          ++ [End]
      | inl error => frame (errorEvent error) ++ [End]
      end)%list.

Definition standard (backupData : BackupData) : list Response :=
  match result (runBackup backupData) with
  | inr r =>
      [Json 201 (SuccessBody (backupName backupData)
                   (Pipeline.provider r) (Pipeline.url r))]
  | inl error =>
      if includes "timed out" (message error)
      then [Json 504 (TimeoutBody timeoutUserMessage timeoutUserDetails
                        (message error))]
      else (* throw error; the headers are not sent: next(error) *)
        [Next error]
  end.

(** The handler: [body] is the outcome of
    [DatabaseBackupRequestSchema.parse(req.body)]. *)
Definition post (acceptsStreamingUpdates : bool) (body : JsError + BackupData)
  : list Response :=
  match body with
  | inl zodError => [Next zodError]
  | inr backupData =>
      if acceptsStreamingUpdates then streaming backupData
      else standard backupData
  end.

(** The progress events a run gives rise to. *)
Fixpoint progressEvents (t : list Action) : list Event :=
  match t with
  | [] => []
  | Progress percent msg :: t' =>
      EvProgress (ProgressData msg percent) :: progressEvents t'
  | _ :: t' => progressEvents t'
  end.

(** The events a response carries, and the terminal outcomes it
    reports. *)
Definition wire (events : list Event) : list Response :=
  flat_map frame events.

Definition isOutcome (r : Response) : bool :=
  match r with
  | Json _ _ | Next _ => true
  | _ => false
  end.

End Handler.

End Route.

(* ================================================================== *)
(** ** Sample environments *)
(* ================================================================== *)

Module Scenario.

Import Eff.

Definition ok {A} (ms : Z) (a : A) : Call A :=
  {| took := ms; outcome := inr a |}.

Definition fails {A} (ms : Z) (e : JsError) : Call A :=
  {| took := ms; outcome := inl e |}.

(** A dump process that ends after [ms] with exit code [c] and [err] on
    stderr. *)
Definition exits (c : Z) (err : string) (ms : Z) : Dump.Attempt :=
  {| Dump.run := ok ms {| Dump.exitCode := Some c; Dump.stdout := "";
                          Dump.res_stderr := err; Dump.timedOut := false |};
     Dump.stderr_when_killed := err |}.

(** A dump whose executable is missing: the runner resolves after [ms]
    with a result that has no exit code. *)
Definition notStarted (ms : Z) : Dump.Attempt :=
  {| Dump.run := ok ms {| Dump.exitCode := None; Dump.stdout := "";
                          Dump.res_stderr := ""; Dump.timedOut := false |};
     Dump.stderr_when_killed := "" |}.

Definition connectionLostText : string :=
  "pg_dump: error: connection to server was lost".

Definition connectionRefused : JsError :=
  {| name := "Error"; message := "connect ECONNREFUSED 127.0.0.1:5432";
     stderr := None; code := Some (CodeStr "ECONNREFUSED") |}.

Definition permissionDenied : JsError :=
  {| name := "error"; message := "permission denied for function pg_database_size";
     stderr := None; code := Some (CodeStr "42501") |}.

Definition minutes (n : Z) : Z := n * 60 * 1000.

Definition sampleEnv : Upload.Env :=
  {| Upload.CLOUDFLARE_CDN_PROJECT_NAME := "savedb";
     Upload.CLOUDFLARE_CDN_BUCKET_NAME := "bucket";
     Upload.CLOUDFLARE_CDN_ACCESS_KEY := "access";
     Upload.CLOUDFLARE_CDN_SECRET_KEY := "secret";
     Upload.CLOUDFLARE_CDN_ENDPOINT_URL := "https://r2.example";
     Upload.CLOUDFLARE_CDN_BASE_URL := "https://cdn.example";
     Upload.NODE_ENV := "production" |}.

(** A helper that joins base, path and name. *)
Definition sampleHelper : Upload.Helper :=
  {| Upload.getUploadFileOriginEndpointUrl :=
       fun st n => Upload.endpoint st ++ "/" ++ Upload.bucket st ++ "/" ++ n;
     Upload.getUploadFilePublicUrl :=
       fun st n =>
         match Upload.baseUrl st with Some b => b | None => "" end
         ++ match Upload.basePath st with Some b => b | None => "" end
         ++ "/" ++ n;
     Upload.guessMimeTypeByBuffer := fun _ => None |}.

Definition sampleStorage : Upload.ICloudStorage :=
  {| Upload.provider := "aws";
     Upload.region := "eu-west-1";
     Upload.bucket := "backups";
     Upload.accessKey := "AK";
     Upload.secretKey := "SK";
     Upload.endpoint := "https://s3.example";
     Upload.baseUrl := Some "https://files.example";
     Upload.basePath := Some "/team" |}.

Definition sampleDate : Artifact.DateTime :=
  {| Artifact.year := 2025; Artifact.month := 1; Artifact.day := 2;
     Artifact.hours := 3; Artifact.minutes := 4; Artifact.seconds := 5;
     Artifact.milliseconds := 678 |}.

(** An environment in which every step but the four given ones succeeds
    at once. *)
Definition world (connect : Call unit) (sizeq : Call Z)
  (dump : nat -> Dump.Attempt) (put : Call unit) : Pipeline.World :=
  {| Pipeline.now := sampleDate;
     Pipeline.cwd := "/app";
     Pipeline.dbNameOf := fun _ => Some "mydb";
     Pipeline.probe_import := ok 0 tt;
     Pipeline.probe_connect := connect;
     Pipeline.probe_select := ok 0 tt;
     Pipeline.probe_release := ok 0 tt;
     Pipeline.probe_end := ok 0 tt;
     Pipeline.size_import := ok 0 tt;
     Pipeline.size_query := sizeq;
     Pipeline.tables_query := ok 0 12;
     Pipeline.size_end := ok 0 tt;
     Pipeline.mkdir := ok 0 tt;
     Pipeline.which := ok 0 "/usr/bin/pg_dump";
     Pipeline.pg_dump := dump;
     Pipeline.stat_after_dump := ok 0 4096;
     Pipeline.stat_before_upload := ok 0 4096;
     Pipeline.readFile := ok 0 "PGDMP";
     Pipeline.env := sampleEnv;
     Pipeline.helper := sampleHelper;
     Pipeline.send := put;
     Pipeline.toFixed2 := fun _ => "0.00" |}.

(** Everything works: a one-minute dump of a 250 MB database. *)
Definition calm : Pipeline.World :=
  world (ok 20 tt) (ok 30 (250 * Budget.MB)) (fun _ => exits 0 "" (minutes 1))
    (ok 2000 tt).

(** The database refuses the probe's connection. *)
Definition unreachable : Pipeline.World :=
  world (fails 10 connectionRefused) (ok 30 (250 * Budget.MB))
    (fun _ => exits 0 "" (minutes 1)) (ok 2000 tt).

(** The size query is refused. *)
Definition sizeDenied : Pipeline.World :=
  world (ok 20 tt) (fails 30 permissionDenied)
    (fun _ => exits 0 "" (minutes 1)) (ok 2000 tt).

(** The connection is lost after 8, 8 and 1 minutes of dumping. *)
Definition flaky : Pipeline.World :=
  world (ok 20 tt) (fails 30 permissionDenied)
    (fun attempt =>
       match attempt with
       | O | S O => exits 1 connectionLostText (minutes 8)
       | _ => exits 1 connectionLostText (minutes 1)
       end)
    (ok 2000 tt).

(** A dump of 14 minutes and an upload of 19 minutes; the size query is
    refused, so the budget is 20 minutes. *)
Definition slow : Pipeline.World :=
  world (ok 20 tt) (fails 30 permissionDenied)
    (fun _ => exits 0 "" (minutes 14)) (ok (minutes 19) tt).

(** The server answers that the database does not exist. *)
Definition noSuchDatabase : JsError :=
  {| name := "error";
     message := "database " ++ JS.dq ++ "mydb" ++ JS.dq ++ " does not exist";
     stderr := None; code := Some (CodeStr "3D000") |}.

Definition absent : Pipeline.World :=
  world (fails 10 noSuchDatabase) (ok 30 (250 * Budget.MB))
    (fun _ => exits 0 "" (minutes 1)) (ok 2000 tt).

(** A serializer in the manner of [JSON.stringify] for the payloads of
    the route.  Within a string, a double quote and a backslash are
    written with a backslash before them, the control characters BS,
    TAB, LF, FF and CR as a backslash and their letter, and the other
    control characters as [\u00XX]. *)
Definition hexDigit (n : nat) : ascii :=
  if (n <? 10)%nat then ascii_of_nat (48 + n) else ascii_of_nat (87 + n).

Definition escapeChar (c : ascii) : string :=
  let n := nat_of_ascii c in
  if (n =? 34)%nat then String JS.backslash JS.dq
  else if (n =? 92)%nat then String JS.backslash (String JS.backslash "")
  else if (n =? 8)%nat then String JS.backslash "b"
  else if (n =? 9)%nat then String JS.backslash "t"
  else if (n =? 10)%nat then String JS.backslash "n"
  else if (n =? 12)%nat then String JS.backslash "f"
  else if (n =? 13)%nat then String JS.backslash "r"
  else if (n <? 32)%nat
       then String JS.backslash
              ("u00" ++ String (hexDigit (n / 16)) (String (hexDigit (n mod 16)) ""))
  else String c "".

Fixpoint escape (s : string) : string :=
  match s with
  | EmptyString => EmptyString
  | String c s' => escapeChar c ++ escape s'
  end.

Definition quoted (s : string) : string := JS.dq ++ escape s ++ JS.dq.

Definition field (key value : string) : string := quoted key ++ ":" ++ value.

Definition stringify (p : Route.Payload) : string :=
  match p with
  | Route.Starting =>
      "{" ++ field "progress" "0" ++ ","
      ++ field "message" (quoted "Starting backup process") ++ "}"
  | Route.ProgressData msg percent =>
      "{" ++ field "message" (quoted msg) ++ ","
      ++ field "percent" (JS.showZ percent) ++ "}"
  | Route.CompleteData name provider url =>
      "{" ++ field "name" (quoted name) ++ ","
      ++ field "provider" (quoted provider) ++ ","
      ++ field "url" (quoted url) ++ "}"
  | Route.ErrorData msg details originalError =>
      "{" ++ field "message" (quoted msg) ++ ","
      ++ field "details" (quoted details) ++ ","
      ++ field "originalError" (quoted originalError) ++ "}"
  | Route.SuccessBody name provider url =>
      "{" ++ field "success" "true" ++ ","
      ++ field "data"
           ("{" ++ field "name" (quoted name) ++ ","
            ++ field "provider" (quoted provider) ++ ","
            ++ field "url" (quoted url) ++ "}")
      ++ "}"
  | Route.TimeoutBody msg details originalError =>
      "{" ++ field "success" "false" ++ ","
      ++ field "error"
           ("{" ++ field "message" (quoted msg) ++ ","
            ++ field "details" (quoted details) ++ ","
            ++ field "originalError" (quoted originalError) ++ "}")
      ++ "}"
  end.

(** The dump utility exits with code 2 at every attempt. *)
Definition exitsWith2 : nat -> Dump.Attempt :=
  fun _ => exits 2 "pg_dump: error: out of memory" 1000.

End Scenario.

(* ================================================================== *)
(** ** What a run shows: progress checkpoints *)
(* ================================================================== *)

Module Observe.

Import Eff.

(** The percentages handed to [onProgress], in order. *)
Fixpoint percents (t : list Action) : list Z :=
  match t with
  | [] => []
  | Progress percent _ :: t' => percent :: percents t'
  | _ :: t' => percents t'
  end.

(** The percentages written in [backupAndUploadDatabase], in program
    order. *)
Definition checkpoints : list Z := [2; 5; 10; 50; 60; 70; 100].

(** An action that puts no object. *)
Definition putsNothing (a : Action) : Prop :=
  match a with
  | PutObject _ _ _ _ => False
  | _ => True
  end.

(** An action that, if it starts a dump process, tells it to write the
    dump of [connectionUrl] to the file [path] (the argument that
    follows [-f]), and that, if it inspects a file, inspects [path]. *)
Definition writesTo (connectionUrl path : string) (a : Action) : Prop :=
  match a with
  | Spawn _ argv =>
      exists pgDumpPath,
        argv = [pgDumpPath; connectionUrl; "-v"; "-Fc"; "-f"; path]
  | Stat p => p = path
  | _ => True
  end.

(** The payload of the terminal event of a streaming response. *)
Definition outcomePayload (backupName : string)
  (r : JsError + Pipeline.BackupResult) : Route.Payload :=
  match r with
  | inr done =>
      Route.CompleteData backupName (Pipeline.provider done) (Pipeline.url done)
  | inl error => Route.payload (Route.errorEvent error)
  end.

(** The payloads a streaming response serializes, in the order of the
    writes: the opening one, those of the progress events of the run,
    and the one of the terminal event. *)
Definition serialized (generateBackupName : string -> string)
  (w : Pipeline.World) (backupData : Route.BackupData) : list Route.Payload :=
  let run := Route.runBackup generateBackupName w backupData in
  (Route.Starting
   :: map Route.payload (Route.progressEvents (trace run))
   ++ [outcomePayload (Route.backupName generateBackupName backupData)
         (result run)])%list.

(** A write that announces a terminal event on the progress channel:
    the line [event: complete] or the line [event: error]. *)
Definition announcesOutcome (r : Route.Response) : bool :=
  match r with
  | Route.Write chunk =>
      String.eqb chunk ("event: complete" ++ JS.nl)
      || String.eqb chunk ("event: error" ++ JS.nl)
  | _ => false
  end.

(** Two instants that differ at most in their milliseconds. *)
Definition sameSecond (d d' : Artifact.DateTime) : Prop :=
  Artifact.year d = Artifact.year d'
  /\ Artifact.month d = Artifact.month d'
  /\ Artifact.day d = Artifact.day d'
  /\ Artifact.hours d = Artifact.hours d'
  /\ Artifact.minutes d = Artifact.minutes d'
  /\ Artifact.seconds d = Artifact.seconds d'.

(** A name made of the characters an object key keeps and of path
    separators. *)
Fixpoint keySafe (s : string) : bool :=
  match s with
  | EmptyString => true
  | String c s' =>
      (Upload.isKeyChar c || Artifact.isPathSeparator c) && keySafe s'
  end.

(** A text made of the characters an object key keeps. *)
Fixpoint allKeyChars (s : string) : bool :=
  match s with
  | EmptyString => true
  | String c s' => Upload.isKeyChar c && allKeyChars s'
  end.

(** A date whose fields fit the widths of the stamp. *)
Definition fitsStamp (d : Artifact.DateTime) : Prop :=
  (Artifact.year d < 10 ^ 4 /\ Artifact.month d < 10 ^ 2
   /\ Artifact.day d < 10 ^ 2 /\ Artifact.hours d < 10 ^ 2
   /\ Artifact.minutes d < 10 ^ 2 /\ Artifact.seconds d < 10 ^ 2)%nat.

End Observe.

(* ================================================================== *)
(** ** What a run of the streaming client shows *)
(* ================================================================== *)

Module ClientObs.

Import JS Client.

(** The frame separator of the client without its last character. *)
Definition partialSeparator : string := lineSeparator ++ String backslash "".

Section Calls.

Variable json : Type.

Definition isComplete (c : Callback json) : bool :=
  match c with
  | OnComplete _ _ => true
  | _ => false
  end.

(** No completion callback among [cs]. *)
Definition noComplete (cs : list (Callback json)) : bool :=
  forallb (fun c => negb (isComplete c)) cs.

(** A completion callback is the last one, and comes with the promise
    resolved to its value; otherwise there is none. *)
Definition settled_well (st : State json) : Prop :=
  match promise json st with
  | Resolved r =>
      exists pre, calls json st = (pre ++ [OnComplete json r])%list
                  /\ noComplete pre = true
  | _ => noComplete (calls json st) = true
  end.

End Calls.

End ClientObs.

(* ================================================================== *)
(** ** The error handler of the server and the fallback client *)
(* ================================================================== *)

Module Server.

Import JS Eff.

(** One entry of [error.errors] of a validation error. *)
Record ZodIssue : Type := { path : list string; issue_message : string }.

(** What reaches the error handler through [next(error)]: a validation
    error of the request body ([error instanceof z.ZodError]) or any
    other error. *)
Inductive Thrown : Type :=
| Validation (issues : list ZodIssue)
| Failure (error : JsError).

(** The JSON bodies of the replies: a payload of the route, or the
    object [{error: text}] of the error handler. *)
Inductive Body : Type :=
| Sent (p : Route.Payload)
| ErrorText (error : string).

Record Reply : Type := { status : Z; body : Body }.

(** [`${e.path.join(".")}: ${e.message}`] *)
Definition issueText (e : ZodIssue) : string :=
  String.concat "." (path e) ++ ": " ++ issue_message e.

(** The last middleware of the application. *)
Definition errorHandler (error : Thrown) : Reply :=
  match error with
  | Validation issues =>
      {| status := 400;
         body := ErrorText ("Validation error: "
                            ++ String.concat ", " (map issueText issues)) |}
  | Failure e =>
      {| status := 500;
         body := ErrorText ("Internal server error: " ++ message e) |}
  end.

(** The reply a step of the non-streaming branch amounts to; the errors
    of the backup are not validation errors. *)
Definition reply (r : Route.Response) : option Reply :=
  match r with
  | Route.Json s p => Some {| status := s; body := Sent p |}
  | Route.Next e => Some (errorHandler (Failure e))
  | _ => None
  end.

(** The text a streaming response puts on the wire. *)
Fixpoint written (rs : list Route.Response) : string :=
  match rs with
  | [] => EmptyString
  | Route.Write chunk :: rs' => chunk ++ written rs'
  | _ :: rs' => written rs'
  end.

End Server.

Module StandardClient.

Import JS Eff.

(** The response of [fetch] as the client reads it; [json] is what
    [response.json()] settles with. *)
Record HttpResponse : Type :=
  { ok : bool;
    status : Z;
    statusText : string;
    json : JsError + Server.Body }.

(** [data.success], [data.data] and [data.message] of a parsed body. *)
Definition successOf (data : Server.Body) : bool :=
  match data with
  | Server.Sent (Route.SuccessBody _ _ _) => true
  | _ => false
  end.

Definition dataOf (data : Server.Body) : option Route.Payload :=
  match data with
  | Server.Sent (Route.SuccessBody name provider url) =>
      Some (Route.CompleteData name provider url)
  | _ => None
  end.

Definition messageOf (data : Server.Body) : option string :=
  match data with
  | Server.Sent (Route.Starting) => Some "Starting backup process"
  | Server.Sent (Route.ProgressData msg _) => Some msg
  | Server.Sent (Route.ErrorData msg _ _) => Some msg
  | _ => None
  end.

(** The one callback invoked, and how the promise settles with it:
    [onComplete(data.data)] and [resolve], or [onError({message})] and
    [reject]. *)
Inductive Outcome : Type :=
| Completed (data : option Route.Payload)
| Failed (message : string).

(** [_startStandardBackup], for a request whose timer does not fire. *)
Definition _startStandardBackup (fetched : JsError + HttpResponse) : Outcome :=
  match fetched with
  | inl error => Failed (message error)
  | inr response =>
      if negb (ok response) then
        Failed ("Server error: " ++ showZ (status response) ++ " "
                ++ statusText response)
      else
        match json response with
        | inl error => Failed (message error)
        | inr data =>
            if successOf data then Completed (dataOf data)
            else
              Failed (match messageOf data with
                      | Some m => if truthy m then m else "Backup failed"
                      | None => "Backup failed"
                      end)
        end
  end.

(** A reply of the server as [fetch] delivers it: [ok] for the statuses
    200 to 299, with the reason phrase of the status. *)
Definition delivered (reason : Z -> string) (r : Server.Reply) : HttpResponse :=
  {| ok := (200 <=? Server.status r) && (Server.status r <=? 299);
     status := Server.status r;
     statusText := reason (Server.status r);
     json := inr (Server.body r) |}.

End StandardClient.

(* ================================================================== *)
(** ** The managed-drive upload  (uploadFileToDrive, addOwnersToFile) *)
(* ================================================================== *)

Module Drive.

Import JS.

Record ServiceAccount : Type := { client_email : string; private_key : string }.

(** The requests sent to the drive service, in order. *)
Inductive Request : Type :=
| Authorize (email key : string)
| FilesCreate (name : string) (parents : option (list string)) (mimeType : string)
| PermissionsCreate (fileId type role : string) (emailAddress : option string)
    (transferOwnership : bool).

(** How the service and the environment answer. *)
Record World : Type :=
  { (** [JSON.parse(env.GOOGLE_SERVICE_ACCOUNT_CREDENTIALS)] *)
    envCredentials : Eff.JsError + ServiceAccount;
    (** [auth.authorize()] *)
    authorize : ServiceAccount -> Eff.JsError + unit;
    (** [drive.files.create]: [response.data.id] and
        [response.data.webViewLink] *)
    filesCreate : Eff.JsError + (option string * option string);
    (** [drive.permissions.create], by the address it names *)
    permissionsCreate : option string -> Eff.JsError + unit }.

Definition M (A : Type) : Type := (list Request * (Eff.JsError + A))%type.

Definition ret {A} (a : A) : M A := ([], inr a).
Definition throw {A} (e : Eff.JsError) : M A := ([], inl e).

Definition bind {A B} (m : M A) (k : A -> M B) : M B :=
  match snd m with
  | inl e => (fst m, inl e)
  | inr a => ((fst m ++ fst (k a))%list, snd (k a))
  end.

Definition request {A} (r : Request) (answer : Eff.JsError + A) : M A :=
  ([r], answer).

Definition lift {A} (v : Eff.JsError + A) : M A := ([], v).

Record Options : Type :=
  { mimeType : option string;
    folderId : option string;
    isPublic : option bool;
    sharedEmails : option (list string);
    serviceAccount : option ServiceAccount }.

Record Uploaded : Type := { id : string; webViewLink : string }.

Section WithWorld.

Variable w : World.

(** [initializeDrive]: the given account, or else the one of the
    environment, is authorized. *)
Definition initializeDrive (account : option ServiceAccount) : M unit :=
  bind (match account with
        | Some a => ret a
        | None => lift (envCredentials w)
        end)
    (fun keyFile =>
       request (Authorize (client_email keyFile) (private_key keyFile))
         (authorize w keyFile)).

(** The loop of [addOwnersToFile]; the results are not used by the
    upload. *)
Fixpoint grantOwners (fileId : string) (emails : list string) : M unit :=
  match emails with
  | [] => ret tt
  | email :: rest =>
      bind (request (PermissionsCreate fileId "user" "owner" (Some email) true)
              (permissionsCreate w (Some email)))
        (fun _ => grantOwners fileId rest)
  end.

Definition addOwnersToFile (fileId : string) (emails : list string) : M unit :=
  bind (initializeDrive None) (fun _ => grantOwners fileId emails).

Definition truthyOpt (s : option string) : option string :=
  match s with
  | Some v => if truthy v then Some v else None
  | None => None
  end.

Definition uploadFileToDrive (fileName : string) (options : option Options)
  : M Uploaded :=
  bind (initializeDrive (match options with
                         | Some o => serviceAccount o
                         | None => None
                         end))
    (fun _ =>
       let mime :=
         match options with
         | Some {| mimeType := Some m |} => m
         | _ => "application/octet-stream"
         end in
       let parents :=
         match options with
         | Some o => option_map (fun p => [p]) (truthyOpt (folderId o))
         | None => None
         end in
       let public :=
         match options with
         | Some {| isPublic := Some b |} => b
         | _ => true
         end in
       let emails :=
         match options with
         | Some {| sharedEmails := Some l |} => l
         | _ => []
         end in
       bind (request (FilesCreate fileName parents mime) (filesCreate w))
         (fun data =>
            match truthyOpt (fst data), truthyOpt (snd data) with
            | Some fileId, Some link =>
                bind (if public
                      then request (PermissionsCreate fileId "anyone" "reader"
                                      None false)
                             (permissionsCreate w None)
                      else ret tt)
                  (fun _ =>
                     bind (match emails with
                           | [] => ret tt
                           | _ => addOwnersToFile fileId emails
                           end)
                       (fun _ => ret {| id := fileId; webViewLink := link |}))
            | _, _ => throw (Eff.newError "Google Drive upload failed")
            end)).

End WithWorld.

(** The permissions a run has asked for, and the files it has created. *)
Fixpoint permissions (t : list Request) : list Request :=
  match t with
  | [] => []
  | PermissionsCreate f ty r e o :: t' =>
      PermissionsCreate f ty r e o :: permissions t'
  | _ :: t' => permissions t'
  end.

Fixpoint created (t : list Request) : list string :=
  match t with
  | [] => []
  | FilesCreate name _ _ :: t' => name :: created t'
  | _ :: t' => created t'
  end.

Definition owner (fileId email : string) : Request :=
  PermissionsCreate fileId "user" "owner" (Some email) true.

Definition anyoneReads (fileId : string) : Request :=
  PermissionsCreate fileId "anyone" "reader" None false.

End Drive.

Module DriveObs.

Import Drive.

(** The options in effect: the defaults of the destructuring. *)
Definition effectivePublic (options : option Options) : bool :=
  match options with
  | Some {| isPublic := Some b |} => b
  | _ => true
  end.

Definition effectiveEmails (options : option Options) : list string :=
  match options with
  | Some {| sharedEmails := Some l |} => l
  | _ => []
  end.

Definition givenAccount (options : option Options) : option ServiceAccount :=
  match options with
  | Some o => serviceAccount o
  | None => None
  end.

End DriveObs.

Module DriveScenario.

Import Drive.

Definition robot : ServiceAccount :=
  {| client_email := "robot@project.example"; private_key := "KEY" |}.

Definition tenant : ServiceAccount :=
  {| client_email := "tenant@customer.example"; private_key := "TENANT-KEY" |}.

(** A service that accepts everything. *)
Definition obliging : World :=
  {| envCredentials := inr robot;
     authorize := fun _ => inr tt;
     filesCreate := inr (Some "file-1", Some "https://drive.example/file-1");
     permissionsCreate := fun _ => inr tt |}.

Definition shareWithTwo : Options :=
  {| mimeType := None; folderId := None; isPublic := None;
     sharedEmails := Some ["a@example.org"; "b@example.org"];
     serviceAccount := Some tenant |}.

End DriveScenario.

(* ================================================================== *)
(** * Properties *)
(* ================================================================== *)

(** ** Budget *)

Lemma Qfloor_sizeInMB (s : Z) :
  Qfloor (Budget.sizeInMB s / inject_Z 100)%Q = s / (1024 * 1024 * 100).
Proof.
  unfold Budget.sizeInMB.
  rewrite (Zdiv_Qdiv s (1024 * 1024 * 100)).
  apply Qfloor_comp.
  rewrite (inject_Z_mult (1024 * 1024) 100).
  field. discriminate.
Qed.

Lemma estimatedMinutes_div (s : Z) :
  Budget.estimatedMinutes s = Z.min 45 (Z.max 20 (20 + s / 104857600)).
Proof.
  unfold Budget.estimatedMinutes. now rewrite Qfloor_sizeInMB.
Qed.

Lemma clamp_min_max (x : Z) : Budget.clamp x 20 45 = Z.min 45 (Z.max 20 x).
Proof.
  unfold Budget.clamp.
  destruct (Z.ltb_spec x 20); [lia|].
  destruct (Z.ltb_spec 45 x); lia.
Qed.

(** C1.  For every [sizeBytes >= 0] the budget is
    [clamp(20 + floor(sizeMB / 100), 20, 45)] minutes, lies in [20, 45],
    is monotonic non-decreasing in [sizeBytes], and takes the values 20,
    22 and 45 at 0, 250 MB and 3000 MB. *)
Theorem C1_budget (sizeBytes : Z) (Hsize : 0 <= sizeBytes) :
  Budget.estimatedMinutes sizeBytes = Budget.budget_spec sizeBytes
  /\ 20 <= Budget.estimatedMinutes sizeBytes <= 45
  /\ (forall bigger, sizeBytes <= bigger ->
        Budget.estimatedMinutes sizeBytes <= Budget.estimatedMinutes bigger)
  /\ Budget.estimatedMinutes 0 = 20
  /\ Budget.estimatedMinutes (250 * Budget.MB) = 22
  /\ Budget.estimatedMinutes (3000 * Budget.MB) = 45.
Proof.
  repeat split.
  - unfold Budget.budget_spec. now rewrite clamp_min_max.
  - rewrite estimatedMinutes_div. lia.
  - rewrite estimatedMinutes_div. lia.
  - intros bigger Hle. rewrite !estimatedMinutes_div.
    assert (sizeBytes / 104857600 <= bigger / 104857600)
      by (apply Z.div_le_mono; lia).
    lia.
Qed.

Lemma C1_budget_witness :
  Budget.estimatedMinutes (1234 * Budget.MB) = Budget.budget_spec (1234 * Budget.MB)
  /\ Budget.estimatedMinutes (1234 * Budget.MB) = 32.
Proof.
  split.
  - apply (C1_budget (1234 * Budget.MB)). vm_compute. discriminate.
  - reflexivity.
Defined.

(** ** Strings *)

Lemma append_empty_r (s : string) : s ++ "" = s.
Proof. induction s as [|c s IH]; simpl; [reflexivity | now rewrite IH]. Qed.

Lemma append_assoc (a b c : string) : (a ++ b) ++ c = a ++ (b ++ c).
Proof. induction a as [|x a IH]; simpl; [reflexivity | now rewrite IH]. Qed.

Lemma append_cancel_l (a b c : string) : a ++ b = a ++ c -> b = c.
Proof. induction a as [|x a IH]; cbn; [easy|]. intros [= H]. now apply IH. Qed.

Lemma mentions_append (c : ascii) (a b : string) :
  JS.mentions c (a ++ b) = JS.mentions c a || JS.mentions c b.
Proof.
  induction a as [|x a IH]; simpl; [reflexivity|].
  rewrite IH. now rewrite orb_assoc.
Qed.

(** A text without the first character of the separator is one piece. *)
Lemma split_from_absent (c : ascii) (sep' : string) (s cur : string) :
  JS.mentions c s = false ->
  JS.split_from (String c sep') 0 cur s = [cur ++ s].
Proof.
  revert cur. induction s as [|b s IH]; intros cur Hs.
  - simpl. now rewrite append_empty_r.
  - simpl in Hs. apply orb_false_elim in Hs as [Hb Hs].
    cbn [JS.split_from JS.startsWith].
    rewrite Ascii.eqb_sym, Hb. cbn [andb].
    rewrite (IH _ Hs). now rewrite append_assoc.
Qed.

(** ** Streaming client *)

Section ClientFacts.

Variable json : Type.
Variable JSON_parse : string -> option json.
Variable message_of : json -> option string.

Let readChunk := Client.readChunk json JSON_parse message_of.
Let streamEnd := Client.streamEnd json JSON_parse.

(** As long as no backslash arrives, every chunk is only appended to
    the buffer: no frame is cut and nothing is dispatched. *)
Lemma readChunk_without_backslash (chunks : list string) :
  forall st,
    JS.mentions JS.backslash (Client.buffer json st ++ String.concat "" chunks)
      = false ->
    readChunk chunks st
    = streamEnd
        {| Client.buffer := Client.buffer json st ++ String.concat "" chunks;
           Client.calls := Client.calls json st;
           Client.promise := Client.promise json st |}.
Proof.
  unfold readChunk, streamEnd.
  induction chunks as [|value rest IH]; intros [b cs p] H.
  - cbn [String.concat]. cbn [Client.readChunk Client.buffer Client.calls
                                Client.promise].
    now rewrite append_empty_r.
  - cbn [Client.buffer Client.calls Client.promise] in *.
    assert (Hcat : String.concat "" (value :: rest)
                   = value ++ String.concat "" rest).
    { destruct rest; cbn [String.concat]; [now rewrite append_empty_r|].
      reflexivity. }
    rewrite Hcat in *. rewrite <- append_assoc in H.
    pose proof H as H'. rewrite mentions_append in H'.
    apply orb_false_elim in H' as [Hbv _].
    cbn [Client.readChunk Client.buffer Client.calls Client.promise].
    unfold JS.split, Client.frameSeparator, Client.lineSeparator.
    cbn [append].
    rewrite (split_from_absent JS.backslash _ (b ++ value) "" Hbv).
    cbn [append Client.pop removelast last Client.dispatch].
    rewrite IH; cbn [Client.buffer Client.calls Client.promise].
    + now rewrite append_assoc.
    + exact H.
Qed.

End ClientFacts.

(** C2 (evaluation of the client on the claim's input).  However the
    frame [event: progress], LF, [data: {"percent":10}], LF, LF is cut
    into chunks, the read loop finds no frame separator in it, keeps the
    whole text in its buffer, and ends with no callback invoked and the
    promise still pending. *)
Theorem C2_client_dispatches_nothing
  (json : Type) (JSON_parse : string -> option json)
  (message_of : json -> option string) (chunks : list string)
  (Hchunks : String.concat "" chunks = Client.progress10_frame) :
  Client.client_run json JSON_parse message_of chunks
  = {| Client.buffer := Client.progress10_frame;
       Client.calls := [];
       Client.promise := Client.Pending |}.
Proof.
  unfold Client.client_run.
  rewrite readChunk_without_backslash;
    cbn [Client.initial Client.buffer Client.calls Client.promise append];
    rewrite Hchunks; reflexivity.
Qed.

Lemma C2_client_dispatches_nothing_witness :
  Client.calls string
    (Client.client_run string Some Some
       (Client.bytewise Client.progress10_frame)) = []
  /\ ~ Client.one_progress_dispatched string Some
         (Client.client_run string Some Some
            (Client.bytewise Client.progress10_frame)).
Proof.
  pose proof (C2_client_dispatches_nothing string Some Some
                (Client.bytewise Client.progress10_frame) eq_refl) as E.
  rewrite E. split; [reflexivity|].
  intros [p [_ Hp]]. discriminate Hp.
Defined.

(** ** Effects *)

Lemma trace_bind {A B} (m : Eff.M A) (k : A -> Eff.M B) :
  Eff.trace (Eff.bind m k)
  = match Eff.result m with
    | inl _ => Eff.trace m
    | inr a => (Eff.trace m ++ Eff.trace (k a))%list
    end.
Proof. unfold Eff.bind. now destruct (Eff.result m). Qed.

Lemma result_bind {A B} (m : Eff.M A) (k : A -> Eff.M B) :
  Eff.result (Eff.bind m k)
  = match Eff.result m with
    | inl e => inl e
    | inr a => Eff.result (k a)
    end.
Proof. unfold Eff.bind. now destruct (Eff.result m). Qed.

Lemma elapsed_bind {A B} (m : Eff.M A) (k : A -> Eff.M B) :
  Eff.elapsed (Eff.bind m k)
  = match Eff.result m with
    | inl _ => Eff.elapsed m
    | inr a => Eff.elapsed m + Eff.elapsed (k a)
    end.
Proof. unfold Eff.bind. now destruct (Eff.result m). Qed.

Lemma trace_catch {A} (m : Eff.M A) (h : Eff.JsError -> Eff.M A) :
  Eff.trace (Eff.catch m h)
  = match Eff.result m with
    | inl e => (Eff.trace m ++ Eff.trace (h e))%list
    | inr _ => Eff.trace m
    end.
Proof. unfold Eff.catch. now destruct (Eff.result m). Qed.

Lemma result_catch {A} (m : Eff.M A) (h : Eff.JsError -> Eff.M A) :
  Eff.result (Eff.catch m h)
  = match Eff.result m with
    | inl e => Eff.result (h e)
    | inr a => inr a
    end.
Proof.
  unfold Eff.catch. destruct (Eff.result m) eqn:E; [reflexivity | exact E].
Qed.

Lemma elapsed_catch {A} (m : Eff.M A) (h : Eff.JsError -> Eff.M A) :
  Eff.elapsed (Eff.catch m h)
  = match Eff.result m with
    | inl e => Eff.elapsed m + Eff.elapsed (h e)
    | inr _ => Eff.elapsed m
    end.
Proof. unfold Eff.catch. now destruct (Eff.result m). Qed.

Lemma spawns_app (t u : list Eff.Action) :
  Dump.spawns (t ++ u) = (Dump.spawns t + Dump.spawns u)%nat.
Proof. unfold Dump.spawns. now rewrite filter_app, length_app. Qed.

(** ** The dump executor *)

Section ExecutorFacts.

Variable pgDumpPath connectionUrl outputPath : string.
Variable timeout : Z.
Variable maxRetries : nat.
Variable retryDelayMs : Z.
Variable pg_dump : nat -> Dump.Attempt.

Let tryAttempt :=
  Dump.tryAttempt pgDumpPath connectionUrl outputPath timeout retryDelayMs pg_dump.
Let attempts :=
  Dump.attempts pgDumpPath connectionUrl outputPath timeout maxRetries
    retryDelayMs pg_dump.
Let catchAttempt := Dump.catchAttempt pgDumpPath maxRetries.
Let argv := Dump.argv pgDumpPath connectionUrl outputPath.

Lemma trace_spawn (a : Dump.Attempt) :
  Eff.trace (Dump.spawn timeout argv a) = [Eff.Spawn timeout argv].
Proof. unfold Dump.spawn. now destruct (timeout <=? _). Qed.

(** An attempt starts one process, after one pause when it is a retry. *)
Lemma trace_tryAttempt (attempt : nat) :
  Eff.trace (tryAttempt attempt)
  = ((if (0 <? attempt)%nat then [Eff.SetTimeout retryDelayMs] else [])
     ++ [Eff.Spawn timeout argv])%list.
Proof.
  unfold tryAttempt, Dump.tryAttempt.
  rewrite trace_bind.
  assert (Hpre : Eff.result (if (0 <? attempt)%nat
                             then Eff.delay retryDelayMs else Eff.ret tt)
                 = inr tt) by now destruct (0 <? attempt)%nat.
  rewrite Hpre. rewrite trace_bind. fold argv. rewrite trace_spawn.
  assert (Htr : Eff.trace (if (0 <? attempt)%nat
                           then Eff.delay retryDelayMs else Eff.ret tt)
                = if (0 <? attempt)%nat then [Eff.SetTimeout retryDelayMs] else [])
    by now destruct (0 <? attempt)%nat.
  rewrite Htr. f_equal.
  destruct (Eff.result (Dump.spawn timeout argv (pg_dump attempt)))
    as [e|r]; [reflexivity|].
  destruct (Dump.exitCode r) as [[| |]|]; reflexivity.
Qed.

Lemma trace_attempts_step (remaining attempt : nat) (last : option Eff.JsError) :
  Eff.trace (attempts (S remaining) attempt last)
  = (Eff.trace (tryAttempt attempt)
     ++ match Eff.result (tryAttempt attempt) with
        | inl error =>
            match catchAttempt attempt error with
            | Dump.Rethrow _ => []
            | Dump.NextAttempt =>
                Eff.trace (attempts remaining (S attempt) (Some error))
            end
        | inr _ => []
        end)%list.
Proof.
  unfold attempts. cbn [Dump.attempts]. rewrite trace_catch.
  fold tryAttempt. destruct (Eff.result (tryAttempt attempt)) as [e|r].
  - fold catchAttempt. destruct (catchAttempt attempt e); reflexivity.
  - now rewrite app_nil_r.
Qed.

Lemma spawns_attempts_le (remaining : nat) :
  forall attempt last,
    (Dump.spawns (Eff.trace (attempts remaining attempt last)) <= remaining)%nat.
Proof.
  induction remaining as [|remaining IH]; intros attempt last.
  - cbn. lia.
  - rewrite trace_attempts_step, spawns_app, trace_tryAttempt, spawns_app.
    assert (Hpre : Dump.spawns (if (0 <? attempt)%nat
                                then [Eff.SetTimeout retryDelayMs] else []) = 0%nat)
      by now destruct (0 <? attempt)%nat.
    rewrite Hpre. cbn [Dump.spawns filter Eff.isSpawn List.length Nat.add].
    destruct (Eff.result (tryAttempt attempt)) as [e|r]; [|cbn; lia].
    destruct (catchAttempt attempt e); [cbn; lia|].
    specialize (IH (S attempt) (Some e)). unfold Dump.spawns in *. lia.
Qed.


Lemma trace_retries (remaining : nat) :
  forall attempt last,
    (0 < attempt)%nat ->
    Eff.trace (attempts remaining attempt last)
    = Dump.retries retryDelayMs timeout argv
        (Dump.spawns (Eff.trace (attempts remaining attempt last))).
Proof.
  induction remaining as [|remaining IH]; intros attempt last Hpos.
  - reflexivity.
  - rewrite trace_attempts_step, trace_tryAttempt.
    apply Nat.ltb_lt in Hpos as Hb. rewrite Hb.
    rewrite !spawns_app.
    cbn [Dump.spawns filter Eff.isSpawn List.length app Nat.add Dump.retries].
    do 2 f_equal.
    destruct (Eff.result (tryAttempt attempt)) as [e|r]; [|reflexivity].
    destruct (catchAttempt attempt e); [reflexivity|].
    apply IH. lia.
Qed.

(** A run is the start of a process followed by retries. *)
Lemma trace_executePgDump :
  let run := attempts (S maxRetries) 0%nat None in
  Eff.trace run
  = Eff.Spawn timeout argv
    :: Dump.retries retryDelayMs timeout argv (Dump.spawns (Eff.trace run) - 1).
Proof.
  cbv zeta. rewrite trace_attempts_step, trace_tryAttempt.
  rewrite !spawns_app.
  cbn [Nat.ltb Nat.leb Dump.spawns filter Eff.isSpawn List.length app Nat.add].
  rewrite Nat.sub_succ, Nat.sub_0_r. f_equal.
  destruct (Eff.result (tryAttempt 0%nat)) as [e|r]; [|reflexivity].
  destruct (catchAttempt 0%nat e); [reflexivity|].
  apply trace_retries. lia.
Qed.

Let retried := Dump.retried pgDumpPath maxRetries.

Lemma retried_plain (msg : string) : retried (Eff.newError msg).
Proof.
  intros attempt. unfold Dump.catchAttempt.
  destruct (Dump.isTimeout (Eff.newError msg)); reflexivity.
Qed.

Lemma includes_truthy (needle s : string) :
  JS.truthy needle = true -> JS.includes needle s = true -> JS.truthy s = true.
Proof.
  destruct needle; [discriminate|]. destruct s; [discriminate | reflexivity].
Qed.

Lemma retried_connection (error : Eff.JsError) (s : string) :
  Eff.stderr error = Some s ->
  JS.includes "connection to server was lost" s = true ->
  retried error.
Proof.
  intros Hs Hin attempt. unfold Dump.catchAttempt.
  destruct (Dump.isTimeout error); [reflexivity|].
  unfold Dump.isConnectionError. rewrite Hs, Hin.
  rewrite (includes_truthy "connection to server was lost" s eq_refl Hin).
  reflexivity.
Qed.

(** When every attempt fails with an error that is let through, all the
    attempts are made. *)
Lemma spawns_all_retried (remaining : nat) :
  forall attempt last,
    (attempt + remaining = S maxRetries)%nat ->
    (forall k, exists e, Eff.result (tryAttempt k) = inl e /\ retried e) ->
    Dump.spawns (Eff.trace (attempts remaining attempt last)) = remaining
    /\ (remaining <> 0%nat ->
        exists e, Eff.result (attempts remaining attempt last) = inl e).
Proof.
  induction remaining as [|remaining IH]; intros attempt last Hsum Hall.
  - split; [reflexivity | congruence].
  - destruct (Hall attempt) as [e [He Hre]].
    pose proof (Hre attempt) as Hc. fold catchAttempt in Hc.
    rewrite trace_attempts_step, trace_tryAttempt, !spawns_app, He, Hc.
    assert (Hpre : Dump.spawns (if (0 <? attempt)%nat
                                then [Eff.SetTimeout retryDelayMs] else []) = 0%nat)
      by now destruct (0 <? attempt)%nat.
    rewrite Hpre. cbn [Dump.spawns filter Eff.isSpawn List.length Nat.add].
    unfold attempts at 2. cbn [Dump.attempts]. rewrite result_catch.
    fold tryAttempt. rewrite He. fold catchAttempt. rewrite Hc.
    destruct (Nat.eqb_spec attempt maxRetries) as [Heq|Hne].
    + assert (remaining = 0%nat) by lia. subst remaining.
      split; [reflexivity|]. intros _. now exists e.
    + destruct (IH (S attempt) (Some e)) as [Hn Hex]; [lia | exact Hall |].
      fold attempts. split.
      * unfold Dump.spawns in *. cbn [List.length]. lia.
      * intros _. apply Hex. lia.
Qed.


Lemma result_spawn_in_time (a : Dump.Attempt) :
  (Eff.took (Dump.run a) <? timeout) = true ->
  Eff.result (Dump.spawn timeout argv a) = Eff.outcome (Dump.run a).
Proof.
  intros H. unfold Dump.spawn.
  destruct (Z.leb_spec timeout (Eff.took (Dump.run a))); [|reflexivity].
  apply Z.ltb_lt in H. lia.
Qed.

Lemma result_tryAttempt (attempt : nat) :
  Eff.result (tryAttempt attempt)
  = match Eff.result (Dump.spawn timeout argv (pg_dump attempt)) with
    | inl e => inl e
    | inr r =>
        match Dump.exitCode r with
        | Some 0 => inr r
        | _ => inl (Eff.newError ("pg_dump failed with exit code "
                                  ++ Dump.showExit (Dump.exitCode r) ++ ": "
                                  ++ Dump.res_stderr r))
        end
    end.
Proof.
  unfold tryAttempt, Dump.tryAttempt. rewrite result_bind.
  assert (Hpre : Eff.result (if (0 <? attempt)%nat
                             then Eff.delay retryDelayMs else Eff.ret tt)
                 = inr tt) by now destruct (0 <? attempt)%nat.
  rewrite Hpre, result_bind. fold argv.
  destruct (Eff.result (Dump.spawn timeout argv (pg_dump attempt)))
    as [e|r]; [reflexivity|].
  destruct (Dump.exitCode r) as [[| |]|]; reflexivity.
Qed.

Lemma connectionLost_retried (attempt : nat) :
  Dump.connectionLost timeout (pg_dump attempt) = true ->
  exists e, Eff.result (tryAttempt attempt) = inl e /\ retried e.
Proof.
  unfold Dump.connectionLost. intros H.
  apply andb_prop in H as [Htime H].
  rewrite result_tryAttempt, (result_spawn_in_time _ Htime).
  destruct (Eff.outcome (Dump.run (pg_dump attempt))) as [e|r].
  - exists e. split; [reflexivity|].
    destruct (Eff.stderr e) as [s|] eqn:Hs; [|discriminate].
    now apply (retried_connection e s).
  - destruct (Dump.exitCode r) as [[| |]|]; try discriminate;
      eexists; (split; [reflexivity | apply retried_plain]).
Qed.

Lemma exitsWith_retried (c : Z) (attempt : nat) :
  c <> 0 ->
  Dump.exitsWith timeout c (pg_dump attempt) = true ->
  exists e, Eff.result (tryAttempt attempt) = inl e /\ retried e.
Proof.
  unfold Dump.exitsWith. intros Hc H.
  apply andb_prop in H as [Htime H].
  rewrite result_tryAttempt, (result_spawn_in_time _ Htime).
  destruct (Eff.outcome (Dump.run (pg_dump attempt))) as [e|r]; [discriminate|].
  destruct (Dump.exitCode r) as [c'|]; [|discriminate].
  apply Z.eqb_eq in H. subst c'.
  destruct c; [congruence| |];
    eexists; (split; [reflexivity | apply retried_plain]).
Qed.

Lemma executableMissing_retried (attempt : nat) :
  Dump.executableMissing timeout (pg_dump attempt) = true ->
  exists r,
    Eff.outcome (Dump.run (pg_dump attempt)) = inr r
    /\ Eff.result (tryAttempt attempt)
       = inl (Eff.newError ("pg_dump failed with exit code undefined: "
                            ++ Dump.res_stderr r))
    /\ retried (Eff.newError ("pg_dump failed with exit code undefined: "
                              ++ Dump.res_stderr r)).
Proof.
  unfold Dump.executableMissing. intros H.
  apply andb_prop in H as [Htime H].
  rewrite result_tryAttempt, (result_spawn_in_time _ Htime).
  destruct (Eff.outcome (Dump.run (pg_dump attempt))) as [e|r]; [discriminate|].
  exists r. destruct (Dump.exitCode r) as [c|]; [discriminate|].
  split; [reflexivity | split; [reflexivity | apply retried_plain]].
Qed.

(** When every attempt fails with an error that is let through, the
    executor fails with the error of the last attempt. *)
Lemma result_all_retried (remaining : nat) :
  forall attempt last,
    (attempt + remaining = S maxRetries)%nat -> remaining <> 0%nat ->
    (forall k, exists e, Eff.result (tryAttempt k) = inl e /\ retried e) ->
    Eff.result (attempts remaining attempt last)
    = Eff.result (tryAttempt maxRetries).
Proof.
  induction remaining as [|remaining IH]; intros attempt last Hsum Hpos Hall;
    [congruence|].
  destruct (Hall attempt) as [e [He Hre]].
  pose proof (Hre attempt) as Hc. fold catchAttempt in Hc.
  unfold attempts. cbn [Dump.attempts]. rewrite result_catch.
  fold tryAttempt. rewrite He. fold catchAttempt. rewrite Hc.
  destruct (Nat.eqb_spec attempt maxRetries) as [Heq|Hne].
  - subst attempt. now rewrite He.
  - fold attempts. apply IH; [lia | lia | exact Hall].
Qed.

(** Before the last retry the [catch] clause decides by the error alone. *)
Lemma catchAttempt_same (a b : nat) (error : Eff.JsError) :
  (a < maxRetries)%nat -> (b < maxRetries)%nat ->
  catchAttempt a error = catchAttempt b error.
Proof.
  intros Ha Hb. unfold catchAttempt, Dump.catchAttempt.
  destruct (Nat.eqb_spec a maxRetries); [lia|].
  destruct (Nat.eqb_spec b maxRetries); [lia|].
  reflexivity.
Qed.

End ExecutorFacts.


(** C4 (evaluation of the executor).  The executor starts at most
    three dump processes, and each but the first is preceded by a pause
    of 5 seconds; when every attempt fails with the loss of the
    connection on stderr it makes all three attempts; before the last
    retry the decision of the [catch] clause is the same at every
    attempt.  When the executable is missing, the runner resolves with a
    result that has no exit code, the error raised for it carries no
    [code], and the [ENOENT] branch is not taken: the executor pauses and
    retries, starts three processes, and fails with the error of the
    last attempt, not with the error of that branch. *)
Theorem C4_retry_policy
  (pgDumpPath connectionUrl outputPath : string) (pg_dump : nat -> Dump.Attempt) :
  let run :=
    Dump.executePgDump pgDumpPath connectionUrl outputPath Dump.default_timeout
      Dump.default_maxRetries Dump.default_retryDelayMs pg_dump in
  let start :=
    Eff.Spawn (15 * 60 * 1000) (Dump.argv pgDumpPath connectionUrl outputPath) in
  (1 <= Dump.spawns (Eff.trace run) <= 3)%nat
  /\ Eff.trace run
     = start :: Dump.retries 5000 (15 * 60 * 1000)
                  (Dump.argv pgDumpPath connectionUrl outputPath)
                  (Dump.spawns (Eff.trace run) - 1)
  /\ ((forall k, Dump.connectionLost Dump.default_timeout (pg_dump k) = true) ->
      Eff.trace run
      = [start; Eff.SetTimeout 5000; start; Eff.SetTimeout 5000; start]
      /\ exists e, Eff.result run = inl e)
  /\ ((forall k, Dump.executableMissing Dump.default_timeout (pg_dump k) = true) ->
      Dump.spawns (Eff.trace run) = 3%nat
      /\ Eff.trace run
         = [start; Eff.SetTimeout 5000; start; Eff.SetTimeout 5000; start]
      /\ (exists r,
            Eff.outcome (Dump.run (pg_dump 2%nat)) = inr r
            /\ Eff.result run
               = inl (Eff.newError ("pg_dump failed with exit code undefined: "
                                    ++ Dump.res_stderr r)))
      /\ Eff.result run
         <> inl (Eff.newError ("pg_dump executable not found at " ++ pgDumpPath)))
  /\ (forall a b error,
        (a < Dump.default_maxRetries)%nat -> (b < Dump.default_maxRetries)%nat ->
        Dump.catchAttempt pgDumpPath Dump.default_maxRetries a error
        = Dump.catchAttempt pgDumpPath Dump.default_maxRetries b error).
Proof.
  intros run start.
  assert (Hshape : Eff.trace run
                   = start :: Dump.retries 5000 (15 * 60 * 1000)
                                (Dump.argv pgDumpPath connectionUrl outputPath)
                                (Dump.spawns (Eff.trace run) - 1))
    by exact (trace_executePgDump pgDumpPath connectionUrl outputPath
                Dump.default_timeout Dump.default_maxRetries
                Dump.default_retryDelayMs pg_dump).
  split; [|split; [exact Hshape | split; [|split]]].
  - split.
    + rewrite Hshape. unfold Dump.spawns. cbn. lia.
    + apply (spawns_attempts_le pgDumpPath connectionUrl outputPath
               Dump.default_timeout Dump.default_maxRetries
               Dump.default_retryDelayMs pg_dump 3 0 None).
  - intros Hlost.
    destruct (spawns_all_retried pgDumpPath connectionUrl outputPath
                Dump.default_timeout Dump.default_maxRetries
                Dump.default_retryDelayMs pg_dump 3 0 None eq_refl)
      as [Hn Hex].
    { intros k. now apply connectionLost_retried. }
    change (Dump.spawns (Eff.trace run) = 3%nat) in Hn.
    change (3%nat <> 0%nat -> exists e, Eff.result run = inl e) in Hex.
    split; [|apply Hex; discriminate].
    rewrite Hshape, Hn. reflexivity.
  - intros Hmissing.
    assert (Hall : forall k,
               exists e,
                 Eff.result (Dump.tryAttempt pgDumpPath connectionUrl outputPath
                               Dump.default_timeout Dump.default_retryDelayMs
                               pg_dump k) = inl e
                 /\ Dump.retried pgDumpPath Dump.default_maxRetries e).
    { intros k.
      destruct (executableMissing_retried pgDumpPath connectionUrl outputPath
                  Dump.default_timeout Dump.default_maxRetries
                  Dump.default_retryDelayMs pg_dump k (Hmissing k))
        as (r & _ & Hres & Hre).
      eexists. split; [exact Hres | exact Hre]. }
    destruct (spawns_all_retried pgDumpPath connectionUrl outputPath
                Dump.default_timeout Dump.default_maxRetries
                Dump.default_retryDelayMs pg_dump 3 0 None eq_refl Hall)
      as [Hn _].
    change (Dump.spawns (Eff.trace run) = 3%nat) in Hn.
    pose proof (result_all_retried pgDumpPath connectionUrl outputPath
                  Dump.default_timeout Dump.default_maxRetries
                  Dump.default_retryDelayMs pg_dump 3 0 None eq_refl
                  ltac:(discriminate) Hall) as Hlast.
    change (Eff.result run
            = Eff.result (Dump.tryAttempt pgDumpPath connectionUrl outputPath
                            Dump.default_timeout Dump.default_retryDelayMs
                            pg_dump 2)) in Hlast.
    destruct (executableMissing_retried pgDumpPath connectionUrl outputPath
                Dump.default_timeout Dump.default_maxRetries
                Dump.default_retryDelayMs pg_dump 2 (Hmissing 2%nat))
      as (r & Hout & Hres & _).
    rewrite Hres in Hlast.
    split; [exact Hn | split; [|split]].
    + rewrite Hshape, Hn. reflexivity.
    + exists r. split; [exact Hout | exact Hlast].
    + rewrite Hlast. discriminate.
  - intros a b error. apply catchAttempt_same.
Qed.

Lemma C4_retry_policy_witness :
  Dump.spawns
    (Eff.trace
       (Dump.executePgDump "/usr/bin/pg_dump" "postgres://u@h/mydb" "/app/out"
          Dump.default_timeout Dump.default_maxRetries Dump.default_retryDelayMs
          (fun _ => Scenario.exits 1 Scenario.connectionLostText 1000))) = 3%nat
  /\ Dump.spawns
       (Eff.trace
          (Dump.executePgDump "/opt/pg/bin/pg_dump" "postgres://u@h/mydb" "/app/out"
             Dump.default_timeout Dump.default_maxRetries Dump.default_retryDelayMs
             (fun _ => Scenario.notStarted 10))) = 3%nat
  /\ Eff.result
       (Dump.executePgDump "/opt/pg/bin/pg_dump" "postgres://u@h/mydb" "/app/out"
          Dump.default_timeout Dump.default_maxRetries Dump.default_retryDelayMs
          (fun _ => Scenario.notStarted 10))
     = inl (Eff.newError "pg_dump failed with exit code undefined: ").
Proof.
  split.
  - destruct (C4_retry_policy "/usr/bin/pg_dump" "postgres://u@h/mydb" "/app/out"
                (fun _ => Scenario.exits 1 Scenario.connectionLostText 1000))
      as (_ & _ & Hlost & _).
    destruct Hlost as [Htrace _]; [intros k; reflexivity|].
    rewrite Htrace. reflexivity.
  - destruct (C4_retry_policy "/opt/pg/bin/pg_dump" "postgres://u@h/mydb" "/app/out"
                (fun _ => Scenario.notStarted 10))
      as (_ & _ & _ & Hmissing & _).
    destruct Hmissing as (Hn & _ & (r & Hout & Hres) & _);
      [intros k; reflexivity|].
    split; [exact Hn|].
    rewrite Hres. injection Hout as <-. reflexivity.
Defined.

(** C6 (evaluation of the executor).  When the dump utility exits at
    every attempt with a code other than 0 and 1, the error raised for
    the first failure is not rethrown: the executor pauses and retries,
    and gives up only after the third process. *)
Theorem C6_exit_code_is_retried
  (pgDumpPath connectionUrl outputPath : string) (pg_dump : nat -> Dump.Attempt)
  (c : Z) (Hc0 : c <> 0) (Hc1 : c <> 1)
  (Hexit : forall k, Dump.exitsWith Dump.default_timeout c (pg_dump k) = true) :
  let run :=
    Dump.executePgDump pgDumpPath connectionUrl outputPath Dump.default_timeout
      Dump.default_maxRetries Dump.default_retryDelayMs pg_dump in
  let start :=
    Eff.Spawn (15 * 60 * 1000) (Dump.argv pgDumpPath connectionUrl outputPath) in
  Dump.spawns (Eff.trace run) = 3%nat
  /\ Eff.trace run
     = [start; Eff.SetTimeout 5000; start; Eff.SetTimeout 5000; start]
  /\ exists e, Eff.result run = inl e.
Proof.
  intros run start.
  destruct (spawns_all_retried pgDumpPath connectionUrl outputPath
              Dump.default_timeout Dump.default_maxRetries
              Dump.default_retryDelayMs pg_dump 3 0 None eq_refl) as [Hn Hex].
  { intros k. now apply exitsWith_retried with (c := c). }
  change (Dump.spawns (Eff.trace run) = 3%nat) in Hn.
  change (3%nat <> 0%nat -> exists e, Eff.result run = inl e) in Hex.
  split; [exact Hn | split; [|apply Hex; discriminate]].
  assert (Hshape : Eff.trace run
                   = start :: Dump.retries 5000 (15 * 60 * 1000)
                                (Dump.argv pgDumpPath connectionUrl outputPath)
                                (Dump.spawns (Eff.trace run) - 1))
    by exact (trace_executePgDump pgDumpPath connectionUrl outputPath
                Dump.default_timeout Dump.default_maxRetries
                Dump.default_retryDelayMs pg_dump).
  rewrite Hshape, Hn. reflexivity.
Qed.

Lemma C6_exit_code_is_retried_witness :
  Dump.spawns
    (Eff.trace
       (Dump.executePgDump "/usr/bin/pg_dump" "postgres://u@h/mydb" "/app/out"
          Dump.default_timeout Dump.default_maxRetries Dump.default_retryDelayMs
          Scenario.exitsWith2)) = 3%nat.
Proof.
  apply (C6_exit_code_is_retried "/usr/bin/pg_dump" "postgres://u@h/mydb"
           "/app/out" Scenario.exitsWith2 2); [lia | lia |].
  intros k. reflexivity.
Defined.

(** ** The artifact name *)

Lemma length_append (a b : string) :
  String.length (a ++ b) = (String.length a + String.length b)%nat.
Proof. induction a as [|c a IH]; simpl; [reflexivity | now rewrite IH]. Qed.

Lemma replaceAll_append (cls : ascii -> bool) (r a b : string) :
  JS.replaceAll cls r (a ++ b) = JS.replaceAll cls r a ++ JS.replaceAll cls r b.
Proof.
  induction a as [|c a IH]; simpl; [reflexivity|].
  now rewrite IH, append_assoc.
Qed.

Lemma allDigits_append (a b : string) :
  Artifact.allDigits (a ++ b) = Artifact.allDigits a && Artifact.allDigits b.
Proof.
  induction a as [|c a IH]; simpl; [reflexivity|].
  now rewrite IH, andb_assoc.
Qed.

Lemma isDigit_digit (n : nat) : Artifact.isDigit (Artifact.digit n) = true.
Proof.
  unfold Artifact.digit.
  pose proof (Nat.mod_upper_bound n 10 ltac:(discriminate)) as H.
  remember (n mod 10)%nat as k eqn:Hk. clear Hk.
  do 10 (destruct k as [|k]; [reflexivity|]). lia.
Qed.

Lemma allDigits_digits (width n : nat) :
  Artifact.allDigits (Artifact.digits width n) = true.
Proof.
  revert n. induction width as [|w IH]; intros n; [reflexivity|].
  cbn [Artifact.digits]. rewrite allDigits_append, IH.
  cbn [Artifact.allDigits andb]. now rewrite isDigit_digit.
Qed.

Lemma length_digits (width n : nat) :
  String.length (Artifact.digits width n) = width.
Proof.
  revert n. induction width as [|w IH]; intros n; [reflexivity|].
  cbn [Artifact.digits]. rewrite length_append, IH. cbn. lia.
Qed.

(** A digit is none of the characters the stamp is cut at. *)
Lemma isDigit_plain (c : ascii) :
  Artifact.isDigit c = true ->
  Artifact.isDashOrColon c = false /\ Ascii.eqb c "." = false.
Proof.
  unfold Artifact.isDigit, Artifact.isDashOrColon. intros H.
  apply andb_prop in H as [Hlo Hhi].
  apply Nat.leb_le in Hlo, Hhi.
  repeat split.
  - apply orb_false_intro; apply Ascii.eqb_neq; intros ->; cbn in *; lia.
  - apply Ascii.eqb_neq; intros ->; cbn in *; lia.
Qed.

Lemma allDigits_kept (s : string) :
  Artifact.allDigits s = true ->
  JS.replaceAll Artifact.isDashOrColon "" s = s /\ JS.mentions "." s = false.
Proof.
  induction s as [|c s IH]; intros H; [split; reflexivity|].
  cbn [Artifact.allDigits] in H. apply andb_prop in H as [Hc Hs].
  destruct (IH Hs) as [IH1 IH2]. destruct (isDigit_plain c Hc) as [H1 H2].
  cbn [JS.replaceAll JS.mentions]. rewrite H1, H2, IH1, IH2. split; reflexivity.
Qed.

(** Cutting at a one-character separator that the head does not contain. *)
Lemma split_from_head (c : ascii) (p rest cur : string) :
  JS.mentions c p = false ->
  hd "" (JS.split_from (String c "") 0 cur (p ++ String c rest)) = cur ++ p.
Proof.
  revert cur. induction p as [|b p IH]; intros cur Hp.
  - cbn [append JS.split_from JS.startsWith]. rewrite Ascii.eqb_refl.
    cbn. now rewrite append_empty_r.
  - cbn [JS.mentions] in Hp. apply orb_false_elim in Hp as [Hb Hp].
    cbn [append JS.split_from JS.startsWith].
    rewrite Ascii.eqb_sym, Hb. cbn [andb].
    rewrite (IH _ Hp). now rewrite append_assoc.
Qed.

(** The year is written without any of the characters the stamp is cut
    at. *)
Lemma isoYear_kept (y : nat) :
  JS.replaceAll Artifact.isDashOrColon "" (Artifact.isoYear y) = Artifact.isoYear y
  /\ JS.mentions "." (Artifact.isoYear y) = false.
Proof.
  unfold Artifact.isoYear. destruct (y <? 10 ^ 4)%nat.
  - apply allDigits_kept, allDigits_digits.
  - destruct (allDigits_kept _ (allDigits_digits 6 y)) as [H1 H2].
    cbn [append JS.replaceAll JS.mentions Artifact.isDashOrColon Ascii.eqb
           Bool.eqb orb].
    rewrite H1, H2. split; reflexivity.
Qed.

Lemma timestamp_stamp (now : Artifact.DateTime) :
  Artifact.timestamp now = Artifact.stampOf now.
Proof.
  unfold Artifact.timestamp, Artifact.toISOString, Artifact.stampOf.
  repeat rewrite replaceAll_append.
  rewrite (proj1 (isoYear_kept _)).
  repeat rewrite (proj1 (allDigits_kept _ (allDigits_digits _ _))).
  cbn [JS.replaceAll Artifact.isDashOrColon Ascii.eqb Bool.eqb orb append].
  fold (JS.split ".").
  match goal with
  | |- hd "" (JS.split "." ?t) = ?p =>
      assert (Hcut : t = p ++ String "." (Artifact.digits 3 (Artifact.milliseconds now) ++ "Z"))
        by (repeat (rewrite append_assoc; cbn [append]); reflexivity);
      rewrite Hcut
  end.
  unfold JS.split. rewrite split_from_head; [reflexivity|].
  repeat (rewrite mentions_append || cbn [JS.mentions Ascii.eqb Bool.eqb orb]
          || rewrite (proj2 (isoYear_kept _))
          || rewrite (proj2 (allDigits_kept _ (allDigits_digits _ _)))).
  reflexivity.
Qed.

Lemma compactStamp_intro (date time : string) :
  String.length date = 8%nat -> String.length time = 6%nat ->
  Artifact.allDigits date = true -> Artifact.allDigits time = true ->
  Artifact.compactStamp (date ++ String "T" time) = true.
Proof.
  intros Hd Ht Hdd Htd. unfold Artifact.compactStamp.
  rewrite length_append, Hd. cbn [String.length]. rewrite Ht.
  do 8 (destruct date as [|? date]; [discriminate|]).
  destruct date; [|discriminate].
  cbn [append JS.take JS.drop]. rewrite Hdd, Htd. reflexivity.
Qed.

(** The stamp has the compact form exactly when the year has four
    digits; from the year 10000 on it is three characters longer. *)
Lemma compactStamp_timestamp (now : Artifact.DateTime) :
  Artifact.compactStamp (Artifact.timestamp now)
  = (Artifact.year now <? 10 ^ 4)%nat.
Proof.
  rewrite timestamp_stamp. unfold Artifact.stampOf, Artifact.isoYear.
  destruct (Artifact.year now <? 10 ^ 4)%nat.
  - rewrite <- (append_assoc (Artifact.digits 2 (Artifact.month now))).
    rewrite <- (append_assoc (Artifact.digits 4 (Artifact.year now))).
    apply compactStamp_intro.
    + now rewrite !length_append, !length_digits.
    + now rewrite !length_append, !length_digits.
    + now rewrite !allDigits_append, !allDigits_digits.
    + now rewrite !allDigits_append, !allDigits_digits.
  - unfold Artifact.compactStamp.
    rewrite !length_append, !length_digits.
    cbn [String.length Nat.add Nat.eqb andb]. reflexivity.
Qed.

Lemma fitsStamp_year (d : Artifact.DateTime) :
  Observe.fitsStamp d -> (Artifact.year d <? 10 ^ 4)%nat = true.
Proof. intros (Hy & _). now apply Nat.ltb_lt. Qed.

Lemma cleanFileName_clean (outputName : string) :
  JS.mentions "/" (Artifact.cleanFileName outputName) = false
  /\ JS.mentions JS.backslash (Artifact.cleanFileName outputName) = false
  /\ String.length (Artifact.cleanFileName outputName) = String.length outputName.
Proof.
  unfold Artifact.cleanFileName.
  induction outputName as [|c s (IH1 & IH2 & IH3)]; [repeat split|].
  cbn [JS.replaceAll]. unfold Artifact.isPathSeparator at 1 3 5.
  destruct (Ascii.eqb c "/") eqn:E1; cbn [orb append JS.mentions String.length].
  - rewrite IH1, IH2, IH3. repeat split.
  - destruct (Ascii.eqb c JS.backslash) eqn:E2;
      cbn [append JS.mentions String.length]; rewrite ?E1, ?E2, IH1, IH2, IH3;
      repeat split.
Qed.

(** ** The object-store upload *)

Lemma sanitize_only_keyChars (s : string) (c : ascii) :
  JS.mentions c (Upload.sanitize s) = true -> Upload.isKeyChar c = true.
Proof.
  unfold Upload.sanitize. induction s as [|b s IH]; [discriminate|].
  cbn [JS.replaceAll]. destruct (Upload.isKeyChar b) eqn:Hb; cbn [negb append].
  - cbn [JS.mentions]. intros H. apply orb_prop in H as [H|H]; [|now apply IH].
    apply Ascii.eqb_eq in H. now subst.
  - exact IH.
Qed.

Lemma sanitize_dropLeadingSlash (s : string) :
  Upload.sanitize (Upload.dropLeadingSlash s) = Upload.sanitize s.
Proof.
  unfold Upload.dropLeadingSlash. destruct s as [|c s]; [reflexivity|].
  cbn [JS.startsWith andb]. destruct (Ascii.eqb_spec "/"%char c) as [<-|Hc].
  - reflexivity.
  - reflexivity.
Qed.

(** C10.  Whatever the storage descriptor, the object is put under the
    key made of the server's project name, a slash, and the destination
    name without its leading slash and without any character outside
    [a-zA-Z0-9-_.]; the two URLs of the response are computed from the
    destination name that has only lost its leading slash, which can
    differ from the name in the key. *)
Theorem C10_object_key
  (env : Upload.Env) (helper : Upload.Helper) (send : Eff.Call unit)
  (buffer destFileName : string) (options : option Upload.ICloudStorage) :
  let run := Upload.uploadFileBuffer env helper send buffer destFileName options in
  let storage := match options with
                 | Some st => st
                 | None => Upload.getCurrentStorage env
                 end in
  Upload.keysWritten (Eff.trace run)
  = [Upload.CLOUDFLARE_CDN_PROJECT_NAME env ++ "/"
     ++ Upload.sanitize (Upload.dropLeadingSlash destFileName)]
  /\ Upload.sanitize (Upload.dropLeadingSlash destFileName)
     = JS.replaceAll (fun c => negb (Upload.isKeyChar c)) "" destFileName
  /\ (forall c,
        JS.mentions c (Upload.sanitize (Upload.dropLeadingSlash destFileName)) = true ->
        Upload.isKeyChar c = true)
  /\ (forall other,
        Upload.keysWritten
          (Eff.trace (Upload.uploadFileBuffer env helper send buffer
                        destFileName other))
        = Upload.keysWritten (Eff.trace run))
  /\ Eff.result run
     = match Eff.outcome send with
       | inl e => inl e
       | inr _ =>
           inr {| Upload.resp_provider := Upload.provider storage;
                  Upload.resp_path :=
                    Upload.sanitize (Upload.dropLeadingSlash destFileName);
                  Upload.storageUrl :=
                    Upload.getUploadFileOriginEndpointUrl helper storage
                      (Upload.dropLeadingSlash destFileName);
                  Upload.publicUrl :=
                    Upload.getUploadFilePublicUrl helper storage
                      (Upload.dropLeadingSlash destFileName) |}
       end
  /\ Upload.sanitize (Upload.dropLeadingSlash "/db backup@1.dump")
     <> Upload.dropLeadingSlash "/db backup@1.dump".
Proof.
  intros run storage.
  assert (Hkeys : forall o,
             Upload.keysWritten
               (Eff.trace (Upload.uploadFileBuffer env helper send buffer
                             destFileName o))
             = [Upload.CLOUDFLARE_CDN_PROJECT_NAME env ++ "/"
                ++ Upload.sanitize (Upload.dropLeadingSlash destFileName)]).
  { intros o. unfold Upload.uploadFileBuffer, Eff.bind, Eff.perform, Eff.ret,
      Eff.result, Eff.trace. cbn.
    destruct (Eff.outcome send); reflexivity. }
  repeat split.
  - apply Hkeys.
  - apply sanitize_dropLeadingSlash.
  - apply sanitize_only_keyChars.
  - intros other. unfold run. now rewrite !Hkeys.
  - unfold run, storage, Upload.uploadFileBuffer, Eff.bind, Eff.perform,
      Eff.ret, Eff.result. cbn.
    destruct (Eff.outcome send) as [e|[]]; reflexivity.
  - vm_compute. discriminate.
Qed.

Lemma C10_object_key_witness :
  Upload.keysWritten
    (Eff.trace
       (Upload.uploadFileBuffer Scenario.sampleEnv Scenario.sampleHelper
          (Scenario.ok 2000 tt) "PGDMP" "/db backup@1.dump"
          (Some Scenario.sampleStorage)))
  = ["savedb/dbbackup1.dump"]
  /\ Upload.isKeyChar "." = true.
Proof.
  destruct (C10_object_key Scenario.sampleEnv Scenario.sampleHelper
              (Scenario.ok 2000 tt) "PGDMP" "/db backup@1.dump"
              (Some Scenario.sampleStorage))
    as (Hkey & _ & Hchars & _).
  split; [exact Hkey | apply Hchars; reflexivity].
Defined.

(** ** The probe and the size estimator *)

Ltac run_effects :=
  unfold Eff.catch, Eff.finally, Eff.bind, Eff.perform, Eff.emit, Eff.ret,
    Eff.throw, Eff.result, Eff.trace, Eff.elapsed; cbn.

(** What the probe does and what it returns: it imports the driver,
    creates a pool whose connection time limit is 5 seconds, connects,
    sends its one query, and releases what it acquired; it returns a
    record in every case, [success] when no step has failed. *)
Lemma testDatabaseConnection_cases (w : Pipeline.World) (connectionUrl : string) :
  let probe := Pipeline.testDatabaseConnection w connectionUrl in
  let imported := negb (Pipeline.failed (Pipeline.probe_import w)) in
  let connected := imported && negb (Pipeline.failed (Pipeline.probe_connect w)) in
  let passed :=
    connected && negb (Pipeline.failed (Pipeline.probe_select w))
    && negb (Pipeline.failed (Pipeline.probe_release w))
    && negb (Pipeline.failed (Pipeline.probe_end w)) in
  Eff.trace probe
  = (Eff.ImportPg
     :: (if imported
         then [Eff.NewPool (Some 5000); Eff.PoolConnect]
              ++ (if connected
                  then [Eff.ClientQuery "SELECT 1 as test"; Eff.ClientRelease]
                  else [])
              ++ [Eff.PoolEnd]
         else []))%list
  /\ (exists t,
        Eff.result probe = inr t
        /\ Pipeline.success t = passed
        /\ (passed = true ->
            t = {| Pipeline.success := true;
                   Pipeline.test_message := "Connection successful";
                   Pipeline.test_error := None |})
        /\ (passed = false ->
            exists e,
              t = {| Pipeline.success := false;
                     Pipeline.test_message := "Connection failed: " ++ Eff.message e;
                     Pipeline.test_error := Some e |}
              /\ In (inl e)
                   [Eff.outcome (Pipeline.probe_import w);
                    Eff.outcome (Pipeline.probe_connect w);
                    Eff.outcome (Pipeline.probe_select w);
                    Eff.outcome (Pipeline.probe_release w);
                    Eff.outcome (Pipeline.probe_end w)])).
Proof.
  cbv zeta. unfold Pipeline.testDatabaseConnection, Pipeline.failed. run_effects.
  destruct (Eff.outcome (Pipeline.probe_import w)) as [e1|[]]; cbn.
  { split; [reflexivity|]. eexists. split; [reflexivity|].
    split; [reflexivity|]. split; [discriminate|]. intros _.
    exists e1. split; [reflexivity | now left]. }
  destruct (Eff.outcome (Pipeline.probe_connect w)) as [e2|[]]; cbn.
  { destruct (Eff.outcome (Pipeline.probe_end w)) as [e5|[]]; cbn;
      (split; [reflexivity|]); eexists; (split; [reflexivity|]);
      (split; [reflexivity|]); (split; [discriminate|]); intros _.
    - exists e5. split; [reflexivity | cbn; tauto].
    - exists e2. split; [reflexivity | cbn; tauto]. }
  destruct (Eff.outcome (Pipeline.probe_select w)) as [e3|[]]; cbn;
    destruct (Eff.outcome (Pipeline.probe_release w)) as [e4|[]]; cbn;
    destruct (Eff.outcome (Pipeline.probe_end w)) as [e5|[]]; cbn;
    (split; [reflexivity|]); eexists; (split; [reflexivity|]);
    (split; [reflexivity|]);
    (split; [try discriminate; intros _; reflexivity|]);
    try discriminate; intros _.
  all: first [ exists e5; split; [reflexivity | cbn; tauto]
             | exists e4; split; [reflexivity | cbn; tauto]
             | exists e3; split; [reflexivity | cbn; tauto] ].
Qed.

(** C9.  The probe never throws: it returns a record.  It creates one
    pool, with the connection time limit of 5 seconds, connects, and
    over that connection sends its one query, [SELECT 1 as test]; the
    record says [success] exactly when none of its steps has failed, and
    otherwise carries the message of the error.  When the record says
    [success = false], the orchestrator throws right after the probe:
    its trace is the first progress event followed by the probe's own
    actions, and no dump process is started; when it says
    [success = true] the run goes on to the analysis of the size. *)
Theorem C9_probe_gate
  (w : Pipeline.World) (connectionUrl outputName : string)
  (storage : option Upload.ICloudStorage) :
  let probe := Pipeline.testDatabaseConnection w connectionUrl in
  let run := Pipeline.backupAndUploadDatabase w connectionUrl outputName storage in
  let imported := negb (Pipeline.failed (Pipeline.probe_import w)) in
  let connected := imported && negb (Pipeline.failed (Pipeline.probe_connect w)) in
  let passed :=
    connected && negb (Pipeline.failed (Pipeline.probe_select w))
    && negb (Pipeline.failed (Pipeline.probe_release w))
    && negb (Pipeline.failed (Pipeline.probe_end w)) in
  Eff.trace probe
  = (Eff.ImportPg
     :: (if imported
         then [Eff.NewPool (Some 5000); Eff.PoolConnect]
              ++ (if connected
                  then [Eff.ClientQuery "SELECT 1 as test"; Eff.ClientRelease]
                  else [])
              ++ [Eff.PoolEnd]
         else []))%list
  /\ Pipeline.poolTimeouts (Eff.trace probe)
     = (if imported then [Some 5000] else [])
  /\ Pipeline.clientQueries (Eff.trace probe)
     = (if connected then ["SELECT 1 as test"] else [])
  /\ (exists t,
        Eff.result probe = inr t
        /\ Pipeline.success t = passed
        /\ (passed = true ->
            t = {| Pipeline.success := true;
                   Pipeline.test_message := "Connection successful";
                   Pipeline.test_error := None |})
        /\ (passed = false ->
            exists e,
              t = {| Pipeline.success := false;
                     Pipeline.test_message := "Connection failed: " ++ Eff.message e;
                     Pipeline.test_error := Some e |}
              /\ In (inl e)
                   [Eff.outcome (Pipeline.probe_import w);
                    Eff.outcome (Pipeline.probe_connect w);
                    Eff.outcome (Pipeline.probe_select w);
                    Eff.outcome (Pipeline.probe_release w);
                    Eff.outcome (Pipeline.probe_end w)]))
  /\ (forall t,
        Eff.result probe = inr t -> Pipeline.success t = false ->
        Eff.result run
        = inl (Eff.newError ("Database connection test failed: "
                             ++ Pipeline.test_message t))
        /\ Eff.trace run
           = Eff.Progress 2 "Testing database connection..." :: Eff.trace probe
        /\ Dump.spawns (Eff.trace run) = 0%nat)
  /\ (forall t,
        Eff.result probe = inr t -> Pipeline.success t = true ->
        exists rest,
          Eff.trace run
          = (Eff.Progress 2 "Testing database connection..." :: Eff.trace probe
             ++ Eff.Progress 5 "Database connection successful, analyzing size..."
             :: rest)%list).
Proof.
  intros probe run imported connected passed.
  destruct (testDatabaseConnection_cases w connectionUrl) as [Htrace Hret].
  fold probe imported connected passed in Htrace, Hret.
  split; [exact Htrace|].
  split; [rewrite Htrace; destruct imported; [destruct connected|]; reflexivity|].
  split; [rewrite Htrace; destruct imported; [destruct connected|]; reflexivity|].
  split; [exact Hret|].
  split.
  - intros t Hprobe Hfalse.
    assert (Hrun : Eff.trace run
                   = Eff.Progress 2 "Testing database connection..."
                     :: Eff.trace probe).
    { unfold run, Pipeline.backupAndUploadDatabase.
      rewrite trace_bind. cbn [Eff.emit Eff.result Eff.trace snd fst app].
      rewrite trace_bind. fold probe. rewrite Hprobe, Hfalse. cbn.
      now rewrite app_nil_r. }
    split; [|split; [exact Hrun|]].
    + unfold run, Pipeline.backupAndUploadDatabase.
      rewrite result_bind. cbn [Eff.emit Eff.result snd].
      rewrite result_bind. fold probe. rewrite Hprobe, Hfalse. reflexivity.
    + rewrite Hrun, Htrace.
      destruct imported; [destruct connected|]; reflexivity.
  - intros t Hprobe Htrue.
    unfold run, Pipeline.backupAndUploadDatabase.
    rewrite trace_bind. cbn [Eff.emit Eff.result Eff.trace snd fst app].
    rewrite trace_bind. fold probe. rewrite Hprobe, Htrue. cbn [negb].
    rewrite trace_bind. cbn [Eff.emit Eff.result Eff.trace snd fst app].
    eexists. reflexivity.
Qed.

Lemma C9_probe_gate_witness :
  Pipeline.clientQueries
    (Eff.trace (Pipeline.testDatabaseConnection Scenario.calm "postgres://u@h/mydb"))
  = ["SELECT 1 as test"]
  /\ Pipeline.poolTimeouts
       (Eff.trace (Pipeline.testDatabaseConnection Scenario.calm "postgres://u@h/mydb"))
     = [Some 5000]
  /\ Dump.spawns
       (Eff.trace
          (Pipeline.backupAndUploadDatabase Scenario.unreachable
             "postgres://u@h/mydb" "mydb.dump" None)) = 0%nat.
Proof.
  destruct (C9_probe_gate Scenario.calm "postgres://u@h/mydb" "mydb.dump" None)
    as (_ & Hpool & Hquery & _).
  destruct (C9_probe_gate Scenario.unreachable "postgres://u@h/mydb" "mydb.dump"
              None) as (_ & _ & _ & _ & Hgate & _).
  split; [exact Hquery | split; [exact Hpool|]].
  eapply Hgate; reflexivity.
Defined.

Lemma checkDatabaseSize_cases (w : Pipeline.World) (connectionUrl : string) :
  let estimate := Pipeline.checkDatabaseSize w connectionUrl in
  (Pipeline.sizeFails w connectionUrl = true ->
   Eff.result estimate
   = inr {| Pipeline.sizeBytes := 0; Pipeline.tablesCount := 0 |})
  /\ (Pipeline.sizeFails w connectionUrl = false ->
      exists size tables,
        Eff.outcome (Pipeline.size_query w) = inr size
        /\ Eff.outcome (Pipeline.tables_query w) = inr tables
        /\ Eff.result estimate
           = inr {| Pipeline.sizeBytes := size; Pipeline.tablesCount := tables |}).
Proof.
  cbv zeta.
  unfold Pipeline.checkDatabaseSize, Pipeline.sizeFails, Pipeline.parseDbName,
    Pipeline.failed.
  destruct (Pipeline.dbNameOf w connectionUrl); run_effects;
    [|split; [reflexivity | discriminate]].
  destruct (Eff.outcome (Pipeline.size_import w)); cbn;
    [split; [reflexivity | discriminate]|].
  destruct (Eff.outcome (Pipeline.size_query w)) as [|size]; cbn;
    destruct (Eff.outcome (Pipeline.size_end w)); cbn;
    try (split; [reflexivity | discriminate]).
  - destruct (Eff.outcome (Pipeline.tables_query w)); cbn;
      (split; [reflexivity | discriminate]).
  - destruct (Eff.outcome (Pipeline.tables_query w)) as [|tables]; cbn;
      [split; [reflexivity | discriminate]|].
    split; [discriminate|]. intros _. now exists size, tables.
Qed.

Lemma trace_dumpAndUpload_head (w : Pipeline.World) (connectionUrl outputName : string)
  (storage : option Upload.ICloudStorage) (size : Pipeline.SizeEstimate) :
  exists rest,
    Eff.trace (Pipeline.dumpAndUpload w connectionUrl outputName storage size)
    = Eff.Progress 10 (Pipeline.startMessage w size) :: rest.
Proof.
  unfold Pipeline.dumpAndUpload. rewrite trace_bind.
  cbn [Eff.emit Eff.result Eff.trace snd fst app]. eauto.
Qed.

(** C8.  The size estimator never throws: when a step of it fails it
    returns [{sizeBytes: 0, tablesCount: 0}], otherwise the two queried
    numbers.  After a successful probe a failing estimation does not end
    the run: the orchestrator goes on to the dump stage with the
    estimate [{0, 0}], hence with the budget of 20 minutes. *)
Theorem C8_size_soft_failure
  (w : Pipeline.World) (connectionUrl outputName : string)
  (storage : option Upload.ICloudStorage) :
  let zero := {| Pipeline.sizeBytes := 0; Pipeline.tablesCount := 0 |} in
  let estimate := Pipeline.checkDatabaseSize w connectionUrl in
  let probe := Pipeline.testDatabaseConnection w connectionUrl in
  let run := Pipeline.backupAndUploadDatabase w connectionUrl outputName storage in
  (exists s, Eff.result estimate = inr s)
  /\ (Pipeline.sizeFails w connectionUrl = true -> Eff.result estimate = inr zero)
  /\ (Pipeline.sizeFails w connectionUrl = false ->
      exists size tables,
        Eff.outcome (Pipeline.size_query w) = inr size
        /\ Eff.outcome (Pipeline.tables_query w) = inr tables
        /\ Eff.result estimate
           = inr {| Pipeline.sizeBytes := size; Pipeline.tablesCount := tables |})
  /\ (forall t,
        Eff.result probe = inr t -> Pipeline.success t = true ->
        Pipeline.sizeFails w connectionUrl = true ->
        Eff.result run
        = Eff.result (Pipeline.dumpAndUpload w connectionUrl outputName storage zero)
        /\ In (Eff.Progress 10 (Pipeline.startMessage w zero)) (Eff.trace run)
        /\ Budget.estimatedMinutes (Pipeline.sizeBytes zero) = 20
        /\ Budget.timeoutMs (Pipeline.sizeBytes zero) = 20 * 60 * 1000).
Proof.
  intros zero estimate probe run.
  destruct (checkDatabaseSize_cases w connectionUrl) as [Hfail Hok].
  fold estimate in Hfail, Hok. fold zero in Hfail.
  split; [|split; [exact Hfail | split; [exact Hok|]]].
  - destruct (Pipeline.sizeFails w connectionUrl).
    + exists zero. now apply Hfail.
    + destruct (Hok eq_refl) as (size & tables & _ & _ & Hres). eauto.
  - intros t Hprobe Hsuccess Hfails. specialize (Hfail Hfails).
    split; [|split; [|split; reflexivity]].
    + unfold run, Pipeline.backupAndUploadDatabase.
      rewrite result_bind. cbn [Eff.emit Eff.result snd].
      rewrite result_bind. fold probe. rewrite Hprobe, Hsuccess. cbn [negb].
      rewrite result_bind. cbn [Eff.emit Eff.result snd].
      rewrite result_bind. fold estimate. now rewrite Hfail.
    + unfold run, Pipeline.backupAndUploadDatabase.
      rewrite trace_bind. cbn [Eff.emit Eff.result Eff.trace snd fst].
      rewrite trace_bind. fold probe. rewrite Hprobe, Hsuccess. cbn [negb].
      rewrite trace_bind. cbn [Eff.emit Eff.result Eff.trace snd fst].
      rewrite trace_bind. fold estimate. rewrite Hfail.
      destruct (trace_dumpAndUpload_head w connectionUrl outputName storage zero)
        as [rest Hrest].
      rewrite Hrest. rewrite !in_app_iff. right. right. right. right. now left.
Qed.

Lemma C8_size_soft_failure_witness :
  In (Eff.Progress 10 "Starting database backup (0.00 MB, 0 tables)...")
    (Eff.trace
       (Pipeline.backupAndUploadDatabase Scenario.sizeDenied
          "postgres://u@h/mydb" "mydb.dump" None)).
Proof.
  eapply (C8_size_soft_failure Scenario.sizeDenied "postgres://u@h/mydb"
            "mydb.dump" None); reflexivity.
Defined.

(** ** Properties of all the actions of a run *)

Section TraceInvariants.

Variable P : Eff.Action -> Prop.

Lemma all_bind {A B} (m : Eff.M A) (k : A -> Eff.M B) :
  Forall P (Eff.trace m) -> (forall a, Forall P (Eff.trace (k a))) ->
  Forall P (Eff.trace (Eff.bind m k)).
Proof.
  intros Hm Hk. rewrite trace_bind.
  destruct (Eff.result m); [exact Hm|]. apply Forall_app. now split.
Qed.

Lemma all_catch {A} (m : Eff.M A) (h : Eff.JsError -> Eff.M A) :
  Forall P (Eff.trace m) -> (forall e, Forall P (Eff.trace (h e))) ->
  Forall P (Eff.trace (Eff.catch m h)).
Proof.
  intros Hm Hh. rewrite trace_catch.
  destruct (Eff.result m); [|exact Hm]. apply Forall_app. now split.
Qed.

Lemma all_perform {A} (a : Eff.Action) (c : Eff.Call A) :
  P a -> Forall P (Eff.trace (Eff.perform a c)).
Proof. intros Ha. now repeat constructor. Qed.

Lemma all_ret {A} (a : A) : Forall P (Eff.trace (Eff.ret a)).
Proof. constructor. Qed.

Lemma all_throw {A} (e : Eff.JsError) : Forall P (Eff.trace (@Eff.throw A e)).
Proof. constructor. Qed.

Lemma all_race {A} (op : Eff.M A) (ms : Z) (msg : string) :
  Forall P (Eff.trace op) -> Forall P (Eff.trace (Eff.race op ms msg)).
Proof. unfold Eff.race. now destruct (Eff.elapsed op <? ms). Qed.

Hypothesis P_pause : forall ms, P (Eff.SetTimeout ms).

Lemma all_executePgDump
  (pgDumpPath connectionUrl outputPath : string) (timeout : Z)
  (maxRetries : nat) (retryDelayMs : Z) (pg_dump : nat -> Dump.Attempt) :
  P (Eff.Spawn timeout (Dump.argv pgDumpPath connectionUrl outputPath)) ->
  Forall P (Eff.trace (Dump.executePgDump pgDumpPath connectionUrl outputPath
                         timeout maxRetries retryDelayMs pg_dump)).
Proof.
  intros Hspawn. unfold Dump.executePgDump.
  generalize (S maxRetries) as remaining, 0%nat as attempt,
    (@None Eff.JsError) as last.
  induction remaining as [|remaining IH]; intros attempt last.
  - constructor.
  - rewrite trace_attempts_step, trace_tryAttempt.
    apply Forall_app. split.
    + apply Forall_app. split; [|now repeat constructor].
      destruct (0 <? attempt)%nat; now repeat constructor.
    + destruct (Eff.result _) as [e|r]; [|constructor].
      destruct (Dump.catchAttempt _ _ _ _); [constructor | apply IH].
Qed.

End TraceInvariants.

Lemma progressEvents_quiet (t : list Eff.Action) :
  Forall Eff.quiet t -> Route.progressEvents t = [].
Proof.
  induction 1 as [|a t Ha _ IH]; [reflexivity|].
  destruct a; cbn [Route.progressEvents]; try exact IH. discriminate Ha.
Qed.

Lemma quiet_backupPostgresDatabase (w : Pipeline.World) (connectionUrl outputName : string) :
  Forall Eff.quiet (Eff.trace (Pipeline.backupPostgresDatabase w connectionUrl outputName)).
Proof.
  unfold Pipeline.backupPostgresDatabase.
  apply all_bind; [now apply all_perform|]. intros _.
  apply all_bind.
  { unfold Pipeline.findPgDump. apply all_catch.
    - apply all_bind; [now apply all_perform | intros; apply all_ret].
    - intros; apply all_throw. }
  intros pgDumpPath. apply all_bind.
  { unfold Pipeline.parseDbName. destruct (Pipeline.dbNameOf _ _);
      [apply all_ret | apply all_throw]. }
  intros _. unfold Pipeline.guardedDump. apply all_catch.
  - apply all_bind; [now apply all_executePgDump|]. intros _.
    apply all_bind; [now apply all_perform|]. intros size.
    destruct (size =? 0); [apply all_throw | apply all_ret].
  - intros e. destruct (_ || _); apply all_throw.
Qed.

Lemma quiet_uploadFileBuffer (env : Upload.Env) (helper : Upload.Helper)
  (send : Eff.Call unit) (buffer destFileName : string)
  (options : option Upload.ICloudStorage) :
  Forall Eff.quiet (Eff.trace (Upload.uploadFileBuffer env helper send buffer
                             destFileName options)).
Proof.
  unfold Upload.uploadFileBuffer.
  apply all_bind; [now apply all_perform | intros; apply all_ret].
Qed.

(** ** The route *)

Section RouteFacts.

Variable JSON_stringify : Route.Payload -> string.
Variable generateBackupName : string -> string.
Variable w : Pipeline.World.

Lemma onProgress_wire (t : list Eff.Action) :
  flat_map (Route.onProgress JSON_stringify) t
  = Route.wire JSON_stringify (Route.progressEvents t).
Proof.
  unfold Route.wire. induction t as [|a t IH]; [reflexivity|].
  destruct a; cbn [flat_map Route.onProgress Route.progressEvents app];
    try exact IH.
  now rewrite IH.
Qed.

End RouteFacts.

Section ResponseFacts.

Variable JSON_stringify : Route.Payload -> string.

Let writes (p : Route.Payload) : list Route.Response :=
  [Route.Write ("event: progress" ++ JS.nl);
   Route.Write ("data: " ++ JSON_stringify p ++ JS.nl ++ JS.nl)].

(** What the progress callback writes, event after event. *)
Lemma onProgress_writes (t : list Eff.Action) :
  flat_map (Route.onProgress JSON_stringify) t
  = flat_map writes (map Route.payload (Route.progressEvents t)).
Proof.
  induction t as [|a t IH]; [reflexivity|].
  destruct a; cbn [flat_map Route.onProgress Route.progressEvents map app];
    try exact IH.
  now rewrite IH.
Qed.

(** The writes of progress events announce no outcome. *)
Lemma progress_announces_nothing (ps : list Route.Payload) :
  filter Observe.announcesOutcome (flat_map writes ps) = [].
Proof.
  induction ps as [|p ps IH]; [reflexivity|].
  cbn [flat_map]. rewrite filter_app, IH. reflexivity.
Qed.

End ResponseFacts.

(** C7.  In streaming mode the handler writes the head, then for each
    progress event the line [event: progress] and its data, then the
    line that announces exactly one terminal event ([event: complete]
    when the backup has returned, [event: error] when it has thrown) and
    its data, then ends the response: one write announces an outcome,
    and nothing but its data is written after it; the operations
    abandoned by a lost race emit no progress event.  In non-streaming
    mode, and for a body that fails validation, the response is exactly
    one outcome: one JSON reply or one error passed to the error
    handler. *)
Theorem C7_one_terminal_outcome
  (JSON_stringify : Route.Payload -> string)
  (generateBackupName : string -> string) (w : Pipeline.World)
  (backupData : Route.BackupData) :
  let run := Route.runBackup generateBackupName w backupData in
  let response :=
    Route.post JSON_stringify generateBackupName w true (inr backupData) in
  let terminal :=
    match Eff.result run with
    | inr r =>
        ("complete",
         Route.CompleteData (Route.backupName generateBackupName backupData)
           (Pipeline.provider r) (Pipeline.url r))
    | inl error => ("error", Route.payload (Route.errorEvent error))
    end in
  response
  = (Route.WriteHead 200
     :: flat_map
          (fun p =>
             [Route.Write ("event: progress" ++ JS.nl);
              Route.Write ("data: " ++ JSON_stringify p ++ JS.nl ++ JS.nl)])
          (Route.Starting
           :: map Route.payload (Route.progressEvents (Eff.trace run)))
     ++ [Route.Write ("event: " ++ fst terminal ++ JS.nl);
         Route.Write ("data: " ++ JSON_stringify (snd terminal) ++ JS.nl ++ JS.nl);
         Route.End])%list
  /\ filter Observe.announcesOutcome response
     = [Route.Write ("event: " ++ fst terminal ++ JS.nl)]
  /\ (exists outcome,
         Route.isOutcome outcome = true
         /\ Route.post JSON_stringify generateBackupName w false (inr backupData)
            = [outcome])
  /\ (forall streams zodError,
         Route.post JSON_stringify generateBackupName w streams (inl zodError)
         = [Route.Next zodError])
  /\ (forall connectionUrl outputName,
         Route.progressEvents
           (Eff.trace (Pipeline.backupPostgresDatabase w connectionUrl outputName))
         = [])
  /\ (forall buffer destFileName options,
         Route.progressEvents
           (Eff.trace (Upload.uploadFileBuffer (Pipeline.env w) (Pipeline.helper w)
                         (Pipeline.send w) buffer destFileName options))
         = []).
Proof.
  intros run response terminal.
  assert (Hshape :
            response
            = (Route.WriteHead 200
               :: flat_map
                    (fun p =>
                       [Route.Write ("event: progress" ++ JS.nl);
                        Route.Write ("data: " ++ JSON_stringify p ++ JS.nl ++ JS.nl)])
                    (Route.Starting
                     :: map Route.payload (Route.progressEvents (Eff.trace run)))
               ++ [Route.Write ("event: " ++ fst terminal ++ JS.nl);
                   Route.Write ("data: " ++ JSON_stringify (snd terminal)
                                ++ JS.nl ++ JS.nl);
                   Route.End])%list).
  { unfold response, terminal. cbn [Route.post]. unfold Route.streaming.
    fold run. rewrite onProgress_writes. cbn [flat_map].
    destruct (Eff.result run) as [error|r].
    - unfold Route.errorEvent.
      destruct (JS.includes "timed out" (Eff.message error));
        cbn [fst snd Route.payload Route.frame Route.kind app];
        reflexivity.
    - cbn [fst snd Route.payload Route.frame Route.kind app].
      reflexivity. }
  split; [exact Hshape|]. split; [|split; [|split; [|split]]].
  - rewrite Hshape.
    cbn [filter Observe.announcesOutcome flat_map].
    rewrite filter_app, filter_app, progress_announces_nothing.
    unfold terminal.
    destruct (Eff.result run) as [error|r]; reflexivity.
  - cbn [Route.post]. unfold Route.standard.
    destruct (Eff.result _) as [error|r];
      [|eexists; split; [|reflexivity]; reflexivity].
    destruct (JS.includes _ _); eexists; (split; [|reflexivity]); reflexivity.
  - reflexivity.
  - intros. apply progressEvents_quiet, quiet_backupPostgresDatabase.
  - intros. apply progressEvents_quiet, quiet_uploadFileBuffer.
Qed.

(** ** The two races *)

Lemma startsWith_append (needle a b : string) :
  JS.startsWith needle a = true -> JS.startsWith needle (a ++ b) = true.
Proof.
  revert a. induction needle as [|c n IH]; intros a H; [reflexivity|].
  destruct a as [|d a]; [discriminate|].
  cbn [JS.startsWith append] in *. apply andb_prop in H as [H1 H2].
  now rewrite H1, (IH _ H2).
Qed.

Lemma includes_append (needle a b : string) :
  JS.includes needle a = true -> JS.includes needle (a ++ b) = true.
Proof.
  induction a as [|c a IH]; intros H.
  - cbn in H. rewrite orb_false_r in H.
    destruct needle; [|discriminate]. now destruct b.
  - cbn [JS.includes] in H. apply orb_prop in H as [H|H].
    + change (String c a ++ b) with (String c (a ++ b)) in *.
      cbn [JS.includes].
      change (String c (a ++ b)) with (String c a ++ b).
      now rewrite (startsWith_append _ _ _ H).
    + cbn [append JS.includes]. rewrite (IH H). now rewrite orb_true_r.
Qed.

Lemma race_won {A} (op : Eff.M A) (ms : Z) (msg : string) :
  Eff.elapsed op < ms -> Eff.race op ms msg = op.
Proof.
  intros H. unfold Eff.race. destruct (Z.ltb_spec (Eff.elapsed op) ms); [reflexivity | lia].
Qed.

Lemma race_lost {A} (op : Eff.M A) (ms : Z) (msg : string) :
  ms <= Eff.elapsed op ->
  Eff.result (Eff.race op ms msg) = inl (Eff.newError msg)
  /\ Eff.elapsed (Eff.race op ms msg) = ms.
Proof.
  intros H. unfold Eff.race.
  destruct (Z.ltb_spec (Eff.elapsed op) ms); [lia | split; reflexivity].
Qed.

Lemma spawn_limit_backupPostgresDatabase
  (w : Pipeline.World) (connectionUrl outputName : string) :
  Forall (Eff.timedAt Pipeline.fifteenMinutes)
    (Eff.trace (Pipeline.backupPostgresDatabase w connectionUrl outputName)).
Proof.
  assert (Hother : forall a, Eff.isSpawn a = false ->
                             Eff.timedAt Pipeline.fifteenMinutes a).
  { intros a Ha timeout argv ->. discriminate Ha. }
  unfold Pipeline.backupPostgresDatabase.
  apply all_bind; [now apply all_perform, Hother|]. intros _.
  apply all_bind.
  { unfold Pipeline.findPgDump. apply all_catch.
    - apply all_bind; [now apply all_perform, Hother | intros; apply all_ret].
    - intros; apply all_throw. }
  intros pgDumpPath. apply all_bind.
  { unfold Pipeline.parseDbName. destruct (Pipeline.dbNameOf _ _);
      [apply all_ret | apply all_throw]. }
  intros _. unfold Pipeline.guardedDump. apply all_catch.
  - apply all_bind.
    + unfold Pipeline.executor. apply all_executePgDump.
      * intros ms. now apply Hother.
      * intros timeout argv E. now injection E as <- _.
    + intros _. apply all_bind; [now apply all_perform, Hother|]. intros size.
      destruct (size =? 0); [apply all_throw | apply all_ret].
  - intros e. destruct (_ || _); apply all_throw.
Qed.

(** A dump that fails once its executor has run for fifteen minutes is
    reported as timed out. *)
Lemma guardedDump_aborted
  (w : Pipeline.World) (pgDumpPath connectionUrl outputPath fileName : string)
  (e : Eff.JsError) :
  Pipeline.fifteenMinutes
  <= Eff.elapsed (Pipeline.executor w pgDumpPath connectionUrl outputPath) ->
  Eff.result (Pipeline.guardedDump w pgDumpPath connectionUrl outputPath fileName)
  = inl e ->
  e = Eff.newError Pipeline.timedOutMessage.
Proof.
  intros Hlong. unfold Pipeline.guardedDump. rewrite result_catch.
  apply Z.leb_le in Hlong. rewrite Hlong.
  destruct (Eff.result _) as [e0|name]; [|discriminate].
  rewrite orb_true_r. cbn. congruence.
Qed.

Lemma progressEvents_app (t u : list Eff.Action) :
  Route.progressEvents (t ++ u)
  = (Route.progressEvents t ++ Route.progressEvents u)%list.
Proof.
  induction t as [|a t IH]; [reflexivity|].
  destruct a; cbn [Route.progressEvents app]; rewrite ?IH; reflexivity.
Qed.

(** When the dump step loses its race the run ends there, with the
    timed-out error and no progress event beyond the one at 10 percent. *)
Lemma dumpAndUpload_dump_timeout
  (w : Pipeline.World) (connectionUrl outputName : string)
  (storage : option Upload.ICloudStorage) (size : Pipeline.SizeEstimate) :
  Budget.timeoutMs (Pipeline.sizeBytes size)
  <= Eff.elapsed (Pipeline.backupPostgresDatabase w connectionUrl outputName) ->
  let run := Pipeline.dumpAndUpload w connectionUrl outputName storage size in
  Eff.result run = inl (Eff.newError (Pipeline.dumpTimeoutMessage size))
  /\ Route.progressEvents (Eff.trace run)
     = [Route.EvProgress (Route.ProgressData (Pipeline.startMessage w size) 10)].
Proof.
  intros Hlate run.
  destruct (race_lost (Pipeline.backupPostgresDatabase w connectionUrl outputName)
              _ (Pipeline.dumpTimeoutMessage size) Hlate) as [Hres _].
  fold (Pipeline.dumpStep w connectionUrl outputName size) in Hres.
  unfold run, Pipeline.dumpAndUpload. split.
  - rewrite result_bind. cbn [Eff.emit Eff.result snd].
    rewrite result_bind. now rewrite Hres.
  - rewrite trace_bind. cbn [Eff.emit Eff.result snd Eff.trace fst].
    rewrite trace_bind, Hres, progressEvents_app.
    cbn [Route.progressEvents app]. f_equal.
    apply progressEvents_quiet, all_race, quiet_backupPostgresDatabase.
Qed.

(** C3 (amended).  The budget lies between 20 and 45 minutes.  The dump
    step and the upload step are each raced against the whole budget,
    counted from the start of the step: a step that settles before the
    budget has passed keeps its outcome, otherwise a timed-out error is
    made up at the budget.  The budget does not reach the dump itself:
    every dump process gets the fixed time limit of 15 minutes, and a
    dump that fails when its executor has run for 15 minutes or more is
    reported as timed out whatever the budget. *)
Theorem C3_races
  (w : Pipeline.World) (connectionUrl outputName fileBuffer fileName : string)
  (storage : option Upload.ICloudStorage) (size : Pipeline.SizeEstimate)
  (Hsize : 0 <= Pipeline.sizeBytes size) :
  let budget := Budget.timeoutMs (Pipeline.sizeBytes size) in
  let dump := Pipeline.backupPostgresDatabase w connectionUrl outputName in
  let upload :=
    Upload.uploadFileBuffer (Pipeline.env w) (Pipeline.helper w) (Pipeline.send w)
      fileBuffer fileName storage in
  let dumpStep := Pipeline.dumpStep w connectionUrl outputName size in
  let uploadStep := Pipeline.uploadStep w fileBuffer fileName storage size in
  20 * 60 * 1000 <= budget <= 45 * 60 * 1000
  /\ (Eff.elapsed dump < budget -> dumpStep = dump)
  /\ (budget <= Eff.elapsed dump ->
      Eff.result dumpStep = inl (Eff.newError (Pipeline.dumpTimeoutMessage size))
      /\ Eff.elapsed dumpStep = budget
      /\ Eff.result (Pipeline.dumpAndUpload w connectionUrl outputName storage size)
         = inl (Eff.newError (Pipeline.dumpTimeoutMessage size)))
  /\ (Eff.elapsed upload < budget -> uploadStep = upload)
  /\ (budget <= Eff.elapsed upload ->
      Eff.result uploadStep = inl (Eff.newError Pipeline.uploadTimeoutMessage)
      /\ Eff.elapsed uploadStep = budget)
  /\ JS.includes "timed out" (Pipeline.dumpTimeoutMessage size) = true
  /\ JS.includes "timed out" Pipeline.uploadTimeoutMessage = true
  /\ (forall timeout argv,
        In (Eff.Spawn timeout argv) (Eff.trace dump) -> timeout = 15 * 60 * 1000)
  /\ (forall pgDumpPath outputPath e,
        15 * 60 * 1000
        <= Eff.elapsed (Pipeline.executor w pgDumpPath connectionUrl outputPath) ->
        Eff.result (Pipeline.guardedDump w pgDumpPath connectionUrl outputPath
                      fileName) = inl e ->
        e = Eff.newError Pipeline.timedOutMessage
        /\ JS.includes "timed out" (Eff.message e) = true).
Proof.
  intros budget dump upload dumpStep uploadStep.
  split; [|split; [|split; [|split; [|split; [|split; [|split; [|split]]]]]]].
  - unfold budget, Budget.timeoutMs. rewrite estimatedMinutes_div. lia.
  - apply race_won.
  - intros Hlate.
    destruct (race_lost dump budget (Pipeline.dumpTimeoutMessage size) Hlate)
      as [Hres Hat].
    split; [exact Hres | split; [exact Hat|]].
    now apply dumpAndUpload_dump_timeout.
  - apply race_won.
  - apply race_lost.
  - unfold Pipeline.dumpTimeoutMessage. now apply includes_append.
  - reflexivity.
  - intros timeout argv Hin.
    pose proof (spawn_limit_backupPostgresDatabase w connectionUrl outputName) as H.
    rewrite Forall_forall in H. exact (H _ Hin timeout argv eq_refl).
  - intros pgDumpPath outputPath e Hlong He.
    pose proof (guardedDump_aborted w pgDumpPath connectionUrl outputPath
                  fileName e Hlong He) as ->.
    split; reflexivity.
Qed.

Lemma C3_races_witness :
  Pipeline.dumpStep Scenario.slow "postgres://u@h/mydb" "mydb.dump"
    {| Pipeline.sizeBytes := 0; Pipeline.tablesCount := 0 |}
  = Pipeline.backupPostgresDatabase Scenario.slow "postgres://u@h/mydb" "mydb.dump"
  /\ Pipeline.uploadStep Scenario.slow "PGDMP" "backup.dump" None
       {| Pipeline.sizeBytes := 0; Pipeline.tablesCount := 0 |}
     = Upload.uploadFileBuffer Scenario.sampleEnv Scenario.sampleHelper
         (Scenario.ok (Scenario.minutes 19) tt) "PGDMP" "backup.dump" None.
Proof.
  destruct (C3_races Scenario.slow "postgres://u@h/mydb" "mydb.dump" "PGDMP"
              "backup.dump" None
              {| Pipeline.sizeBytes := 0; Pipeline.tablesCount := 0 |})
    as (_ & Hdump & _ & Hupload & _).
  - vm_compute. discriminate.
  - split; [apply Hdump | apply Hupload]; vm_compute; reflexivity.
Defined.

(** The two races are independent: a dump of 14 minutes followed by an
    upload of 19 minutes succeeds under the budget of 20 minutes. *)
Example slow_run_succeeds :
  let run :=
    Pipeline.backupAndUploadDatabase Scenario.slow "postgres://u@h/mydb"
      "mydb.dump" None in
  Eff.result run
  = inr {| Pipeline.provider := "cloudflare";
           Pipeline.url :=
             "https://cdn.example/savedb/production/backup-20250102T030405-mydb.dump.sql" |}
  /\ Eff.elapsed run = 33 * 60 * 1000 + 50
  /\ Budget.timeoutMs 0 = 20 * 60 * 1000.
Proof. vm_compute. repeat split. Qed.

(** C3 (as stated) fails: with the budget of 20 minutes, attempts that
    lose the connection after 8, 8 and 1 minutes end the dump step after
    17 minutes and 10 seconds with the timed-out error. *)
Lemma C3_counterexample : ~ Pipeline.dump_may_use_full_budget.
Proof.
  intros H.
  specialize (H Scenario.flaky "postgres://u@h/mydb" "mydb.dump"
                {| Pipeline.sizeBytes := 0; Pipeline.tablesCount := 0 |}
                (Eff.newError Pipeline.timedOutMessage)).
  vm_compute in H. apply H; try reflexivity. discriminate.
Qed.

(* ================================================================== *)
(** * Further properties of the pipeline, the clients and the drive upload *)
(* ================================================================== *)

(** ** More on the dump executor *)

Section ExecutorBounds.

Variable pgDumpPath connectionUrl outputPath : string.
Variable timeout : Z.
Variable maxRetries : nat.
Variable retryDelayMs : Z.
Variable pg_dump : nat -> Dump.Attempt.

Let tryAttempt :=
  Dump.tryAttempt pgDumpPath connectionUrl outputPath timeout retryDelayMs pg_dump.
Let attempts :=
  Dump.attempts pgDumpPath connectionUrl outputPath timeout maxRetries
    retryDelayMs pg_dump.
Let argv := Dump.argv pgDumpPath connectionUrl outputPath.

Lemma elapsed_spawn_le (a : Dump.Attempt) :
  Eff.elapsed (Dump.spawn timeout argv a) <= timeout.
Proof.
  unfold Dump.spawn.
  destruct (Z.leb_spec timeout (Eff.took (Dump.run a))); cbn; lia.
Qed.

Lemma elapsed_tryAttempt (attempt : nat) :
  Eff.elapsed (tryAttempt attempt)
  = (if (0 <? attempt)%nat then retryDelayMs else 0)
    + Eff.elapsed (Dump.spawn timeout argv (pg_dump attempt)).
Proof.
  unfold tryAttempt, Dump.tryAttempt. rewrite elapsed_bind.
  assert (Hpre : Eff.result (if (0 <? attempt)%nat
                             then Eff.delay retryDelayMs else Eff.ret tt)
                 = inr tt) by now destruct (0 <? attempt)%nat.
  rewrite Hpre, elapsed_bind. fold argv.
  assert (Hel : Eff.elapsed (if (0 <? attempt)%nat
                             then Eff.delay retryDelayMs else Eff.ret tt)
                = if (0 <? attempt)%nat then retryDelayMs else 0)
    by now destruct (0 <? attempt)%nat.
  rewrite Hel. f_equal.
  destruct (Eff.result (Dump.spawn timeout argv (pg_dump attempt)))
    as [e|r]; [reflexivity|].
  destruct (Dump.exitCode r) as [[| |]|]; cbn; lia.
Qed.

Lemma elapsed_attempts_step (remaining attempt : nat) (last : option Eff.JsError) :
  Eff.elapsed (attempts (S remaining) attempt last)
  = Eff.elapsed (tryAttempt attempt)
    + match Eff.result (tryAttempt attempt) with
      | inl error =>
          match Dump.catchAttempt pgDumpPath maxRetries attempt error with
          | Dump.Rethrow _ => 0
          | Dump.NextAttempt =>
              Eff.elapsed (attempts remaining (S attempt) (Some error))
          end
      | inr _ => 0
      end.
Proof.
  unfold attempts. cbn [Dump.attempts]. rewrite elapsed_catch.
  fold tryAttempt. destruct (Eff.result (tryAttempt attempt)) as [e|r]; [|lia].
  destruct (Dump.catchAttempt pgDumpPath maxRetries attempt e); reflexivity.
Qed.

Hypothesis timeout_nonneg : 0 <= timeout.
Hypothesis delay_nonneg : 0 <= retryDelayMs.

Lemma elapsed_attempts_le (remaining : nat) :
  forall attempt last,
    Eff.elapsed (attempts remaining attempt last)
    <= Z.of_nat remaining * (retryDelayMs + timeout).
Proof.
  induction remaining as [|remaining IH]; intros attempt last.
  - cbn. lia.
  - rewrite elapsed_attempts_step, elapsed_tryAttempt.
    pose proof (elapsed_spawn_le (pg_dump attempt)) as Hs.
    assert (Hpre : (if (0 <? attempt)%nat then retryDelayMs else 0) <= retryDelayMs)
      by (destruct (0 <? attempt)%nat; lia).
    assert (Hrest :
              match Eff.result (tryAttempt attempt) with
              | inl error =>
                  match Dump.catchAttempt pgDumpPath maxRetries attempt error with
                  | Dump.Rethrow _ => 0
                  | Dump.NextAttempt =>
                      Eff.elapsed (attempts remaining (S attempt) (Some error))
                  end
              | inr _ => 0
              end <= Z.of_nat remaining * (retryDelayMs + timeout)).
    { destruct (Eff.result (tryAttempt attempt)) as [e|r]; [|nia].
      destruct (Dump.catchAttempt pgDumpPath maxRetries attempt e); [nia|].
      apply IH. }
    nia.
Qed.

(** The first attempt is not preceded by a pause. *)
Lemma elapsed_executePgDump_le :
  Eff.elapsed (attempts (S maxRetries) 0%nat None)
  <= timeout + Z.of_nat maxRetries * (retryDelayMs + timeout).
Proof.
  rewrite elapsed_attempts_step, elapsed_tryAttempt.
  cbn [Nat.ltb Nat.leb].
  pose proof (elapsed_spawn_le (pg_dump 0%nat)) as Hs.
  destruct (Eff.result (tryAttempt 0%nat)) as [e|r]; [|nia].
  destruct (Dump.catchAttempt pgDumpPath maxRetries 0%nat e); [nia|].
  pose proof (elapsed_attempts_le maxRetries 1%nat (Some e)). lia.
Qed.

End ExecutorBounds.

Section ExecutorPost.

Variable pgDumpPath connectionUrl outputPath : string.
Variable timeout : Z.
Variable maxRetries : nat.
Variable retryDelayMs : Z.
Variable pg_dump : nat -> Dump.Attempt.

(** The executor returns only what an attempt returned, and an attempt
    returns only a result whose exit code is 0. *)
Lemma attempts_returns_zero (remaining : nat) :
  forall attempt last r,
    Eff.result (Dump.attempts pgDumpPath connectionUrl outputPath timeout
                  maxRetries retryDelayMs pg_dump remaining attempt last) = inr r ->
    Dump.exitCode r = Some 0.
Proof.
  induction remaining as [|remaining IH]; intros attempt last r H.
  - discriminate H.
  - cbn [Dump.attempts] in H. rewrite result_catch in H.
    destruct (Eff.result (Dump.tryAttempt _ _ _ _ _ _ attempt)) as [e|r0] eqn:Htry.
    + destruct (Dump.catchAttempt _ _ _ _); [discriminate H|].
      now apply IH in H.
    + injection H as <-.
      rewrite result_tryAttempt in Htry.
      destruct (Eff.result (Dump.spawn _ _ _)) as [e|r1]; [discriminate|].
      destruct (Dump.exitCode r1) as [[| |]|] eqn:Hc; try discriminate.
      injection Htry as <-. exact Hc.
Qed.

End ExecutorPost.

(** X1.  Whatever the dump utility does, the executor as the backup
    calls it settles within three time limits of 15 minutes and two
    pauses of 5 seconds, and what it returns is the result of a process
    that exited with code 0. *)
Theorem X1_executor_bounded
  (w : Pipeline.World) (pgDumpPath connectionUrl outputPath : string) :
  let run := Pipeline.executor w pgDumpPath connectionUrl outputPath in
  Eff.elapsed run <= 3 * (15 * 60 * 1000) + 2 * 5000
  /\ (forall r, Eff.result run = inr r -> Dump.exitCode r = Some 0).
Proof.
  intros run. split.
  - pose proof (elapsed_executePgDump_le pgDumpPath connectionUrl outputPath
                  Pipeline.fifteenMinutes 2 Dump.default_retryDelayMs
                  (Pipeline.pg_dump w)) as H.
    unfold run, Pipeline.executor, Dump.executePgDump.
    unfold Pipeline.fifteenMinutes, Dump.default_retryDelayMs in *.
    cbn [Z.of_nat Pos.of_succ_nat Pos.succ] in H. lia.
  - intros r. unfold run, Pipeline.executor, Dump.executePgDump.
    apply attempts_returns_zero.
Qed.

Lemma X1_executor_bounded_witness :
  Dump.exitCode
    {| Dump.exitCode := Some 0; Dump.stdout := ""; Dump.res_stderr := "";
       Dump.timedOut := false |} = Some 0.
Proof.
  apply (X1_executor_bounded Scenario.calm "/usr/bin/pg_dump" "postgres://u@h/mydb"
           "/app/out"). reflexivity.
Defined.

(** ** More on backupPostgresDatabase *)

Lemma result_guardedDump
  (w : Pipeline.World) (pgDumpPath connectionUrl outputPath fileName : string) :
  let exec := Pipeline.executor w pgDumpPath connectionUrl outputPath in
  let wrap (e : Eff.JsError) :=
    if String.eqb (Eff.name e) "AbortError"
       || (Pipeline.fifteenMinutes <=? Eff.elapsed exec)
    then Eff.newError Pipeline.timedOutMessage
    else Eff.newError ("Database backup failed: " ++ Eff.message e) in
  Eff.result (Pipeline.guardedDump w pgDumpPath connectionUrl outputPath fileName)
  = match Eff.result exec with
    | inl e => inl (wrap e)
    | inr _ =>
        match Eff.outcome (Pipeline.stat_after_dump w) with
        | inl e => inl (wrap e)
        | inr size =>
            if size =? 0
            then inl (wrap (Eff.newError "Backup file is empty. The pg_dump command may have failed silently."))
            else inr fileName
        end
    end.
Proof.
  cbv zeta. unfold Pipeline.guardedDump. rewrite result_catch, result_bind.
  destruct (Eff.result (Pipeline.executor _ _ _ _)) as [e|r].
  - destruct (_ || _); reflexivity.
  - rewrite result_bind. unfold Eff.perform at 1. cbn [Eff.result snd].
    destruct (Eff.outcome (Pipeline.stat_after_dump w)) as [e|size].
    + destruct (_ || _); reflexivity.
    + destruct (size =? 0); [|reflexivity].
      cbn [Eff.throw Eff.result snd Eff.newError Eff.name].
      destruct (_ || _); reflexivity.
Qed.

Lemma trace_guardedDump
  (w : Pipeline.World) (pgDumpPath connectionUrl outputPath fileName : string) :
  let exec := Pipeline.executor w pgDumpPath connectionUrl outputPath in
  Eff.trace (Pipeline.guardedDump w pgDumpPath connectionUrl outputPath fileName)
  = (Eff.trace exec
     ++ match Eff.result exec with
        | inl _ => []
        | inr _ => [Eff.Stat outputPath]
        end)%list.
Proof.
  cbv zeta. unfold Pipeline.guardedDump. rewrite trace_catch, result_bind, trace_bind.
  destruct (Eff.result (Pipeline.executor _ _ _ _)) as [e|r].
  - destruct (_ || _); reflexivity.
  - rewrite result_bind, trace_bind. unfold Eff.perform. cbn [Eff.result Eff.trace snd fst].
    destruct (Eff.outcome (Pipeline.stat_after_dump w)) as [e|size].
    + destruct (_ || _); cbn [Eff.throw Eff.trace fst]; now rewrite !app_nil_r.
    + destruct (size =? 0); cbn [Eff.throw Eff.ret Eff.result Eff.trace snd fst];
        [destruct (_ || _); cbn [Eff.throw Eff.trace fst]|];
        now rewrite ?app_nil_r.
Qed.

(** ** The artifact on disk *)

Lemma backupFileName_shape (now : Artifact.DateTime) (outputName : string) :
  Artifact.backupFileName now outputName
  = "backup-" ++ Artifact.timestamp now ++ "-" ++ Artifact.cleanFileName outputName
    ++ (if JS.endsWith ".sql" (Artifact.cleanFileName outputName)
        then "" else ".sql").
Proof.
  unfold Artifact.backupFileName, Artifact.sqlFileName.
  destruct (JS.endsWith ".sql" (Artifact.cleanFileName outputName));
    [now rewrite append_empty_r | reflexivity].
Qed.

Lemma outputPath_shape (cwd fileName : string) :
  Artifact.outputPath cwd fileName = cwd ++ "/public/uploads/" ++ fileName.
Proof.
  unfold Artifact.outputPath, Artifact.uploadsDir.
  now rewrite append_assoc.
Qed.

(** Every process the backup starts is told to write to the one path,
    and the only file inspected is the one at that path. *)
Lemma writesTo_backupPostgresDatabase
  (w : Pipeline.World) (connectionUrl outputName : string) :
  Forall
    (Observe.writesTo connectionUrl
       (Artifact.outputPath (Pipeline.cwd w)
          (Artifact.backupFileName (Pipeline.now w) outputName)))
    (Eff.trace (Pipeline.backupPostgresDatabase w connectionUrl outputName)).
Proof.
  unfold Pipeline.backupPostgresDatabase.
  apply all_bind; [apply all_perform; exact I|]. intros _.
  apply all_bind.
  { unfold Pipeline.findPgDump. apply all_catch.
    - apply all_bind; [apply all_perform; exact I | intros; apply all_ret].
    - intros; apply all_throw. }
  intros pgDumpPath. apply all_bind.
  { unfold Pipeline.parseDbName. destruct (Pipeline.dbNameOf _ _);
      [apply all_ret | apply all_throw]. }
  intros _. unfold Pipeline.guardedDump. apply all_catch.
  - apply all_bind.
    + apply all_executePgDump; [intros ms; exact I|].
      exists pgDumpPath. reflexivity.
    + intros _. apply all_bind; [apply all_perform; reflexivity|].
      intros size. destruct (size =? 0); [apply all_throw | apply all_ret].
  - intros e. destruct (_ || _); apply all_throw.
Qed.

(** A backup that returns has started a dump process and inspected the
    file it wrote, and returns the name of that file. *)
Lemma backupPostgresDatabase_returns
  (w : Pipeline.World) (connectionUrl outputName name : string) :
  let fileName := Artifact.backupFileName (Pipeline.now w) outputName in
  let path := Artifact.outputPath (Pipeline.cwd w) fileName in
  let run := Pipeline.backupPostgresDatabase w connectionUrl outputName in
  Eff.result run = inr name ->
  name = fileName
  /\ (exists pgDumpPath,
        In (Eff.Spawn Pipeline.fifteenMinutes
              (Dump.argv pgDumpPath connectionUrl path)) (Eff.trace run))
  /\ In (Eff.Stat path) (Eff.trace run).
Proof.
  cbv zeta. unfold Pipeline.backupPostgresDatabase.
  rewrite result_bind, trace_bind.
  destruct (Eff.result (Eff.perform _ (Pipeline.mkdir w))) as [e|[]];
    [discriminate|].
  rewrite result_bind, trace_bind.
  destruct (Eff.result (Pipeline.findPgDump w)) as [e|pgDumpPath];
    [discriminate|].
  rewrite result_bind, trace_bind.
  destruct (Eff.result (Pipeline.parseDbName w connectionUrl)) as [e|dbName];
    [discriminate|].
  rewrite result_guardedDump, trace_guardedDump.
  pose proof (trace_executePgDump pgDumpPath connectionUrl
                (Artifact.outputPath (Pipeline.cwd w)
                   (Artifact.backupFileName (Pipeline.now w) outputName))
                Pipeline.fifteenMinutes 2 Dump.default_retryDelayMs
                (Pipeline.pg_dump w)) as Hshape.
  cbv zeta in Hshape.
  change (Dump.attempts pgDumpPath connectionUrl
            (Artifact.outputPath (Pipeline.cwd w)
               (Artifact.backupFileName (Pipeline.now w) outputName))
            Pipeline.fifteenMinutes 2 Dump.default_retryDelayMs
            (Pipeline.pg_dump w) 3 0 None)
    with (Pipeline.executor w pgDumpPath connectionUrl
            (Artifact.outputPath (Pipeline.cwd w)
               (Artifact.backupFileName (Pipeline.now w) outputName)))
    in Hshape.
  destruct (Eff.result (Pipeline.executor w pgDumpPath connectionUrl _))
    as [e|r]; [discriminate|].
  destruct (Eff.outcome (Pipeline.stat_after_dump w)) as [e|size];
    [discriminate|].
  destruct (size =? 0); [discriminate|].
  intros [= <-]. split; [reflexivity|]. split.
  - exists pgDumpPath. rewrite Hshape.
    rewrite !in_app_iff. right. right. right. left. now left.
  - rewrite !in_app_iff. right. right. right. right. now left.
Qed.

(** C5 (amended).  The dump is written to the file
    [backup-<timestamp>-<name>] of the uploads directory: every dump
    process of a backup is started with that path after [-f], the file
    inspected after the dump is the one at that path, and a backup that
    returns has started such a process and returns that file name.  The
    timestamp is the UTC time, [YYYYMMDDTHHMMSS] for the years up to
    9999 (from the year 10000 on the year is written with a plus sign and
    six digits, and the stamp is not of that form); the name is the
    output name with every path separator replaced by a hyphen, followed
    by [.sql] unless it already ends so. *)
Theorem C5_artifact_name
  (w : Pipeline.World) (connectionUrl outputName : string) :
  let now := Pipeline.now w in
  let clean := Artifact.cleanFileName outputName in
  let fileName :=
    "backup-" ++ Artifact.timestamp now ++ "-" ++ clean
    ++ (if JS.endsWith ".sql" clean then "" else ".sql") in
  let path := Pipeline.cwd w ++ "/public/uploads/" ++ fileName in
  let run := Pipeline.backupPostgresDatabase w connectionUrl outputName in
  Forall (Observe.writesTo connectionUrl path) (Eff.trace run)
  /\ (forall name,
        Eff.result run = inr name ->
        name = fileName
        /\ (exists pgDumpPath,
              In (Eff.Spawn (15 * 60 * 1000)
                    [pgDumpPath; connectionUrl; "-v"; "-Fc"; "-f"; path])
                 (Eff.trace run))
        /\ In (Eff.Stat path) (Eff.trace run))
  /\ Artifact.timestamp now
     = Artifact.isoYear (Artifact.year now)
       ++ Artifact.digits 2 (Artifact.month now)
       ++ Artifact.digits 2 (Artifact.day now) ++ "T"
       ++ Artifact.digits 2 (Artifact.hours now)
       ++ Artifact.digits 2 (Artifact.minutes now)
       ++ Artifact.digits 2 (Artifact.seconds now)
  /\ ((Artifact.year now < 10 ^ 4)%nat ->
      Artifact.isoYear (Artifact.year now) = Artifact.digits 4 (Artifact.year now)
      /\ Artifact.compactStamp (Artifact.timestamp now) = true)
  /\ ((10 ^ 4 <= Artifact.year now)%nat ->
      Artifact.isoYear (Artifact.year now)
      = "+" ++ Artifact.digits 6 (Artifact.year now)
      /\ Artifact.compactStamp (Artifact.timestamp now) = false)
  /\ JS.mentions "/" clean = false
  /\ JS.mentions JS.backslash clean = false
  /\ String.length clean = String.length outputName.
Proof.
  intros now clean fileName path run.
  assert (Hname : Artifact.backupFileName now outputName = fileName)
    by apply backupFileName_shape.
  assert (Hpath : Artifact.outputPath (Pipeline.cwd w)
                    (Artifact.backupFileName now outputName) = path)
    by (rewrite Hname; apply outputPath_shape).
  split; [|split; [|split; [|split; [|split]]]].
  - rewrite <- Hpath. apply writesTo_backupPostgresDatabase.
  - intros name Hret.
    destruct (backupPostgresDatabase_returns w connectionUrl outputName name Hret)
      as (Hn & Hspawn & Hstat).
    fold now in Hn, Hspawn, Hstat. rewrite Hpath in Hspawn, Hstat.
    rewrite Hname in Hn. split; [exact Hn | split; [exact Hspawn | exact Hstat]].
  - apply timestamp_stamp.
  - intros Hyear. apply Nat.ltb_lt in Hyear.
    rewrite compactStamp_timestamp. unfold Artifact.isoYear.
    rewrite Hyear. split; reflexivity.
  - intros Hyear. apply Nat.ltb_ge in Hyear.
    rewrite compactStamp_timestamp. unfold Artifact.isoYear.
    rewrite Hyear. split; reflexivity.
  - apply cleanFileName_clean.
Qed.

Lemma C5_artifact_name_witness :
  Eff.result
    (Pipeline.backupPostgresDatabase Scenario.calm "postgres://u@h/mydb"
       "team/mydb.dump")
  = inr "backup-20250102T030405-team-mydb.dump.sql"
  /\ (exists pgDumpPath,
        In (Eff.Spawn (15 * 60 * 1000)
              [pgDumpPath; "postgres://u@h/mydb"; "-v"; "-Fc"; "-f";
               "/app/public/uploads/backup-20250102T030405-team-mydb.dump.sql"])
           (Eff.trace
              (Pipeline.backupPostgresDatabase Scenario.calm
                 "postgres://u@h/mydb" "team/mydb.dump")))
  /\ Artifact.compactStamp (Artifact.timestamp Scenario.sampleDate) = true.
Proof.
  destruct (C5_artifact_name Scenario.calm "postgres://u@h/mydb" "team/mydb.dump")
    as (_ & Hret & _ & Hcompact & _).
  destruct (Hret "backup-20250102T030405-team-mydb.dump.sql" eq_refl)
    as (_ & Hspawn & _).
  split; [reflexivity | split; [exact Hspawn|]].
  apply Hcompact. apply Nat.ltb_lt. reflexivity.
Defined.

(** C5 (as stated) fails: for the name [my/db], handed over as
    [my/db.dump], the file is [backup-20250102T030405-my-db.dump.sql],
    not [backup-20250102T030405-mydb.dump]; no reading of the requested
    name gives a file that ends in [.dump]. *)
Lemma C5_counterexample :
  Artifact.backupFileName Scenario.sampleDate ("my/db" ++ ".dump")
  = "backup-20250102T030405-my-db.dump.sql"
  /\ Artifact.backupFileName Scenario.sampleDate ("my/db" ++ ".dump")
     <> Artifact.artifact_name_spec Scenario.sampleDate "my/db"
  /\ Artifact.backupFileName Scenario.sampleDate "my/db"
     <> Artifact.artifact_name_spec Scenario.sampleDate "my/db"
  /\ JS.endsWith ".dump"
       (Artifact.backupFileName Scenario.sampleDate ("mydb" ++ ".dump")) = false.
Proof. repeat split; vm_compute; discriminate. Qed.

(** X2.  The guarded dump returns the file name it was given exactly
    when the executor returned and the file then has a non-zero size.
    A file of size zero is an error raised after the executor is done:
    nothing is started after the [stat], so it is not retried.  Every
    error leaves the guarded dump as a fresh error that is either the
    timed-out message or the original message behind the prefix
    [Database backup failed: ]. *)
Theorem X2_guardedDump_outcomes
  (w : Pipeline.World) (pgDumpPath connectionUrl outputPath fileName : string) :
  let exec := Pipeline.executor w pgDumpPath connectionUrl outputPath in
  let dump := Pipeline.guardedDump w pgDumpPath connectionUrl outputPath fileName in
  (forall name,
      Eff.result dump = inr name <->
      name = fileName
      /\ (exists r, Eff.result exec = inr r)
      /\ (exists size, Eff.outcome (Pipeline.stat_after_dump w) = inr size
                       /\ size <> 0))
  /\ (forall r,
        Eff.result exec = inr r ->
        Eff.outcome (Pipeline.stat_after_dump w) = inr 0 ->
        (exists e, Eff.result dump = inl e)
        /\ Eff.trace dump = (Eff.trace exec ++ [Eff.Stat outputPath])%list
        /\ Dump.spawns (Eff.trace dump) = Dump.spawns (Eff.trace exec))
  /\ (forall e,
        Eff.result dump = inl e ->
        e = Eff.newError Pipeline.timedOutMessage
        \/ exists cause,
             e = Eff.newError ("Database backup failed: " ++ cause)).
Proof.
  intros exec dump.
  pose proof (result_guardedDump w pgDumpPath connectionUrl outputPath fileName)
    as Hres.
  pose proof (trace_guardedDump w pgDumpPath connectionUrl outputPath fileName)
    as Htr.
  cbv zeta in Hres, Htr. fold exec dump in Hres, Htr.
  split; [|split].
  - intros name. rewrite Hres. split.
    + destruct (Eff.result exec) as [e|r]; [discriminate|].
      destruct (Eff.outcome (Pipeline.stat_after_dump w)) as [e|size];
        [discriminate|].
      destruct (Z.eqb_spec size 0); [discriminate|].
      intros [= <-]. eauto 6.
    + intros (-> & [r Hr] & size & Hsize & Hne). rewrite Hr, Hsize.
      destruct (Z.eqb_spec size 0); [contradiction | reflexivity].
  - intros r Hr Hzero. rewrite Hres, Htr, Hr, Hzero. cbn [Z.eqb].
    split; [eauto | split; [reflexivity|]].
    rewrite spawns_app. cbn. lia.
  - intros e. rewrite Hres.
    assert (Hwrap : forall c,
               (if String.eqb (Eff.name c) "AbortError"
                   || (Pipeline.fifteenMinutes <=? Eff.elapsed exec)
                then Eff.newError Pipeline.timedOutMessage
                else Eff.newError ("Database backup failed: " ++ Eff.message c))
               = e ->
               e = Eff.newError Pipeline.timedOutMessage
               \/ exists cause,
                    e = Eff.newError ("Database backup failed: " ++ cause)).
    { intros c <-. destruct (_ || _); eauto. }
    destruct (Eff.result exec) as [e0|r].
    + intros [= H]. now apply Hwrap in H.
    + destruct (Eff.outcome (Pipeline.stat_after_dump w)) as [e0|size].
      * intros [= H]. now apply Hwrap in H.
      * destruct (size =? 0); [|discriminate].
        intros [= H].
        exact (Hwrap (Eff.newError "Backup file is empty. The pg_dump command may have failed silently.") H).
Qed.

Lemma X2_guardedDump_outcomes_witness :
  Eff.result
    (Pipeline.guardedDump Scenario.calm "/usr/bin/pg_dump" "postgres://u@h/mydb"
       "/app/out" "backup.sql") = inr "backup.sql".
Proof.
  apply (X2_guardedDump_outcomes Scenario.calm "/usr/bin/pg_dump"
           "postgres://u@h/mydb" "/app/out" "backup.sql").
  split; [reflexivity|]. split; [eexists; reflexivity|].
  exists 4096. split; [reflexivity | discriminate].
Defined.

(** ** The stages of a run *)

Lemma all_finally (P : Eff.Action -> Prop) {A} (m : Eff.M A) (f : Eff.M unit) :
  Forall P (Eff.trace m) -> Forall P (Eff.trace f) ->
  Forall P (Eff.trace (Eff.finally m f)).
Proof. intros Hm Hf. apply Forall_app. now split. Qed.

Lemma all_emit (P : Eff.Action -> Prop) (a : Eff.Action) :
  P a -> Forall P (Eff.trace (Eff.emit a)).
Proof. intros Ha. now repeat constructor. Qed.

(** The probe and the size estimator report no progress, put no object
    and start no process. *)
Lemma all_testDatabaseConnection (P : Eff.Action -> Prop)
  (w : Pipeline.World) (connectionUrl : string) :
  (forall a, Eff.isProgress a = false -> Eff.isSpawn a = false ->
             Observe.putsNothing a -> P a) ->
  Forall P (Eff.trace (Pipeline.testDatabaseConnection w connectionUrl)).
Proof.
  intros HP. unfold Pipeline.testDatabaseConnection.
  apply all_catch; [|intros; apply all_ret].
  apply all_bind; [apply all_perform, HP; easy|]. intros _.
  apply all_bind; [apply all_emit, HP; easy|]. intros _.
  apply all_finally; [|apply all_perform, HP; easy].
  apply all_bind; [apply all_perform, HP; easy|]. intros _.
  apply all_finally; [|apply all_perform, HP; easy].
  apply all_bind; [apply all_perform, HP; easy|]. intros _. apply all_ret.
Qed.

Lemma all_checkDatabaseSize (P : Eff.Action -> Prop)
  (w : Pipeline.World) (connectionUrl : string) :
  (forall a, Eff.isProgress a = false -> Eff.isSpawn a = false ->
             Observe.putsNothing a -> P a) ->
  Forall P (Eff.trace (Pipeline.checkDatabaseSize w connectionUrl)).
Proof.
  intros HP. unfold Pipeline.checkDatabaseSize.
  apply all_catch; [|intros; apply all_ret].
  apply all_bind.
  { unfold Pipeline.parseDbName. destruct (Pipeline.dbNameOf _ _);
      [apply all_ret | apply all_throw]. }
  intros _.
  apply all_bind; [apply all_perform, HP; easy|]. intros _.
  apply all_bind; [apply all_emit, HP; easy|]. intros _.
  apply all_finally; [|apply all_perform, HP; easy].
  apply all_bind; [apply all_perform, HP; easy|]. intros size.
  apply all_bind; [apply all_perform, HP; easy|]. intros tables. apply all_ret.
Qed.

Lemma putsNothing_backupPostgresDatabase
  (w : Pipeline.World) (connectionUrl outputName : string) :
  Forall Observe.putsNothing
    (Eff.trace (Pipeline.backupPostgresDatabase w connectionUrl outputName)).
Proof.
  unfold Pipeline.backupPostgresDatabase.
  apply all_bind; [now apply all_perform|]. intros _.
  apply all_bind.
  { unfold Pipeline.findPgDump. apply all_catch.
    - apply all_bind; [now apply all_perform | intros; apply all_ret].
    - intros; apply all_throw. }
  intros pgDumpPath. apply all_bind.
  { unfold Pipeline.parseDbName. destruct (Pipeline.dbNameOf _ _);
      [apply all_ret | apply all_throw]. }
  intros _. unfold Pipeline.guardedDump. apply all_catch.
  - apply all_bind; [now apply all_executePgDump|]. intros _.
    apply all_bind; [now apply all_perform|]. intros size.
    destruct (size =? 0); [apply all_throw | apply all_ret].
  - intros e. destruct (_ || _); apply all_throw.
Qed.

Lemma percents_app (t u : list Eff.Action) :
  Observe.percents (t ++ u) = (Observe.percents t ++ Observe.percents u)%list.
Proof.
  induction t as [|a t IH]; [reflexivity|].
  destruct a; cbn [Observe.percents app]; rewrite ?IH; reflexivity.
Qed.

Lemma percents_quiet (t : list Eff.Action) :
  Forall Eff.quiet t -> Observe.percents t = [].
Proof.
  induction 1 as [|a t Ha _ IH]; [reflexivity|].
  destruct a; cbn [Observe.percents]; try exact IH. discriminate Ha.
Qed.

Lemma keysWritten_app (t u : list Eff.Action) :
  Upload.keysWritten (t ++ u)
  = (Upload.keysWritten t ++ Upload.keysWritten u)%list.
Proof.
  induction t as [|a t IH]; [reflexivity|].
  destruct a; cbn [Upload.keysWritten app]; rewrite ?IH; reflexivity.
Qed.

Lemma keysWritten_none (t : list Eff.Action) :
  Forall Observe.putsNothing t -> Upload.keysWritten t = [].
Proof.
  induction 1 as [|a t Ha _ IH]; [reflexivity|].
  destruct a; cbn [Upload.keysWritten]; try exact IH. destruct Ha.
Qed.

Lemma trace_race {A} (op : Eff.M A) (ms : Z) (msg : string) :
  Eff.trace (Eff.race op ms msg) = Eff.trace op.
Proof. unfold Eff.race. now destruct (Eff.elapsed op <? ms). Qed.

(** What the upload step leaves in the trace. *)
Lemma trace_uploadStep (w : Pipeline.World) (fileBuffer fileName : string)
  (storage : option Upload.ICloudStorage) (size : Pipeline.SizeEstimate) :
  Observe.percents (Eff.trace (Pipeline.uploadStep w fileBuffer fileName storage size))
  = []
  /\ Upload.keysWritten
       (Eff.trace (Pipeline.uploadStep w fileBuffer fileName storage size))
     = [Upload.objectKey (Pipeline.env w) fileName].
Proof.
  unfold Pipeline.uploadStep. rewrite trace_race.
  unfold Upload.uploadFileBuffer, Upload.objectKey. rewrite trace_bind.
  unfold Eff.perform. cbn [Eff.result Eff.trace snd fst].
  destruct (Eff.outcome (Pipeline.send w)); split; reflexivity.
Qed.

(** A successful dump step returns the generated file name. *)
Lemma dumpStep_returns (w : Pipeline.World) (connectionUrl outputName : string)
  (size : Pipeline.SizeEstimate) (fileName : string) :
  Eff.result (Pipeline.dumpStep w connectionUrl outputName size) = inr fileName ->
  fileName = Artifact.backupFileName (Pipeline.now w) outputName.
Proof.
  unfold Pipeline.dumpStep, Eff.race.
  destruct (Eff.elapsed _ <? _); [|discriminate].
  unfold Pipeline.backupPostgresDatabase.
  rewrite result_bind. destruct (Eff.result (Eff.perform _ _)); [discriminate|].
  rewrite result_bind. destruct (Eff.result (Pipeline.findPgDump w)) as [|p];
    [discriminate|].
  rewrite result_bind. destruct (Eff.result (Pipeline.parseDbName _ _));
    [discriminate|].
  rewrite result_guardedDump.
  destruct (Eff.result (Pipeline.executor _ _ _ _)); [discriminate|].
  destruct (Eff.outcome (Pipeline.stat_after_dump w)); [discriminate|].
  destruct (_ =? 0); [discriminate|]. now intros [= <-].
Qed.

Lemma result_perform {A} (a : Eff.Action) (c : Eff.Call A) :
  Eff.result (Eff.perform a c) = Eff.outcome c.
Proof. reflexivity. Qed.

Lemma trace_perform {A} (a : Eff.Action) (c : Eff.Call A) :
  Eff.trace (Eff.perform a c) = [a].
Proof. reflexivity. Qed.

Ltac close :=
  split; [eexists; reflexivity
        | split; [reflexivity | first [reflexivity | left; reflexivity | right; left; reflexivity | right; right; reflexivity]]].

Lemma dumpAndUpload_stages
  (w : Pipeline.World) (connectionUrl outputName : string)
  (storage : option Upload.ICloudStorage) (size : Pipeline.SizeEstimate) :
  let run := Pipeline.dumpAndUpload w connectionUrl outputName storage size in
  let key :=
    Upload.objectKey (Pipeline.env w)
      (Artifact.backupFileName (Pipeline.now w) outputName) in
  ((exists e, Eff.result run = inl e)
   /\ Upload.keysWritten (Eff.trace run) = []
   /\ (Observe.percents (Eff.trace run) = [10]
       \/ Observe.percents (Eff.trace run) = [10; 50]
       \/ Observe.percents (Eff.trace run) = [10; 50; 60]))
  \/ ((exists e, Eff.result run = inl e)
      /\ Upload.keysWritten (Eff.trace run) = [key]
      /\ Observe.percents (Eff.trace run) = [10; 50; 60; 70])
  \/ ((exists r, Eff.result run = inr r)
      /\ Upload.keysWritten (Eff.trace run) = [key]
      /\ Observe.percents (Eff.trace run) = [10; 50; 60; 70; 100]).
Proof.
  intros run key. unfold run, Pipeline.dumpAndUpload.
  rewrite result_bind, trace_bind. cbn [Eff.emit Eff.result Eff.trace snd fst].
  rewrite result_bind, trace_bind.
  assert (Hq : Observe.percents
                 (Eff.trace (Pipeline.dumpStep w connectionUrl outputName size))
               = []).
  { apply percents_quiet. unfold Pipeline.dumpStep.
    apply all_race, quiet_backupPostgresDatabase. }
  assert (Hk : Upload.keysWritten
                 (Eff.trace (Pipeline.dumpStep w connectionUrl outputName size))
               = []).
  { apply keysWritten_none. unfold Pipeline.dumpStep.
    apply all_race, putsNothing_backupPostgresDatabase. }
  destruct (Eff.result (Pipeline.dumpStep w connectionUrl outputName size))
    as [e|fileName] eqn:Hdump.
  { left. cbn [app Observe.percents Upload.keysWritten].
    rewrite Hq, Hk. close. }
  apply dumpStep_returns in Hdump. subst fileName.
  rewrite result_bind, trace_bind. cbn [Eff.emit Eff.result Eff.trace snd fst].
  rewrite result_bind, trace_bind. rewrite !result_perform, !trace_perform.
  destruct (Eff.outcome (Pipeline.stat_before_upload w)) as [e|stats].
  { left. rewrite !percents_app, !keysWritten_app, Hq, Hk. cbn. close. }
  destruct (stats =? 0).
  { left. rewrite !percents_app, !keysWritten_app, Hq, Hk. cbn. close. }
  rewrite result_bind, trace_bind. cbn [Eff.emit Eff.result Eff.trace snd fst].
  rewrite result_bind, trace_bind. rewrite !result_perform, !trace_perform.
  destruct (Eff.outcome (Pipeline.readFile w)) as [e|fileBuffer].
  { left. rewrite !percents_app, !keysWritten_app, Hq, Hk. cbn. close. }
  rewrite result_bind, trace_bind. cbn [Eff.emit Eff.result Eff.trace snd fst].
  rewrite result_bind, trace_bind.
  destruct (trace_uploadStep w fileBuffer
              (Artifact.backupFileName (Pipeline.now w) outputName) storage size)
    as [Hup Hkey].
  destruct (Eff.result (Pipeline.uploadStep _ _ _ _ _)) as [e|uploaded].
  { right. left. rewrite !percents_app, !keysWritten_app, Hq, Hk.
    cbn [app Observe.percents Upload.keysWritten]. rewrite Hup, Hkey. close. }
  right. right.
  rewrite result_bind, trace_bind. cbn [Eff.emit Eff.result Eff.trace snd fst Eff.ret].
  rewrite !percents_app, !keysWritten_app, Hq, Hk.
  cbn [app Observe.percents Upload.keysWritten].
  rewrite ?percents_app, ?keysWritten_app, Hup, Hkey.
  cbn. close.
Qed.

Lemma backupAndUploadDatabase_stages
  (w : Pipeline.World) (connectionUrl outputName : string)
  (storage : option Upload.ICloudStorage) :
  let run := Pipeline.backupAndUploadDatabase w connectionUrl outputName storage in
  ((exists e, Eff.result run = inl e)
      /\ Upload.keysWritten (Eff.trace run) = []
      /\ Observe.percents (Eff.trace run) = [2])
      \/ (exists size,
           Eff.result run
           = Eff.result (Pipeline.dumpAndUpload w connectionUrl outputName storage size)
           /\ Upload.keysWritten (Eff.trace run)
              = Upload.keysWritten
                  (Eff.trace (Pipeline.dumpAndUpload w connectionUrl outputName
                                storage size))
           /\ Observe.percents (Eff.trace run)
              = 2 :: 5 :: Observe.percents
                            (Eff.trace (Pipeline.dumpAndUpload w connectionUrl
                                          outputName storage size))).
Proof.
  intros run.
  assert (Hprobe_q : Observe.percents
                       (Eff.trace (Pipeline.testDatabaseConnection w connectionUrl)) = []).
  { apply percents_quiet, all_testDatabaseConnection. intros a Hp _ _. exact Hp. }
  assert (Hprobe_k : Upload.keysWritten
                       (Eff.trace (Pipeline.testDatabaseConnection w connectionUrl)) = []).
  { apply keysWritten_none, all_testDatabaseConnection. intros a _ _ Hn. exact Hn. }
  assert (Hsize_q : Observe.percents
                      (Eff.trace (Pipeline.checkDatabaseSize w connectionUrl)) = []).
  { apply percents_quiet, all_checkDatabaseSize. intros a Hp _ _. exact Hp. }
  assert (Hsize_k : Upload.keysWritten
                      (Eff.trace (Pipeline.checkDatabaseSize w connectionUrl)) = []).
  { apply keysWritten_none, all_checkDatabaseSize. intros a _ _ Hn. exact Hn. }
  unfold run, Pipeline.backupAndUploadDatabase.
  rewrite result_bind, trace_bind. cbn [Eff.emit Eff.result Eff.trace snd fst].
  rewrite result_bind, trace_bind.
  destruct (testDatabaseConnection_cases w connectionUrl) as (_ & t & Ht & _).
  rewrite Ht. destruct (Pipeline.success t); cbn [negb].
  - right.
    rewrite result_bind, trace_bind. cbn [Eff.emit Eff.result Eff.trace snd fst].
    rewrite result_bind, trace_bind.
    destruct (checkDatabaseSize_cases w connectionUrl) as [Hfail Hok].
    destruct (Pipeline.sizeFails w connectionUrl).
    + rewrite (Hfail eq_refl). eexists. split; [reflexivity|].
      rewrite !keysWritten_app, !percents_app, Hprobe_q, Hprobe_k, Hsize_q, Hsize_k.
      split; reflexivity.
    + destruct (Hok eq_refl) as (size & tables & _ & _ & Hres). rewrite Hres.
      eexists. split; [reflexivity|].
      rewrite !keysWritten_app, !percents_app, Hprobe_q, Hprobe_k, Hsize_q, Hsize_k.
      split; reflexivity.
  - left. cbn [Eff.throw Eff.result Eff.trace snd fst].
    rewrite !keysWritten_app, !percents_app, Hprobe_q, Hprobe_k.
    split; [eexists; reflexivity | split; reflexivity].
Qed.

(** X3.  The percentages a run reports are a non-empty prefix of
    2, 5, 10, 50, 60, 70, 100, hence never decrease, and the run returns
    a result exactly when it has reported all seven. *)
Theorem X3_progress_checkpoints
  (w : Pipeline.World) (connectionUrl outputName : string)
  (storage : option Upload.ICloudStorage) :
  let run := Pipeline.backupAndUploadDatabase w connectionUrl outputName storage in
  exists n,
    (1 <= n <= 7)%nat
    /\ Observe.percents (Eff.trace run) = firstn n Observe.checkpoints
    /\ ((exists r, Eff.result run = inr r) <-> n = 7%nat).
Proof.
  intros run.
  destruct (backupAndUploadDatabase_stages w connectionUrl outputName storage)
    as [([e He] & _ & Hp) | (size & Hres & _ & Hp)]; fold run in Hp.
  - fold run in He. exists 1%nat. rewrite Hp, He.
    split; [lia | split; [reflexivity | split]].
    + intros [r Hr]. discriminate Hr.
    + discriminate.
  - fold run in Hres. rewrite Hp, Hres.
    destruct (dumpAndUpload_stages w connectionUrl outputName storage size)
      as [([e He] & _ & [Hq | [Hq | Hq]]) | [([e He] & _ & Hq) | ([r Hr] & _ & Hq)]];
      rewrite Hq;
      [exists 3%nat | exists 4%nat | exists 5%nat | exists 6%nat | exists 7%nat];
      (split; [lia | split; [reflexivity|]]);
      try (rewrite He; split; [intros [r Hr]; discriminate Hr | discriminate]).
    rewrite Hr. split; eauto.
Qed.

(** X4.  A run puts at most one object, under the key made from the
    project name and the generated artifact name, and only after it has
    reported 70 percent; a run that returns has put exactly that
    object. *)
Theorem X4_one_upload_per_run
  (w : Pipeline.World) (connectionUrl outputName : string)
  (storage : option Upload.ICloudStorage) :
  let run := Pipeline.backupAndUploadDatabase w connectionUrl outputName storage in
  let key :=
    Upload.objectKey (Pipeline.env w)
      (Artifact.backupFileName (Pipeline.now w) outputName) in
  (Upload.keysWritten (Eff.trace run) = []
   \/ Upload.keysWritten (Eff.trace run) = [key])
  /\ (Upload.keysWritten (Eff.trace run) = [key]
      <-> In 70 (Observe.percents (Eff.trace run)))
  /\ ((exists r, Eff.result run = inr r) ->
      Upload.keysWritten (Eff.trace run) = [key]).
Proof.
  intros run key.
  destruct (backupAndUploadDatabase_stages w connectionUrl outputName storage)
    as [([e He] & Hk & Hp) | (size & Hres & Hk & Hp)];
    fold run in Hk, Hp; rewrite Hk, Hp.
  - fold run in He. split; [now left | split; [split|]].
    + discriminate.
    + cbn. intros [H|[]]. discriminate H.
    + intros [r Hr]. rewrite He in Hr. discriminate Hr.
  - fold run in Hres. rewrite Hres.
    destruct (dumpAndUpload_stages w connectionUrl outputName storage size)
      as [([e He] & Hk' & [Hq | [Hq | Hq]]) | [([e He] & Hk' & Hq) | ([r Hr] & Hk' & Hq)]];
      rewrite Hk', Hq; fold key.
    1-3: split; [now left | split; [split|]];
      [discriminate
      | cbn; intros H; repeat (destruct H as [H|H]; [discriminate H|]); destruct H
      | intros [r Hr]; rewrite He in Hr; discriminate Hr].
    1-2: split; [now right | split; [split|]];
      [intros _; cbn; auto 8 | reflexivity | reflexivity].
Qed.

Lemma X4_one_upload_per_run_witness :
  Upload.keysWritten
    (Eff.trace
       (Pipeline.backupAndUploadDatabase Scenario.calm "postgres://u@h/mydb"
          "my/db.dump" (Some Scenario.sampleStorage)))
  = ["savedb/backup-20250102T030405-my-db.dump.sql"].
Proof.
  apply (X4_one_upload_per_run Scenario.calm "postgres://u@h/mydb" "my/db.dump"
           (Some Scenario.sampleStorage)).
  eexists. reflexivity.
Defined.

(** ** A dump that outlasts the budget, seen from the route *)

Lemma run_after_probe_and_size
  (w : Pipeline.World) (connectionUrl outputName : string)
  (storage : option Upload.ICloudStorage)
  (t : Pipeline.ConnectionTest) (size : Pipeline.SizeEstimate) :
  Eff.result (Pipeline.testDatabaseConnection w connectionUrl) = inr t ->
  Pipeline.success t = true ->
  Eff.result (Pipeline.checkDatabaseSize w connectionUrl) = inr size ->
  let run := Pipeline.backupAndUploadDatabase w connectionUrl outputName storage in
  Eff.result run
  = Eff.result (Pipeline.dumpAndUpload w connectionUrl outputName storage size)
  /\ Route.progressEvents (Eff.trace run)
     = (Route.EvProgress (Route.ProgressData "Testing database connection..." 2)
        :: Route.EvProgress
             (Route.ProgressData
                "Database connection successful, analyzing size..." 5)
        :: Route.progressEvents
             (Eff.trace (Pipeline.dumpAndUpload w connectionUrl outputName
                           storage size)))%list.
Proof.
  intros Hprobe Hok Hsize run. unfold run, Pipeline.backupAndUploadDatabase.
  assert (Hq1 : Route.progressEvents
                  (Eff.trace (Pipeline.testDatabaseConnection w connectionUrl)) = []).
  { apply progressEvents_quiet, all_testDatabaseConnection. intros a Hp _ _. exact Hp. }
  assert (Hq2 : Route.progressEvents
                  (Eff.trace (Pipeline.checkDatabaseSize w connectionUrl)) = []).
  { apply progressEvents_quiet, all_checkDatabaseSize. intros a Hp _ _. exact Hp. }
  rewrite result_bind, trace_bind. cbn [Eff.emit Eff.result Eff.trace snd fst].
  rewrite result_bind, trace_bind, Hprobe, Hok. cbn [negb].
  rewrite result_bind, trace_bind. cbn [Eff.emit Eff.result Eff.trace snd fst].
  rewrite result_bind, trace_bind, Hsize.
  split; [reflexivity|].
  rewrite !progressEvents_app, Hq1, Hq2. reflexivity.
Qed.

(** X5.  When the probe succeeds and the dump does not settle within
    the budget computed from the estimated size, the non-streaming reply
    is the 504 body carrying the user message and the original
    timed-out message, and the streaming response is the head, the
    starting frame, the progress frames at 2, 5 and 10 percent, one error
    frame with the same texts, and the end. *)
Theorem X5_dump_timeout_reply
  (JSON_stringify : Route.Payload -> string)
  (generateBackupName : string -> string) (w : Pipeline.World)
  (backupData : Route.BackupData)
  (t : Pipeline.ConnectionTest) (size : Pipeline.SizeEstimate)
  (Hprobe : Eff.result (Pipeline.testDatabaseConnection w
                          (Route.connectionUrl backupData)) = inr t)
  (Hok : Pipeline.success t = true)
  (Hsize : Eff.result (Pipeline.checkDatabaseSize w
                         (Route.connectionUrl backupData)) = inr size)
  (Hlate : Budget.timeoutMs (Pipeline.sizeBytes size)
           <= Eff.elapsed
                (Pipeline.backupPostgresDatabase w (Route.connectionUrl backupData)
                   (Route.outputName generateBackupName backupData))) :
  let original := Pipeline.dumpTimeoutMessage size in
  Route.post JSON_stringify generateBackupName w false (inr backupData)
  = [Route.Json 504
       (Route.TimeoutBody Route.timeoutUserMessage Route.timeoutUserDetails
          original)]
  /\ Route.post JSON_stringify generateBackupName w true (inr backupData)
     = (Route.WriteHead 200
        :: Route.wire JSON_stringify
             [Route.EvProgress Route.Starting;
              Route.EvProgress
                (Route.ProgressData "Testing database connection..." 2);
              Route.EvProgress
                (Route.ProgressData
                   "Database connection successful, analyzing size..." 5);
              Route.EvProgress
                (Route.ProgressData (Pipeline.startMessage w size) 10);
              Route.EvError
                (Route.ErrorData Route.timeoutUserMessage
                   Route.timeoutUserDetails original)]
        ++ [Route.End])%list.
Proof.
  intros original.
  destruct (run_after_probe_and_size w (Route.connectionUrl backupData)
              (Route.outputName generateBackupName backupData)
              (match Route.destination backupData with
               | Route.ObjectStore st => Some st
               | Route.ManagedDrive => None
               end) t size Hprobe Hok Hsize) as [Hres Hev].
  destruct (dumpAndUpload_dump_timeout w (Route.connectionUrl backupData)
              (Route.outputName generateBackupName backupData)
              (match Route.destination backupData with
               | Route.ObjectStore st => Some st
               | Route.ManagedDrive => None
               end) size Hlate) as [Hres' Hev'].
  rewrite Hres' in Hres. rewrite Hev' in Hev.
  assert (Hinc : JS.includes "timed out" original = true).
  { unfold original, Pipeline.dumpTimeoutMessage. now apply includes_append. }
  split.
  - cbn [Route.post]. unfold Route.standard, Route.runBackup.
    rewrite Hres. cbn [Eff.newError Eff.message]. fold original. now rewrite Hinc.
  - cbn [Route.post]. unfold Route.streaming. rewrite onProgress_wire.
    unfold Route.runBackup. rewrite Hres, Hev.
    unfold Route.errorEvent. cbn [Eff.newError Eff.message]. fold original.
    rewrite Hinc. reflexivity.
Qed.

Lemma X5_dump_timeout_reply_witness :
  Route.post (fun _ => "{}") (fun _ => "mydb")
    (Scenario.world (Scenario.ok 20 tt) (Scenario.ok 30 0)
       (fun _ => Scenario.exits 0 "" (Scenario.minutes 16)) (Scenario.ok 2000 tt))
    false
    (inr {| Route.name := Some "mydb"; Route.connectionUrl := "postgres://u@h/mydb";
            Route.destination := Route.ManagedDrive |})
  = [Route.Json 504
       (Route.TimeoutBody Route.timeoutUserMessage Route.timeoutUserDetails
          "Database backup operation timed out after 20 minutes")].
Proof.
  refine (proj1 (X5_dump_timeout_reply (fun _ => "{}") (fun _ => "mydb")
           (Scenario.world (Scenario.ok 20 tt) (Scenario.ok 30 0)
              (fun _ => Scenario.exits 0 "" (Scenario.minutes 16))
              (Scenario.ok 2000 tt))
           {| Route.name := Some "mydb"; Route.connectionUrl := "postgres://u@h/mydb";
              Route.destination := Route.ManagedDrive |}
           {| Pipeline.success := true; Pipeline.test_message := "Connection successful";
              Pipeline.test_error := None |}
           {| Pipeline.sizeBytes := 0; Pipeline.tablesCount := 12 |}
           eq_refl eq_refl eq_refl _)).
  vm_compute. discriminate.
Defined.

(** ** Keys and file names *)

Lemma allKeyChars_append (a b : string) :
  Observe.allKeyChars (a ++ b) = Observe.allKeyChars a && Observe.allKeyChars b.
Proof.
  induction a as [|c a IH]; simpl; [reflexivity|].
  now rewrite IH, andb_assoc.
Qed.

Lemma sanitize_kept (s : string) :
  Observe.allKeyChars s = true -> Upload.sanitize s = s.
Proof.
  unfold Upload.sanitize. induction s as [|c s IH]; [reflexivity|].
  cbn [Observe.allKeyChars JS.replaceAll]. intros H. apply andb_prop in H as [Hc Hs].
  rewrite Hc, (IH Hs). reflexivity.
Qed.

Lemma allKeyChars_sanitize (s : string) : Observe.allKeyChars (Upload.sanitize s) = true.
Proof.
  unfold Upload.sanitize. induction s as [|c s IH]; [reflexivity|].
  cbn [JS.replaceAll]. destruct (Upload.isKeyChar c) eqn:Hc; cbn [negb append].
  - cbn [Observe.allKeyChars]. now rewrite Hc, IH.
  - exact IH.
Qed.

Lemma isDigit_isKeyChar (c : ascii) :
  Artifact.isDigit c = true -> Upload.isKeyChar c = true.
Proof.
  unfold Artifact.isDigit, Upload.isKeyChar. cbv zeta. intros ->.
  now rewrite !orb_true_r.
Qed.

Lemma allDigits_allKeyChars (s : string) :
  Artifact.allDigits s = true -> Observe.allKeyChars s = true.
Proof.
  induction s as [|c s IH]; [reflexivity|].
  cbn [Artifact.allDigits Observe.allKeyChars]. intros H. apply andb_prop in H as [Hc Hs].
  now rewrite (isDigit_isKeyChar c Hc), (IH Hs).
Qed.

Lemma allKeyChars_stamp (now : Artifact.DateTime) :
  Observe.fitsStamp now ->
  Observe.allKeyChars (Artifact.timestamp now) = true.
Proof.
  intros Hfits.
  rewrite timestamp_stamp. unfold Artifact.stampOf, Artifact.isoYear.
  rewrite (fitsStamp_year now Hfits).
  repeat (rewrite allKeyChars_append
          || rewrite (allDigits_allKeyChars _ (allDigits_digits _ _))).
  reflexivity.
Qed.

Lemma allKeyChars_clean (outputName : string) :
  Observe.keySafe outputName = true ->
  Observe.allKeyChars (Artifact.cleanFileName outputName) = true.
Proof.
  unfold Artifact.cleanFileName.
  induction outputName as [|c s IH]; [reflexivity|].
  cbn [Observe.keySafe JS.replaceAll]. intros H. apply andb_prop in H as [Hc Hs].
  destruct (Artifact.isPathSeparator c).
  - cbn [append Observe.allKeyChars]. now rewrite (IH Hs).
  - rewrite orb_false_r in Hc. cbn [append Observe.allKeyChars]. now rewrite Hc, (IH Hs).
Qed.

Lemma allKeyChars_backupFileName (now : Artifact.DateTime) (outputName : string) :
  Observe.fitsStamp now ->
  Observe.keySafe outputName = true ->
  Observe.allKeyChars (Artifact.backupFileName now outputName) = true.
Proof.
  intros Hfits H. unfold Artifact.backupFileName, Artifact.sqlFileName.
  pose proof (allKeyChars_clean outputName H) as Hc.
  pose proof (allKeyChars_stamp now Hfits) as Hs.
  destruct (JS.endsWith ".sql" (Artifact.cleanFileName outputName));
    repeat (rewrite allKeyChars_append || rewrite Hs || rewrite Hc);
    reflexivity.
Qed.

(** From the year 10000 on the file name holds a plus sign, which is
    not a character of a key. *)
Lemma backupFileName_expanded (now : Artifact.DateTime) (outputName : string) :
  (10 ^ 4 <= Artifact.year now)%nat ->
  Observe.allKeyChars (Artifact.backupFileName now outputName) = false.
Proof.
  intros Hyear. apply Nat.ltb_ge in Hyear.
  unfold Artifact.backupFileName. rewrite timestamp_stamp.
  unfold Artifact.stampOf, Artifact.isoYear. rewrite Hyear. reflexivity.
Qed.

(** X7.  The object key of an upload is made of key characters after the
    project prefix, and uploading the returned [path] again gives the
    same key.  For a date whose year has four digits and an output name
    made of key characters and path separators the generated artifact
    name passes unchanged: the key is the project name, a slash and the
    file name, the name the URLs of the response are computed from.
    From the year 10000 on the key is never that: the plus sign of the
    year is deleted from it. *)
Theorem X7_key_of_artifact
  (env : Upload.Env) (now : Artifact.DateTime) (outputName destFileName : string) :
  Upload.objectKey env (Upload.sanitize (Upload.dropLeadingSlash destFileName))
  = Upload.objectKey env destFileName
  /\ (Observe.fitsStamp now -> Observe.keySafe outputName = true ->
      Upload.dropLeadingSlash (Artifact.backupFileName now outputName)
      = Artifact.backupFileName now outputName
      /\ Upload.objectKey env (Artifact.backupFileName now outputName)
         = Upload.CLOUDFLARE_CDN_PROJECT_NAME env ++ "/"
           ++ Artifact.backupFileName now outputName)
  /\ ((10 ^ 4 <= Artifact.year now)%nat ->
      Upload.objectKey env (Artifact.backupFileName now outputName)
      <> Upload.CLOUDFLARE_CDN_PROJECT_NAME env ++ "/"
         ++ Artifact.backupFileName now outputName).
Proof.
  assert (Hdrop : Upload.dropLeadingSlash (Artifact.backupFileName now outputName)
                  = Artifact.backupFileName now outputName) by reflexivity.
  split; [|split].
  - unfold Upload.objectKey. do 2 f_equal.
    rewrite !sanitize_dropLeadingSlash.
    apply sanitize_kept, allKeyChars_sanitize.
  - intros Hfits Hsafe.
    split; [exact Hdrop|].
    unfold Upload.objectKey. rewrite Hdrop.
    now rewrite (sanitize_kept _ (allKeyChars_backupFileName now outputName
                                    Hfits Hsafe)).
  - intros Hyear Hkey. unfold Upload.objectKey in Hkey. rewrite Hdrop in Hkey.
    apply append_cancel_l in Hkey.
    change ("/" ++ Upload.sanitize (Artifact.backupFileName now outputName)
            = "/" ++ Artifact.backupFileName now outputName) in Hkey.
    apply append_cancel_l in Hkey.
    pose proof (allKeyChars_sanitize (Artifact.backupFileName now outputName)) as Hs.
    rewrite Hkey in Hs.
    rewrite (backupFileName_expanded now outputName Hyear) in Hs. discriminate.
Qed.

Lemma X7_key_of_artifact_witness :
  Upload.objectKey Scenario.sampleEnv
    (Artifact.backupFileName Scenario.sampleDate "team/my_db-1.dump")
  = "savedb/" ++ Artifact.backupFileName Scenario.sampleDate "team/my_db-1.dump"
  /\ Upload.objectKey Scenario.sampleEnv
       (Artifact.backupFileName
          {| Artifact.year := 10 ^ 4; Artifact.month := 1; Artifact.day := 1;
             Artifact.hours := 0; Artifact.minutes := 0; Artifact.seconds := 0;
             Artifact.milliseconds := 0 |} "x.dump")
     <> "savedb/"
        ++ Artifact.backupFileName
             {| Artifact.year := 10 ^ 4; Artifact.month := 1; Artifact.day := 1;
                Artifact.hours := 0; Artifact.minutes := 0; Artifact.seconds := 0;
                Artifact.milliseconds := 0 |} "x.dump".
Proof.
  split.
  - apply (X7_key_of_artifact Scenario.sampleEnv Scenario.sampleDate
             "team/my_db-1.dump" "");
      [repeat split; apply Nat.ltb_lt; reflexivity | reflexivity].
  - apply (X7_key_of_artifact Scenario.sampleEnv
             {| Artifact.year := 10 ^ 4; Artifact.month := 1; Artifact.day := 1;
                Artifact.hours := 0; Artifact.minutes := 0; Artifact.seconds := 0;
                Artifact.milliseconds := 0 |} "x.dump" "").
    apply Nat.leb_le. reflexivity.
Defined.

(** ** Artifact names *)

Lemma append_inj (a a' b b' : string) :
  String.length a = String.length a' -> a ++ b = a' ++ b' -> a = a' /\ b = b'.
Proof.
  revert a'. induction a as [|c a IH]; intros [|c' a'] Hlen H;
    try discriminate; [now split|].
  cbn in Hlen, H. injection Hlen as Hlen. injection H as -> H.
  destruct (IH a' Hlen H) as [-> ->]. now split.
Qed.

Lemma digit_inj (n m : nat) :
  Artifact.digit n = Artifact.digit m -> (n mod 10 = m mod 10)%nat.
Proof.
  unfold Artifact.digit. intros H.
  apply (f_equal nat_of_ascii) in H.
  pose proof (Nat.mod_upper_bound n 10 ltac:(discriminate)).
  pose proof (Nat.mod_upper_bound m 10 ltac:(discriminate)).
  rewrite !nat_ascii_embedding in H by lia. lia.
Qed.

Lemma digits_inj (width : nat) :
  forall n m, (n < 10 ^ width)%nat -> (m < 10 ^ width)%nat ->
              Artifact.digits width n = Artifact.digits width m -> n = m.
Proof.
  induction width as [|w IH]; intros n m Hn Hm H.
  - cbn in Hn, Hm. lia.
  - cbn [Artifact.digits] in H.
    apply append_inj in H; [|now rewrite !length_digits].
    destruct H as [Hhi Hlo]. injection Hlo as Hlo. apply digit_inj in Hlo.
    rewrite Nat.pow_succ_r' in Hn, Hm.
    apply IH in Hhi.
    + rewrite (Nat.div_mod_eq n 10), (Nat.div_mod_eq m 10). lia.
    + apply Nat.Div0.div_lt_upper_bound; lia.
    + apply Nat.Div0.div_lt_upper_bound; lia.
Qed.

Lemma stampOf_inj (d d' : Artifact.DateTime) :
  Observe.fitsStamp d -> Observe.fitsStamp d' ->
  Artifact.stampOf d = Artifact.stampOf d' -> Observe.sameSecond d d'.
Proof.
  intros Hfits Hfits' H.
  unfold Artifact.stampOf, Artifact.isoYear in H.
  rewrite (fitsStamp_year d Hfits), (fitsStamp_year d' Hfits') in H.
  destruct Hfits as (Hy & Hmo & Hd & Hh & Hmi & Hs).
  destruct Hfits' as (Hy' & Hmo' & Hd' & Hh' & Hmi' & Hs').
  apply append_inj in H as [H1 H]; [|now rewrite !length_digits].
  apply append_inj in H as [H2 H]; [|now rewrite !length_digits].
  apply append_inj in H as [H3 H]; [|now rewrite !length_digits].
  apply append_inj in H as [_ H]; [|reflexivity].
  apply append_inj in H as [H4 H]; [|now rewrite !length_digits].
  apply append_inj in H as [H5 H6]; [|now rewrite !length_digits].
  unfold Observe.sameSecond.
  repeat split; eapply digits_inj; eassumption.
Qed.

(** X6.  The artifact name does not depend on the milliseconds: two
    backups of the same output name started within the same second get
    the same file name, hence the same path.  For dates whose year has
    at most four digits the converse holds: the names of the same output
    name differ as soon as the seconds differ. *)
Theorem X6_same_second_same_file
  (d d' : Artifact.DateTime) (outputName cwd : string) :
  (Observe.sameSecond d d' ->
   Artifact.backupFileName d outputName = Artifact.backupFileName d' outputName
   /\ Artifact.outputPath cwd (Artifact.backupFileName d outputName)
      = Artifact.outputPath cwd (Artifact.backupFileName d' outputName))
  /\ (Observe.fitsStamp d -> Observe.fitsStamp d' ->
      Artifact.backupFileName d outputName = Artifact.backupFileName d' outputName ->
      Observe.sameSecond d d').
Proof.
  split.
  - intros Hsame.
    assert (H : Artifact.backupFileName d outputName
                = Artifact.backupFileName d' outputName).
    { unfold Artifact.backupFileName. rewrite !timestamp_stamp.
      unfold Artifact.stampOf.
      destruct Hsame as (-> & -> & -> & -> & -> & ->). reflexivity. }
    split; [exact H | now rewrite H].
  - intros Hd Hd' H. unfold Artifact.backupFileName in H.
    rewrite !timestamp_stamp in H.
    apply append_inj in H as [_ H]; [|reflexivity].
    apply append_inj in H as [H _].
    + now apply stampOf_inj.
    + rewrite <- !timestamp_stamp.
      pose proof (compactStamp_timestamp d) as C.
      pose proof (compactStamp_timestamp d') as C'.
      rewrite (fitsStamp_year d Hd) in C. rewrite (fitsStamp_year d' Hd') in C'.
      unfold Artifact.compactStamp in C, C'.
      apply andb_prop in C as [C _]. apply andb_prop in C as [C _].
      apply andb_prop in C as [C _].
      apply andb_prop in C' as [C' _]. apply andb_prop in C' as [C' _].
      apply andb_prop in C' as [C' _].
      apply Nat.eqb_eq in C, C'. congruence.
Qed.

Lemma X6_same_second_same_file_witness :
  Artifact.backupFileName Scenario.sampleDate "mydb.dump"
  = Artifact.backupFileName
      {| Artifact.year := 2025; Artifact.month := 1; Artifact.day := 2;
         Artifact.hours := 3; Artifact.minutes := 4; Artifact.seconds := 5;
         Artifact.milliseconds := 999 |} "mydb.dump".
Proof.
  apply (X6_same_second_same_file Scenario.sampleDate _ "mydb.dump" "/app").
  repeat split.
Defined.

(** ** The read loop of the streaming client *)

Section LoopFacts.

Variable json : Type.
Variable JSON_parse : string -> option json.
Variable message_of : json -> option string.

Let noComplete := ClientObs.noComplete json.

Lemma noComplete_snoc (cs : list (Client.Callback json)) (c : Client.Callback json) :
  noComplete (cs ++ [c]) = noComplete cs && negb (ClientObs.isComplete json c).
Proof.
  unfold noComplete, ClientObs.noComplete. rewrite forallb_app. cbn.
  now rewrite andb_true_r.
Qed.

(** What the loop over the frames of one chunk does to the callbacks:
    it stops at the first completion or rejection, a completion being
    then the last callback. *)
Lemma dispatch_shape (events : list string) :
  forall cs,
    noComplete cs = true ->
    match Client.dispatch json JSON_parse message_of events cs with
    | (cs', None) => noComplete cs' = true
    | (cs', Some (Client.Resolved r)) =>
        exists pre, cs' = (pre ++ [Client.OnComplete json r])%list
                    /\ noComplete pre = true
    | (cs', Some (Client.Rejected _)) => noComplete cs' = true
    | (_, Some Client.Pending) => False
    end.
Proof.
  induction events as [|eventText rest IH]; intros cs Hcs; [exact Hcs|].
  cbn [Client.dispatch].
  destruct (negb (JS.truthy (JS.trim eventText))); [now apply IH|].
  destruct (Client._parseEvent eventText) as [pe|]; [|now apply IH].
  destruct (String.eqb (Client.event pe) "progress").
  { destruct (JSON_parse (Client.data pe)); [|now apply IH].
    apply IH. now rewrite noComplete_snoc, Hcs. }
  destruct (String.eqb (Client.event pe) "complete").
  { destruct (JSON_parse (Client.data pe)) as [r|]; [|now apply IH].
    now exists cs. }
  destruct (String.eqb (Client.event pe) "error"); [|now apply IH].
  destruct (JSON_parse (Client.data pe)) as [err|]; [|now apply IH].
  destruct (message_of err).
  - now rewrite noComplete_snoc, Hcs.
  - apply IH. now rewrite noComplete_snoc, Hcs.
Qed.

Lemma readChunk_settled_well (chunks : list string) :
  forall st,
    Client.promise json st = Client.Pending ->
    noComplete (Client.calls json st) = true ->
    ClientObs.settled_well json (Client.readChunk json JSON_parse message_of chunks st).
Proof.
  induction chunks as [|value rest IH]; intros [b cs p] Hp Hcs;
    cbn [Client.promise Client.calls] in Hp, Hcs; subst p.
  - cbn [Client.readChunk]. unfold Client.streamEnd.
    cbn [Client.buffer Client.calls Client.promise].
    destruct (Client._parseEvent b) as [pe|]; [|exact Hcs].
    destruct (String.eqb (Client.event pe) "complete"); [|exact Hcs].
    destruct (JSON_parse (Client.data pe)) as [r|].
    + now exists cs.
    + exact Hcs.
  - cbn [Client.readChunk Client.buffer Client.calls Client.promise].
    destruct (Client.pop _) as [events buffer2].
    pose proof (dispatch_shape events cs Hcs) as Hd.
    destruct (Client.dispatch json JSON_parse message_of events cs)
      as [cs' [[|r|m]|]].
    + destruct Hd.
    + exact Hd.
    + exact Hd.
    + apply IH; [reflexivity | exact Hd].
Qed.

End LoopFacts.

(** X8.  Whatever the stream and however [JSON.parse] answers, the
    completion callback is invoked at most once, as the last callback,
    and exactly when the promise is resolved, with the resolved value;
    a pending or rejected promise comes with no completion callback. *)
Theorem X8_completion_is_last
  (json : Type) (JSON_parse : string -> option json)
  (message_of : json -> option string) (chunks : list string) :
  let st := Client.client_run json JSON_parse message_of chunks in
  match Client.promise json st with
  | Client.Resolved r =>
      exists pre,
        Client.calls json st = (pre ++ [Client.OnComplete json r])%list
        /\ ClientObs.noComplete json pre = true
  | _ => ClientObs.noComplete json (Client.calls json st) = true
  end.
Proof.
  intros st.
  exact (readChunk_settled_well json JSON_parse message_of chunks
           (Client.initial json) eq_refl eq_refl).
Qed.

(** ** Frames spelled with the client's own separators *)

Lemma concat_cons (v : string) (rest : list string) :
  String.concat "" (v :: rest) = v ++ String.concat "" rest.
Proof. destruct rest; cbn [String.concat]; [now rewrite append_empty_r | reflexivity]. Qed.

Lemma append_eq_empty (a b : string) : a ++ b = "" -> a = "" /\ b = "".
Proof. destruct a; [now split | discriminate]. Qed.

(** A text without an occurrence of the separator is one piece. *)
Lemma split_from_no_occurrence (sep s cur : string) :
  JS.includes sep s = false -> JS.split_from sep 0 cur s = [cur ++ s].
Proof.
  revert cur. induction s as [|c s IH]; intros cur H.
  - cbn. now rewrite append_empty_r.
  - cbn [JS.includes] in H. apply orb_false_elim in H as [Hhere Hlater].
    cbn [JS.split_from]. rewrite Hhere, (IH _ Hlater). now rewrite append_assoc.
Qed.

(** Whether the frame separator starts at a position before the end of
    [x] is decided within [x] and the first three characters after it. *)
Lemma startsWith_frameSeparator (c : ascii) (x : string) :
  JS.startsWith Client.frameSeparator (String c x ++ Client.frameSeparator)
  = JS.startsWith Client.frameSeparator (String c x ++ ClientObs.partialSeparator).
Proof.
  destruct x as [|c1 [|c2 [|c3 x]]]; cbn;
    repeat match goal with
           | |- context [Ascii.eqb ?a ?b] =>
               is_var b; destruct (Ascii.eqb a b) eqn:?; cbn
           end; try reflexivity.
Qed.

Lemma split_from_one_frame (body cur : string) :
  JS.includes Client.frameSeparator (body ++ ClientObs.partialSeparator) = false ->
  JS.split_from Client.frameSeparator 0 cur (body ++ Client.frameSeparator)
  = [cur ++ body; ""].
Proof.
  revert cur. induction body as [|c b IH]; intros cur H.
  - cbn. now rewrite append_empty_r.
  - cbn [append JS.includes] in H. apply orb_false_elim in H as [Hhere Hlater].
    change (String c (b ++ ClientObs.partialSeparator))
      with (String c b ++ ClientObs.partialSeparator) in Hhere.
    rewrite <- startsWith_frameSeparator in Hhere.
    cbn [append JS.split_from]. cbn [append] in Hhere. rewrite Hhere.
    rewrite (IH _ Hlater). now rewrite append_assoc.
Qed.

(** A text that stops before the end of [x ++ [z]] is a prefix of [x]. *)
Lemma proper_prefix (p r x : string) (z : ascii) :
  r <> "" -> p ++ r = x ++ String z "" -> exists q, p ++ q = x.
Proof.
  revert x. induction p as [|c p IH]; intros x Hr H; [now exists x|].
  destruct x as [|d x].
  - cbn in H. injection H as _ H. apply append_eq_empty in H as [_ H].
    contradiction.
  - cbn in H. injection H as -> H. destruct (IH x Hr H) as [q Hq].
    exists q. cbn. now rewrite Hq.
Qed.

Lemma includes_prefix (needle a b : string) :
  JS.includes needle (a ++ b) = false -> JS.includes needle a = false.
Proof.
  intros H. destruct (JS.includes needle a) eqn:E; [|reflexivity].
  now rewrite (includes_append _ _ b E) in H.
Qed.

Section OneFrame.

Variable json : Type.
Variable JSON_parse : string -> option json.
Variable message_of : json -> option string.

(** Empty chunks leave an empty buffer and the callbacks as they are. *)
Lemma readChunk_idle (chunks : list string) :
  forall cs p,
    String.concat "" chunks = "" ->
    Client.readChunk json JSON_parse message_of chunks
      {| Client.buffer := ""; Client.calls := cs; Client.promise := p |}
    = {| Client.buffer := ""; Client.calls := cs; Client.promise := p |}.
Proof.
  induction chunks as [|v rest IH]; intros cs p H; [reflexivity|].
  rewrite concat_cons in H. apply append_eq_empty in H as [-> Hrest].
  cbn [Client.readChunk Client.buffer Client.calls Client.promise append].
  cbn [JS.split JS.split_from Client.pop removelast last Client.dispatch].
  now apply IH.
Qed.

Variable body data : string.
Variable progress : json.
Hypothesis separator_at_end :
  JS.includes Client.frameSeparator (body ++ ClientObs.partialSeparator) = false.
Hypothesis body_not_blank : JS.truthy (JS.trim body) = true.
Hypothesis body_parses :
  Client._parseEvent body
  = Some {| Client.event := "progress"; Client.data := data |}.
Hypothesis data_parses : JSON_parse data = Some progress.

Lemma readChunk_one_frame (chunks : list string) :
  forall buffer,
    String.concat "" chunks <> "" ->
    buffer ++ String.concat "" chunks = body ++ Client.frameSeparator ->
    Client.readChunk json JSON_parse message_of chunks
      {| Client.buffer := buffer; Client.calls := [];
         Client.promise := Client.Pending |}
    = {| Client.buffer := ""; Client.calls := [Client.OnProgress json progress];
         Client.promise := Client.Pending |}.
Proof.
  induction chunks as [|v rest IH]; intros buffer Hmore Hall;
    [now contradiction Hmore|].
  rewrite concat_cons in Hall. rewrite <- append_assoc in Hall.
  cbn [Client.readChunk Client.buffer Client.calls Client.promise].
  destruct (String.concat "" rest) as [|c r] eqn:Hrest.
  - rewrite append_empty_r in Hall. rewrite Hall. unfold JS.split.
    rewrite (split_from_one_frame body "" separator_at_end).
    cbn [append Client.pop removelast last Client.dispatch].
    rewrite body_not_blank. cbn [negb]. rewrite body_parses.
    cbn [Client.event Client.data String.eqb Ascii.eqb Bool.eqb].
    rewrite data_parses. cbn [app].
    now apply readChunk_idle.
  - assert (Hfree : JS.includes Client.frameSeparator (buffer ++ v) = false).
    { change (body ++ Client.frameSeparator)
        with (body ++ ClientObs.partialSeparator ++ "n") in Hall.
      rewrite <- append_assoc in Hall.
      destruct (proper_prefix (buffer ++ v) (String c r)
                  (body ++ ClientObs.partialSeparator) "n" ltac:(discriminate) Hall)
        as [q Hq].
      apply (includes_prefix _ _ q). now rewrite Hq. }
    unfold JS.split. rewrite (split_from_no_occurrence _ _ "" Hfree).
    cbn [append Client.pop removelast last Client.dispatch].
    apply IH; [rewrite ?Hrest; discriminate | rewrite ?Hrest; exact Hall].
Qed.

End OneFrame.

(** X9.  For a frame spelled the way the client cuts it (the body, then
    backslash-n twice, no separator starting earlier), whose body parses
    as a progress event with parsable data: however the text is split
    into chunks, the client invokes the progress callback exactly once,
    with the parsed data, leaves the buffer empty and the promise
    pending. *)
Theorem X9_literal_frame_dispatched_once
  (json : Type) (JSON_parse : string -> option json)
  (message_of : json -> option string)
  (body data : string) (progress : json) (chunks : list string)
  (Hsep : JS.includes Client.frameSeparator (body ++ ClientObs.partialSeparator)
          = false)
  (Hbody : JS.truthy (JS.trim body) = true)
  (Hevent : Client._parseEvent body
            = Some {| Client.event := "progress"; Client.data := data |})
  (Hdata : JSON_parse data = Some progress)
  (Hchunks : String.concat "" chunks = body ++ Client.frameSeparator) :
  Client.client_run json JSON_parse message_of chunks
  = {| Client.buffer := ""; Client.calls := [Client.OnProgress json progress];
       Client.promise := Client.Pending |}.
Proof.
  unfold Client.client_run, Client.initial.
  apply (readChunk_one_frame json JSON_parse message_of body data progress
           Hsep Hbody Hevent Hdata).
  - rewrite Hchunks. destruct body; discriminate.
  - exact Hchunks.
Qed.

Lemma X9_literal_frame_dispatched_once_witness :
  Client.client_run string Some Some
    (Client.bytewise
       ("event: progress" ++ Client.lineSeparator ++ "data: {percent:10}"
        ++ Client.frameSeparator))
  = {| Client.buffer := ""; Client.calls := [Client.OnProgress string "{percent:10}"];
       Client.promise := Client.Pending |}.
Proof.
  apply (X9_literal_frame_dispatched_once string Some Some
           ("event: progress" ++ Client.lineSeparator ++ "data: {percent:10}")
           "{percent:10}" "{percent:10}"); reflexivity.
Defined.

(** ** Parsing a frame *)

Lemma split_from_line (x y cur : string) :
  JS.mentions JS.backslash x = false ->
  JS.split_from Client.lineSeparator 0 cur (x ++ Client.lineSeparator ++ y)
  = (cur ++ x) :: JS.split_from Client.lineSeparator 0 "" y.
Proof.
  revert cur. induction x as [|c x IH]; intros cur H.
  - cbn. now rewrite append_empty_r.
  - cbn [JS.mentions] in H. apply orb_false_elim in H as [Hc Hx].
    unfold Client.lineSeparator in *.
    cbn [append JS.split_from JS.startsWith].
    rewrite Ascii.eqb_sym, Hc. cbn [andb].
    rewrite (IH _ Hx). now rewrite append_assoc.
Qed.

(** X14.  A frame made of the line [event: E], the client's line
    separator and the line [data: D] parses back to the event [E] with
    the data [D], for every non-empty [E] without a backslash and
    non-empty [D] without the line separator, both free of surrounding
    white space.  The data may contain colons. *)
Theorem X14_parseEvent_of_frame (eventName data : string)
  (Hname_plain : JS.mentions JS.backslash eventName = false)
  (Hdata_one_line : JS.includes Client.lineSeparator data = false)
  (Hname_trimmed : JS.trim eventName = eventName)
  (Hdata_trimmed : JS.trim data = data)
  (Hname : JS.truthy eventName = true)
  (Hdata : JS.truthy data = true) :
  Client._parseEvent
    ("event: " ++ eventName ++ Client.lineSeparator ++ "data: " ++ data)
  = Some {| Client.event := eventName; Client.data := data |}.
Proof.
  unfold Client._parseEvent, JS.split.
  change ("event: " ++ eventName ++ Client.lineSeparator ++ "data: " ++ data)
    with (("event: " ++ eventName) ++ Client.lineSeparator ++ "data: " ++ data).
  rewrite split_from_line
    by (rewrite mentions_append, Hname_plain; reflexivity).
  rewrite (split_from_no_occurrence Client.lineSeparator ("data: " ++ data) "").
  2:{ cbn [append JS.includes]. unfold Client.lineSeparator in *.
      cbn [JS.startsWith Ascii.eqb Bool.eqb andb orb]. exact Hdata_one_line. }
  cbn [append fold_left]. unfold Client.parseLine at 2.
  assert (Hline1 : JS.truthy (JS.trim ("event: " ++ eventName)) = true)
    by reflexivity.
  cbn [append] in Hline1. rewrite Hline1. cbn [negb].
  cbn [JS.indexOf Ascii.eqb Bool.eqb option_map JS.take JS.drop].
  change (JS.trim "event") with "event". cbn [String.eqb Ascii.eqb Bool.eqb].
  change (JS.trim (String " " eventName)) with (JS.trim eventName).
  rewrite Hname_trimmed. cbn [fst snd].
  unfold Client.parseLine.
  assert (Hline2 : JS.truthy (JS.trim ("data: " ++ data)) = true)
    by reflexivity.
  cbn [append] in Hline2. rewrite Hline2. cbn [negb].
  cbn [JS.indexOf Ascii.eqb Bool.eqb option_map JS.take JS.drop].
  change (JS.trim "data") with "data". cbn [String.eqb Ascii.eqb Bool.eqb].
  change (JS.trim (String " " data)) with (JS.trim data).
  rewrite Hdata_trimmed. cbn [fst snd].
  now rewrite Hname, Hdata.
Qed.

Lemma X14_parseEvent_of_frame_witness :
  Client._parseEvent
    ("event: " ++ "complete" ++ Client.lineSeparator ++ "data: "
     ++ "{name:x, url:https://cdn.example/x}")
  = Some {| Client.event := "complete";
            Client.data := "{name:x, url:https://cdn.example/x}" |}.
Proof.
  apply (X14_parseEvent_of_frame "complete" "{name:x, url:https://cdn.example/x}");
    reflexivity.
Defined.

(** ** The server seen from its two clients *)

(** X10.  In non-streaming mode every valid request gets one JSON
    reply: 201 with the name, provider and URL when the backup returns,
    504 when it fails with "timed out" in its message, 500 otherwise.
    The fallback client completes with the name, provider and URL in the
    first case; in the other two, and for the 400 reply to an invalid
    body, it reports only [Server error: <status> <reason>]: the texts
    of the error bodies do not reach its error callback. *)
Theorem X10_fallback_client_outcome
  (JSON_stringify : Route.Payload -> string)
  (generateBackupName : string -> string) (w : Pipeline.World)
  (backupData : Route.BackupData) (reason : Z -> string)
  (issues : list Server.ZodIssue) :
  let run := Route.runBackup generateBackupName w backupData in
  (exists rep,
      map Server.reply
        (Route.post JSON_stringify generateBackupName w false (inr backupData))
      = [Some rep]
      /\ match Eff.result run with
         | inr r =>
             Server.status rep = 201
             /\ StandardClient._startStandardBackup
                  (inr (StandardClient.delivered reason rep))
                = StandardClient.Completed
                    (Some (Route.CompleteData
                             (Route.backupName generateBackupName backupData)
                             (Pipeline.provider r) (Pipeline.url r)))
         | inl e =>
             Server.status rep
             = (if JS.includes "timed out" (Eff.message e) then 504 else 500)
             /\ StandardClient._startStandardBackup
                  (inr (StandardClient.delivered reason rep))
                = StandardClient.Failed
                    ("Server error: " ++ JS.showZ (Server.status rep) ++ " "
                     ++ reason (Server.status rep))
         end)
  /\ StandardClient._startStandardBackup
       (inr (StandardClient.delivered reason
               (Server.errorHandler (Server.Validation issues))))
     = StandardClient.Failed ("Server error: 400 " ++ reason 400).
Proof.
  intros run. split; [|reflexivity].
  cbn [Route.post]. unfold Route.standard. fold run.
  destruct (Eff.result run) as [e|r].
  - destruct (JS.includes "timed out" (Eff.message e));
      eexists; (split; [reflexivity|]); split; reflexivity.
  - eexists. split; [reflexivity|]. split; reflexivity.
Qed.

(** A text without the line separator is a single line for
    [_parseEvent], which can set only one of the two fields. *)
Lemma parseEvent_one_line (text : string) :
  JS.includes Client.lineSeparator text = false -> Client._parseEvent text = None.
Proof.
  intros H. unfold Client._parseEvent, JS.split.
  rewrite (split_from_no_occurrence Client.lineSeparator text "" H).
  cbn [append fold_left]. unfold Client.parseLine.
  destruct (negb (JS.truthy (JS.trim text))); [reflexivity|].
  destruct (JS.indexOf ":" text); [|reflexivity].
  destruct (String.eqb _ "event"); [reflexivity|].
  destruct (String.eqb _ "data"); reflexivity.
Qed.

(** A text without the line separator holds no frame separator. *)
Lemma startsWith_prefix (a b s : string) :
  JS.startsWith (a ++ b) s = true -> JS.startsWith a s = true.
Proof.
  revert s. induction a as [|c a IH]; intros s H; [reflexivity|].
  destruct s as [|d s]; [discriminate|].
  cbn [append JS.startsWith] in *. apply andb_prop in H as [Hc Hs].
  now rewrite Hc, (IH _ Hs).
Qed.

Lemma includes_shorter (a b s : string) :
  JS.includes a s = false -> JS.includes (a ++ b) s = false.
Proof.
  induction s as [|c s IH]; intros H.
  - cbn [JS.includes] in *. apply orb_false_elim in H as [H _].
    destruct (JS.startsWith (a ++ b) "") eqn:E; [|reflexivity].
    now rewrite (startsWith_prefix _ _ _ E) in H.
  - cbn [JS.includes] in *. apply orb_false_elim in H as [Hhere Hlater].
    rewrite (IH Hlater), orb_false_r.
    destruct (JS.startsWith (a ++ b) (String c s)) eqn:E; [|reflexivity].
    now rewrite (startsWith_prefix _ _ _ E) in Hhere.
Qed.

Section OneLine.

Variable json : Type.
Variable JSON_parse : string -> option json.
Variable message_of : json -> option string.

(** As long as no frame separator has arrived, every chunk is only
    appended to the buffer. *)
Lemma readChunk_unframed (chunks : list string) :
  forall st,
    JS.includes Client.frameSeparator
      (Client.buffer json st ++ String.concat "" chunks) = false ->
    Client.readChunk json JSON_parse message_of chunks st
    = Client.streamEnd json JSON_parse
        {| Client.buffer := Client.buffer json st ++ String.concat "" chunks;
           Client.calls := Client.calls json st;
           Client.promise := Client.promise json st |}.
Proof.
  induction chunks as [|value rest IH]; intros [b cs p] H.
  - cbn [String.concat Client.readChunk Client.buffer Client.calls Client.promise].
    now rewrite append_empty_r.
  - cbn [Client.buffer Client.calls Client.promise] in *.
    rewrite concat_cons in *. rewrite <- append_assoc in H.
    pose proof (includes_prefix _ _ _ H) as Hbv.
    cbn [Client.readChunk Client.buffer Client.calls Client.promise].
    unfold JS.split. rewrite (split_from_no_occurrence _ _ "" Hbv).
    cbn [append Client.pop removelast last Client.dispatch].
    rewrite IH; cbn [Client.buffer Client.calls Client.promise].
    + now rewrite append_assoc.
    + exact H.
Qed.

(** A text without the line separator, however it is cut into chunks,
    stays in the buffer: no callback is invoked and the promise is left
    pending. *)
Lemma client_run_one_line (text : string) (chunks : list string) :
  JS.includes Client.lineSeparator text = false ->
  String.concat "" chunks = text ->
  Client.client_run json JSON_parse message_of chunks
  = {| Client.buffer := text; Client.calls := []; Client.promise := Client.Pending |}.
Proof.
  intros Hfree Hchunks. unfold Client.client_run.
  rewrite readChunk_unframed;
    cbn [Client.initial Client.buffer Client.calls Client.promise append];
    rewrite Hchunks.
  - unfold Client.streamEnd. cbn [Client.buffer].
    now rewrite (parseEvent_one_line _ Hfree).
  - now apply includes_shorter.
Qed.

End OneLine.

(** A line feed is no part of the line separator of the client: an
    occurrence of the separator lies on one side of it. *)
Lemma includes_line_feed (x y : string) :
  JS.includes Client.lineSeparator (x ++ String JS.LF y)
  = JS.includes Client.lineSeparator x || JS.includes Client.lineSeparator y.
Proof.
  induction x as [|c x IH].
  - reflexivity.
  - cbn [append JS.includes]. rewrite IH, orb_assoc. f_equal. f_equal.
    unfold Client.lineSeparator. cbn [JS.startsWith].
    destruct x as [|d x]; cbn [append]; [|reflexivity].
    cbn. now rewrite andb_false_r.
Qed.

Lemma includes_two_lines (a b rest : string) :
  JS.includes Client.lineSeparator ((a ++ JS.nl) ++ (b ++ JS.nl ++ JS.nl) ++ rest)
  = JS.includes Client.lineSeparator a || JS.includes Client.lineSeparator b
    || JS.includes Client.lineSeparator rest.
Proof.
  unfold JS.nl. rewrite !append_assoc. cbn [append].
  rewrite !includes_line_feed.
  change (String JS.LF rest) with ("" ++ String JS.LF rest).
  rewrite includes_line_feed. cbn [JS.includes JS.startsWith orb].
  now rewrite orb_assoc.
Qed.

Section StreamText.

Variable JSON_stringify : Route.Payload -> string.
Variable generateBackupName : string -> string.
Variable w : Pipeline.World.

Let writes (kind : string) (p : Route.Payload) : list Route.Response :=
  [Route.Write ("event: " ++ kind ++ JS.nl);
   Route.Write ("data: " ++ JSON_stringify p ++ JS.nl ++ JS.nl)].

(** The writes of the streaming branch, payload after payload. *)
Lemma streaming_writes (backupData : Route.BackupData) :
  let run := Route.runBackup generateBackupName w backupData in
  Route.post JSON_stringify generateBackupName w true (inr backupData)
  = (Route.WriteHead 200
     :: flat_map (writes "progress")
          (Route.Starting
           :: map Route.payload (Route.progressEvents (Eff.trace run)))
     ++ writes (match Eff.result run with
                | inr _ => "complete"
                | inl _ => "error"
                end)
          (Observe.outcomePayload
             (Route.backupName generateBackupName backupData) (Eff.result run))
     ++ [Route.End])%list.
Proof.
  cbv zeta. cbn [Route.post]. unfold Route.streaming.
  rewrite onProgress_writes. cbn [flat_map].
  destruct (Eff.result (Route.runBackup generateBackupName w backupData))
    as [error|r].
  - unfold Route.errorEvent, Observe.outcomePayload, Route.errorEvent.
    destruct (JS.includes "timed out" (Eff.message error)); reflexivity.
  - reflexivity.
Qed.

Lemma written_writes (kind : string) (p : Route.Payload)
  (rest : list Route.Response) :
  (kind = "progress" \/ kind = "complete" \/ kind = "error") ->
  JS.includes Client.lineSeparator (Server.written (writes kind p ++ rest))
  = JS.includes Client.lineSeparator (JSON_stringify p)
    || JS.includes Client.lineSeparator (Server.written rest).
Proof.
  intros Hkind. cbn [writes app Server.written].
  change ("event: " ++ kind ++ JS.nl) with (("event: " ++ kind) ++ JS.nl).
  change ("data: " ++ JSON_stringify p ++ JS.nl ++ JS.nl)
    with (("data: " ++ JSON_stringify p) ++ JS.nl ++ JS.nl).
  rewrite includes_two_lines.
  assert (Hk : JS.includes Client.lineSeparator ("event: " ++ kind) = false)
    by (destruct Hkind as [->|[->| ->]]; reflexivity).
  rewrite Hk. reflexivity.
Qed.

Lemma written_payloads_free (kind : string) (last : Route.Payload)
  (ps : list Route.Payload) :
  (kind = "progress" \/ kind = "complete" \/ kind = "error") ->
  Forall (fun p => JS.includes Client.lineSeparator (JSON_stringify p) = false)
    (ps ++ [last]) ->
  JS.includes Client.lineSeparator
    (Server.written
       (flat_map (writes "progress") ps ++ writes kind last ++ [Route.End]))
  = false.
Proof.
  intros Hkind. induction ps as [|p ps IH]; intros Hall.
  - cbn [flat_map app] in *. inversion Hall as [|? ? Hlast _]; subst.
    rewrite written_writes by exact Hkind. now rewrite Hlast.
  - cbn [flat_map app] in Hall |- *. inversion Hall as [|? ? Hp Hrest]; subst.
    rewrite <- app_assoc, written_writes by auto.
    rewrite Hp. now apply IH.
Qed.

(** The text of a streaming response holds the line separator of the
    client only where a serialized payload holds it. *)
Lemma written_streaming_free (backupData : Route.BackupData) :
  Forall (fun p => JS.includes Client.lineSeparator (JSON_stringify p) = false)
    (Observe.serialized generateBackupName w backupData) ->
  JS.includes Client.lineSeparator
    (Server.written
       (Route.post JSON_stringify generateBackupName w true (inr backupData)))
  = false.
Proof.
  unfold Observe.serialized. cbv zeta. rewrite streaming_writes.
  intros Hall. cbn [Server.written].
  apply written_payloads_free; [|exact Hall].
  destruct (Eff.result _); auto.
Qed.

End StreamText.

(** X11.  Fed with the text the streaming branch writes, in any
    chunking, the streaming client invokes no callback and leaves its
    promise pending, as long as no payload of the response is serialized
    with a backslash directly followed by the letter [n]: the line feeds
    the server writes are no separators for the client, and the whole
    response stays in its buffer. *)
Theorem X11_streaming_response_unseen
  (json : Type) (JSON_parse : string -> option json)
  (message_of : json -> option string)
  (JSON_stringify : Route.Payload -> string)
  (generateBackupName : string -> string) (w : Pipeline.World)
  (backupData : Route.BackupData) (chunks : list string)
  (Hplain : Forall
              (fun p => JS.includes Client.lineSeparator (JSON_stringify p) = false)
              (Observe.serialized generateBackupName w backupData))
  (Hchunks : String.concat "" chunks
             = Server.written
                 (Route.post JSON_stringify generateBackupName w true
                    (inr backupData))) :
  Client.client_run json JSON_parse message_of chunks
  = {| Client.buffer :=
         Server.written
           (Route.post JSON_stringify generateBackupName w true (inr backupData));
       Client.calls := [];
       Client.promise := Client.Pending |}.
Proof.
  apply client_run_one_line; [|exact Hchunks].
  now apply written_streaming_free.
Qed.

Lemma X11_streaming_response_unseen_witness :
  Client.calls string
    (Client.client_run string Some Some
       (Client.bytewise
          (Server.written
             (Route.post Scenario.stringify (fun _ => "mydb") Scenario.absent true
                (inr {| Route.name := None;
                        Route.connectionUrl := "postgres://u@h/mydb";
                        Route.destination := Route.ManagedDrive |})))))
  = []
  /\ JS.mentions JS.backslash
       (Server.written
          (Route.post Scenario.stringify (fun _ => "mydb") Scenario.absent true
             (inr {| Route.name := None;
                     Route.connectionUrl := "postgres://u@h/mydb";
                     Route.destination := Route.ManagedDrive |})))
     = true.
Proof.
  split; [|vm_compute; reflexivity].
  rewrite (X11_streaming_response_unseen string Some Some Scenario.stringify
             (fun _ => "mydb") Scenario.absent
             {| Route.name := None; Route.connectionUrl := "postgres://u@h/mydb";
                Route.destination := Route.ManagedDrive |}).
  - reflexivity.
  - vm_compute. repeat constructor.
  - vm_compute. reflexivity.
Defined.

(** ** The managed-drive upload *)

Lemma drive_snd_bind {A B} (m : Drive.M A) (k : A -> Drive.M B) :
  snd (Drive.bind m k)
  = match snd m with
    | inl e => inl e
    | inr a => snd (k a)
    end.
Proof. unfold Drive.bind. now destruct (snd m). Qed.

Lemma drive_fst_bind {A B} (m : Drive.M A) (k : A -> Drive.M B) :
  fst (Drive.bind m k)
  = match snd m with
    | inl _ => fst m
    | inr a => (fst m ++ fst (k a))%list
    end.
Proof. unfold Drive.bind. now destruct (snd m). Qed.

Lemma truthyOpt_some (s : option string) (v : string) :
  Drive.truthyOpt s = Some v -> s = Some v.
Proof.
  destruct s as [x|]; [|discriminate]. cbn.
  destruct (JS.truthy x); [congruence | discriminate].
Qed.

Section DriveFacts.

Variable w : Drive.World.

Lemma grantOwners_prefix (fileId : string) (emails : list string) :
  exists k,
    fst (Drive.grantOwners w fileId emails)
    = map (Drive.owner fileId) (firstn k emails)
    /\ (forall u, snd (Drive.grantOwners w fileId emails) = inr u ->
                  firstn k emails = emails).
Proof.
  induction emails as [|email rest [k [IH1 IH2]]].
  - exists 0%nat. split; [reflexivity | reflexivity].
  - cbn [Drive.grantOwners]. unfold Drive.bind, Drive.request. cbn [fst snd].
    destruct (Drive.permissionsCreate w (Some email)) as [e|[]].
    + exists 1%nat. split; [reflexivity | discriminate].
    + exists (S k). cbn [firstn map app]. rewrite IH1.
      split; [reflexivity|]. intros u Hu. now rewrite (IH2 u Hu).
Qed.

Lemma initializeDrive_trace (account : option Drive.ServiceAccount) :
  match snd (Drive.initializeDrive w account) with
  | inr _ =>
      exists a,
        fst (Drive.initializeDrive w account)
        = [Drive.Authorize (Drive.client_email a) (Drive.private_key a)]
        /\ match account with
           | Some given => a = given
           | None => Drive.envCredentials w = inr a
           end
  | inl _ => Drive.permissions (fst (Drive.initializeDrive w account)) = []
             /\ Drive.created (fst (Drive.initializeDrive w account)) = []
  end.
Proof.
  unfold Drive.initializeDrive, Drive.bind, Drive.request, Drive.lift, Drive.ret.
  destruct account as [a|]; cbn [fst snd].
  - destruct (Drive.authorize w a) as [e|[]]; [now split|]. now exists a.
  - destruct (Drive.envCredentials w) as [e|a]; cbn [fst snd]; [now split|].
    destruct (Drive.authorize w a) as [e|[]]; [now split|]. now exists a.
Qed.

End DriveFacts.

(** X12.  When the drive upload returns, it has sent exactly: the
    authorization of the given account (or, without one, of the
    environment's), one file creation, the grant to anyone as reader
    unless [isPublic] is explicitly false, and, when addresses are
    given, a second authorization, always with the environment's
    account, followed by one owner grant per address in the given
    order. *)
Theorem X12_drive_upload_returns
  (w : Drive.World) (fileName : string) (options : option Drive.Options)
  (up : Drive.Uploaded)
  (Hreturns : snd (Drive.uploadFileToDrive w fileName options) = inr up) :
  exists account parents mime,
    match DriveObs.givenAccount options with
    | Some given => account = given
    | None => Drive.envCredentials w = inr account
    end
    /\ Drive.filesCreate w = inr (Some (Drive.id up), Some (Drive.webViewLink up))
    /\ fst (Drive.uploadFileToDrive w fileName options)
       = (Drive.Authorize (Drive.client_email account) (Drive.private_key account)
          :: Drive.FilesCreate fileName parents mime
          :: (if DriveObs.effectivePublic options
              then [Drive.anyoneReads (Drive.id up)] else [])
          ++ match DriveObs.effectiveEmails options with
             | [] => []
             | emails =>
                 match Drive.envCredentials w with
                 | inr env =>
                     Drive.Authorize (Drive.client_email env) (Drive.private_key env)
                     :: map (Drive.owner (Drive.id up)) emails
                 | inl _ => []
                 end
             end)%list.
Proof.
  unfold Drive.uploadFileToDrive in *.
  fold (DriveObs.givenAccount options) in *.
  fold (DriveObs.effectivePublic options) in *.
  fold (DriveObs.effectiveEmails options) in *.
  rewrite drive_snd_bind in Hreturns. rewrite drive_fst_bind.
  pose proof (initializeDrive_trace w (DriveObs.givenAccount options)) as Hinit.
  destruct (snd (Drive.initializeDrive w (DriveObs.givenAccount options)))
    as [e|[]]; [discriminate Hreturns|].
  destruct Hinit as (account & Htr & Hacc). rewrite Htr.
  rewrite drive_snd_bind in Hreturns. rewrite drive_fst_bind.
  cbn [Drive.request fst snd] in *.
  destruct (Drive.filesCreate w) as [e|[fid link]] eqn:Hcreate;
    [discriminate Hreturns|].
  cbn [fst snd] in *.
  destruct (Drive.truthyOpt fid) as [fileId|] eqn:Hfid; [|discriminate Hreturns].
  destruct (Drive.truthyOpt link) as [viewLink|] eqn:Hlink;
    [|discriminate Hreturns].
  apply truthyOpt_some in Hfid, Hlink. subst fid link.
  rewrite drive_snd_bind in Hreturns. rewrite drive_fst_bind.
  exists account. do 2 eexists. split; [exact Hacc|].
  assert (Hshare :
            forall pub : list Drive.Request,
              snd (Drive.bind
                     match DriveObs.effectiveEmails options with
                     | [] => Drive.ret tt
                     | _ :: _ =>
                         Drive.addOwnersToFile w fileId
                           (DriveObs.effectiveEmails options)
                     end
                     (fun _ => Drive.ret {| Drive.id := fileId;
                                            Drive.webViewLink := viewLink |}))
              = inr up ->
              up = {| Drive.id := fileId; Drive.webViewLink := viewLink |}
              /\ fst (Drive.bind
                        match DriveObs.effectiveEmails options with
                        | [] => Drive.ret tt
                        | _ :: _ =>
                            Drive.addOwnersToFile w fileId
                              (DriveObs.effectiveEmails options)
                        end
                        (fun _ => Drive.ret {| Drive.id := fileId;
                                               Drive.webViewLink := viewLink |}))
                 = match DriveObs.effectiveEmails options with
                   | [] => []
                   | emails =>
                       match Drive.envCredentials w with
                       | inr env =>
                           Drive.Authorize (Drive.client_email env)
                             (Drive.private_key env)
                           :: map (Drive.owner fileId) emails
                       | inl _ => []
                       end
                   end).
  { intros _. rewrite drive_snd_bind, drive_fst_bind.
    destruct (DriveObs.effectiveEmails options) as [|email rest].
    - cbn. intros [= <-]. now split.
    - unfold Drive.addOwnersToFile.
      rewrite drive_snd_bind, drive_fst_bind.
      pose proof (initializeDrive_trace w None) as Hinit2.
      destruct (snd (Drive.initializeDrive w None)) as [e|[]]; [discriminate|].
      destruct Hinit2 as (env & Htr2 & Henv). rewrite Htr2, Henv.
      destruct (grantOwners_prefix w fileId (email :: rest)) as (k & Hk1 & Hk2).
      destruct (snd (Drive.grantOwners w fileId (email :: rest))) as [e|[]];
        [discriminate|].
      rewrite (Hk2 tt eq_refl) in Hk1. rewrite Hk1.
      cbn [Drive.ret fst snd]. intros [= <-]. split; [reflexivity|].
      cbn [app]. now rewrite app_nil_r. }
  destruct (DriveObs.effectivePublic options).
  - cbn [Drive.request fst snd] in *.
    destruct (Drive.permissionsCreate w None) as [e|[]]; [discriminate Hreturns|].
    destruct (Hshare [] Hreturns) as [-> Htrace]. rewrite Htrace.
    cbn [Drive.id Drive.webViewLink]. split; reflexivity.
  - cbn [Drive.ret fst snd] in *.
    destruct (Hshare [] Hreturns) as [-> Htrace]. rewrite Htrace.
    cbn [Drive.id Drive.webViewLink]. split; reflexivity.
Qed.

Lemma X12_drive_upload_returns_witness :
  fst (Drive.uploadFileToDrive DriveScenario.obliging "backup.dump"
         (Some DriveScenario.shareWithTwo))
  = [Drive.Authorize "tenant@customer.example" "TENANT-KEY";
     Drive.FilesCreate "backup.dump" None "application/octet-stream";
     Drive.anyoneReads "file-1";
     Drive.Authorize "robot@project.example" "KEY";
     Drive.owner "file-1" "a@example.org";
     Drive.owner "file-1" "b@example.org"].
Proof.
  destruct (X12_drive_upload_returns DriveScenario.obliging "backup.dump"
              (Some DriveScenario.shareWithTwo)
              {| Drive.id := "file-1";
                 Drive.webViewLink := "https://drive.example/file-1" |} eq_refl)
    as (account & parents & mime & _ & _ & Htrace).
  reflexivity.
Defined.

Lemma permissions_app (t u : list Drive.Request) :
  Drive.permissions (t ++ u) = (Drive.permissions t ++ Drive.permissions u)%list.
Proof.
  induction t as [|r t IH]; [reflexivity|].
  destruct r; cbn [Drive.permissions app]; rewrite ?IH; reflexivity.
Qed.

Lemma created_app (t u : list Drive.Request) :
  Drive.created (t ++ u) = (Drive.created t ++ Drive.created u)%list.
Proof.
  induction t as [|r t IH]; [reflexivity|].
  destruct r; cbn [Drive.created app]; rewrite ?IH; reflexivity.
Qed.

Lemma permissions_owners (fileId : string) (emails : list string) :
  Drive.permissions (map (Drive.owner fileId) emails)
  = map (Drive.owner fileId) emails
  /\ Drive.created (map (Drive.owner fileId) emails) = [].
Proof.
  induction emails as [|e rest [IH1 IH2]]; [now split|].
  cbn. now rewrite IH1, IH2.
Qed.

Lemma initializeDrive_inert (w : Drive.World) (account : option Drive.ServiceAccount) :
  Drive.permissions (fst (Drive.initializeDrive w account)) = []
  /\ Drive.created (fst (Drive.initializeDrive w account)) = [].
Proof.
  pose proof (initializeDrive_trace w account) as H.
  destruct (snd (Drive.initializeDrive w account)); [exact H|].
  destruct H as (a & -> & _). now split.
Qed.

Lemma addOwnersToFile_trace (w : Drive.World) (fileId : string) (emails : list string) :
  exists k,
    Drive.permissions (fst (Drive.addOwnersToFile w fileId emails))
    = map (Drive.owner fileId) (firstn k emails)
    /\ Drive.created (fst (Drive.addOwnersToFile w fileId emails)) = [].
Proof.
  unfold Drive.addOwnersToFile. rewrite drive_fst_bind.
  destruct (initializeDrive_inert w None) as [Hp Hc].
  destruct (snd (Drive.initializeDrive w None)).
  - exists 0%nat. now rewrite Hp, Hc.
  - destruct (grantOwners_prefix w fileId emails) as (k & Hk & _).
    exists k. rewrite permissions_app, created_app, Hp, Hc, Hk.
    destruct (permissions_owners fileId (firstn k emails)) as [-> ->].
    now split.
Qed.

(** X13.  A drive upload creates at most one file, and asks for a
    permission only on the file the service has just created and
    answered with an id and a link: the reader grant to anyone when the
    upload is public, owner grants for given addresses.  When the
    service answers without an id or without a link, the upload does not
    return and asks for no permission. *)
Theorem X13_drive_grants_follow_creation
  (w : Drive.World) (fileName : string) (options : option Drive.Options) :
  let run := Drive.uploadFileToDrive w fileName options in
  (List.length (Drive.created (fst run)) <= 1)%nat
  /\ (forall r,
        In r (Drive.permissions (fst run)) ->
        exists fileId link,
          Drive.filesCreate w = inr (Some fileId, Some link)
          /\ (r = Drive.anyoneReads fileId
              /\ DriveObs.effectivePublic options = true
              \/ exists email,
                   In email (DriveObs.effectiveEmails options)
                   /\ r = Drive.owner fileId email))
  /\ (forall data,
        Drive.filesCreate w = inr data ->
        Drive.truthyOpt (fst data) = None \/ Drive.truthyOpt (snd data) = None ->
        Drive.permissions (fst run) = []
        /\ forall up, snd run <> inr up).
Proof.
  intros run. unfold run, Drive.uploadFileToDrive.
  fold (DriveObs.givenAccount options).
  fold (DriveObs.effectivePublic options).
  fold (DriveObs.effectiveEmails options).
  rewrite drive_fst_bind, drive_snd_bind.
  destruct (initializeDrive_inert w (DriveObs.givenAccount options)) as [Hp0 Hc0].
  destruct (snd (Drive.initializeDrive w (DriveObs.givenAccount options)))
    as [e|[]].
  { rewrite Hp0, Hc0. split; [cbn; lia | split; [intros r []|]].
    intros data _ _. split; [reflexivity | discriminate]. }
  rewrite permissions_app, created_app, Hp0, Hc0. cbn [app].
  rewrite drive_fst_bind, drive_snd_bind. cbn [Drive.request fst snd].
  destruct (Drive.filesCreate w) as [e|[fid link]] eqn:Hcreate.
  { cbn. split; [lia | split; [intros r []|]]. discriminate. }
  cbn [fst snd].
  destruct (Drive.truthyOpt fid) as [fileId|] eqn:Hfid.
  2:{ cbn. split; [lia | split; [intros r []|]].
      intros data _ _. split; [reflexivity | discriminate]. }
  destruct (Drive.truthyOpt link) as [viewLink|] eqn:Hlink.
  2:{ cbn. split; [lia | split; [intros r []|]].
      intros data _ _. split; [reflexivity | discriminate]. }
  apply truthyOpt_some in Hfid as Hfid', Hlink as Hlink'. subst fid link.
  set (share := match DriveObs.effectiveEmails options with
                | [] => Drive.ret tt
                | _ :: _ =>
                    Drive.addOwnersToFile w fileId
                      (DriveObs.effectiveEmails options)
                end).
  assert (Hshare : exists k,
             Drive.permissions (fst share)
             = map (Drive.owner fileId) (firstn k (DriveObs.effectiveEmails options))
             /\ Drive.created (fst share) = []).
  { unfold share.
    destruct (DriveObs.effectiveEmails options) as [|email rest] eqn:He.
    - exists 0%nat. now split.
    - apply addOwnersToFile_trace. }
  clearbody share.
  destruct Hshare as (k & Hsp & Hsc).
  assert (Howners : forall r,
             In r (map (Drive.owner fileId)
                     (firstn k (DriveObs.effectiveEmails options))) ->
             exists email, In email (DriveObs.effectiveEmails options)
                           /\ r = Drive.owner fileId email).
  { intros r Hr. apply in_map_iff in Hr as (email & <- & Hin).
    exists email. split; [|reflexivity].
    rewrite <- (firstn_skipn k (DriveObs.effectiveEmails options)).
    apply in_or_app. now left. }
  rewrite drive_fst_bind.
  destruct (DriveObs.effectivePublic options).
  - cbn [Drive.request fst snd].
    destruct (Drive.permissionsCreate w None) as [e|[]].
    + cbn. split; [lia | split].
      * intros r [<-|[]]. exists fileId, viewLink. split; [reflexivity|]. now left.
      * intros data [= <-] [H|H]; cbn [fst snd] in H; congruence.
    + rewrite drive_fst_bind.
      destruct (snd share);
        cbn [Drive.ret fst app]; rewrite ?app_nil_r;
        cbn [Drive.created Drive.permissions app];
        rewrite ?permissions_app, ?created_app, Hsp, Hsc;
        (split; [cbn; lia | split]);
        try (intros data [= <-] [H|H]; cbn [fst snd] in H; congruence);
        (intros r [<-|Hr];
         [exists fileId, viewLink; split; [reflexivity | now left]
         | exists fileId, viewLink; split; [reflexivity | right; now apply Howners]]).
  - cbn [Drive.ret fst snd app].
    rewrite drive_fst_bind.
    destruct (snd share);
      cbn [Drive.ret fst app]; rewrite ?app_nil_r;
      cbn [Drive.created Drive.permissions app];
      rewrite ?permissions_app, ?created_app, Hsp, Hsc;
      (split; [cbn; lia | split]);
      try (intros data [= <-] [H|H]; cbn [fst snd] in H; congruence);
      (intros r Hr; exists fileId, viewLink;
       split; [reflexivity | right; now apply Howners]).
Qed.

Lemma X13_drive_grants_follow_creation_witness :
  Drive.permissions
    (fst (Drive.uploadFileToDrive
            {| Drive.envCredentials := inr DriveScenario.robot;
               Drive.authorize := fun _ => inr tt;
               Drive.filesCreate := inr (Some "file-1", None);
               Drive.permissionsCreate := fun _ => inr tt |}
            "backup.dump" None)) = [].
Proof.
  eapply (X13_drive_grants_follow_creation
            {| Drive.envCredentials := inr DriveScenario.robot;
               Drive.authorize := fun _ => inr tt;
               Drive.filesCreate := inr (Some "file-1", None);
               Drive.permissionsCreate := fun _ => inr tt |}
            "backup.dump" None).
  - reflexivity.
  - now right.
Defined.
